(** * The sales ETL pipeline ([etl.py])

    A shallow embedding of [extract_csv], [transform], [load_to_sqlite] and
    [main] with its four report queries, and the properties of the pipeline
    proved about it.

    Modelling conventions.
    - A pandas frame is a list of column labels together with its rows; a row
      carries its index label and a finite map from column label to cell.
    - Cells are dynamically typed ([value]): the missing marker (NaN, NaT,
      None), text, a number, an infinity, or a timestamp.
    - A number cell holds a rational: the exact value of a finite float64 or
      of an int64.  In [transform] the division and the rounding are float64
      operations ([float64], [truediv], [around]): the result is the float64
      nearest to the exact result, and it overflows to an infinity.  In the
      report queries the sums, the averages and [ROUND] of SQLite are taken
      on the exact values; the rounding of SQLite's own floating-point
      summation is outside the model.
    - A text is the sequence of its code points, one character for each; the
      texts of the model are those over the code points 0 to 255.
    - The input frame holds untyped text cells (or missing cells), as a CSV
      export does; [pd.to_datetime] and [pd.to_numeric] with
      [errors="coerce"] are library functions and are taken as parameters
      that return [None] for the missing marker.  [pd.to_numeric] is taken to
      return a finite number or the missing marker; the texts that it reads
      as an infinity (["inf"], ["1e999"]) are outside the model, and what is
      stated of the numbers of a returned record ([positive], [negative]) is
      worded so that it is true of an infinity too.  Concrete parsers for ISO
      dates and decimal literals instantiate the parameters in the examples.
    - Two labels that are the same after normalisation put a frame outside
      the model; [transform] then stops with [LabelsCollide].
    - [DataFrame.to_sql] is taken to accept every frame (it raises for a cell
      that SQLite cannot hold, such as an integer beyond 64 bits).  What is
      stated of [load_to_sqlite] and of [main] is stated of the runs that end
      without an exception, or of a named way to fail. *)

From Stdlib Require Import Ascii String QArith Qabs Qround Qpower.
From Stdlib Require Import Sorted Permutation.
From stdpp Require Import gmap strings list.

Local Open Scope string_scope.
Local Open Scope list_scope.

(** ** Cells *)

(** [datetime64[ns]] value, split into its calendar fields. *)
Record Timestamp := mkTimestamp {
  year : Z;
  month : Z;
  day : Z;
  nanosecond_of_day : Z
}.

Inductive value :=
| NA                      (* NaN / NaT / None *)
| Str (s : string)
| Num (q : Q)
| Inf (negative : bool)   (* float64 infinities *)
| Datetime (t : Timestamp).

#[global] Instance Timestamp_eq_dec : EqDecision Timestamp.
Proof. solve_decision. Defined.

Definition isna (v : value) : bool :=
  match v with NA => true | _ => false end.

Definition notna (v : value) : bool := negb (isna v).

(** Equality of two cells as [duplicated] sees it: missing markers are equal
    to each other, numbers are compared by value. *)
Definition value_eqb (a b : value) : bool :=
  match a, b with
  | NA, NA => true
  | Str s, Str t => String.eqb s t
  | Num p, Num q => Qeq_bool p q
  | Inf x, Inf y => Bool.eqb x y
  | Datetime s, Datetime t => bool_decide (s = t)
  | _, _ => false
  end.

(** [v > k] on a numeric cell; comparisons with NaN are false. *)
Definition gt (v : value) (k : Q) : bool :=
  match v with
  | Num q => match (k ?= q)%Q with Lt => true | _ => false end
  | Inf negative => negb negative
  | _ => false
  end.

(** ** Ordering of cells, as used by [sort_values] *)

Definition Timestamp_compare (s t : Timestamp) : comparison :=
  match (year s ?= year t)%Z with
  | Eq =>
      match (month s ?= month t)%Z with
      | Eq =>
          match (day s ?= day t)%Z with
          | Eq => (nanosecond_of_day s ?= nanosecond_of_day t)%Z
          | o => o
          end
      | o => o
      end
  | o => o
  end.

(** Cells of different kinds never meet in one column of [transform]; they
    are ranked so that the order is total, with the missing marker last
    ([na_position="last"]). *)
Definition rank (v : value) : Z :=
  match v with
  | Num _ | Inf _ => 0
  | Str _ => 1
  | Datetime _ => 2
  | NA => 3
  end.

Definition value_compare (a b : value) : comparison :=
  match a, b with
  | Num p, Num q => (p ?= q)%Q
  | Inf x, Inf y => if x then (if y then Eq else Lt) else (if y then Gt else Eq)
  | Inf x, Num _ => if x then Lt else Gt
  | Num _, Inf y => if y then Gt else Lt
  | Str s, Str t => String.compare s t
  | Datetime s, Datetime t => Timestamp_compare s t
  | _, _ => (rank a ?= rank b)%Z
  end.

(** ** Arithmetic on cells: float64

    A number cell holds the value of a finite float64 (or of an int64 that
    float64 holds exactly).  The operations of [transform] on such cells are
    those of IEEE 754 binary64: the exact result rounded to the nearest
    float64, ties to even, with overflow to an infinity.  The two zeros of
    float64 are one number here. *)

(** Round half to even, as [numpy.rint]. *)
Definition rint (x : Q) : Z :=
  let f := Qfloor x in
  match (x - inject_Z f ?= 1 # 2)%Q with
  | Lt => f
  | Gt => (f + 1)%Z
  | Eq => if Z.even f then f else (f + 1)%Z
  end.

Definition pow10 (decimals : nat) : Q := inject_Z (10 ^ Z.of_nat decimals).

(** The binary exponent of [x > 0]: the [e] with [2^e <= x < 2^(e+1)]. *)
Definition ilog2 (x : Q) : Z :=
  let e := (Z.log2 (Qnum x) - Z.log2 (Zpos (Qden x)))%Z in
  if Qle_bool (2 ^ e) x then e else (e - 1)%Z.

(** The multiple of the unit in the last place nearest to [x], ties to even.
    A float64 has 53 significant bits, so in the binade of exponent [e] the
    unit is [2^(e-52)]; below [2^-1022] (the subnormal range) it stays
    [2^-1074]. *)
Definition nearest (x : Q) : Q :=
  if Qeq_bool x 0 then 0%Q
  else
    let e := Z.max (ilog2 (Qabs x)) (-1022) in
    let ulp := (2 ^ (e - 52))%Q in
    Qred (inject_Z (rint (x / ulp)) * ulp).

(** The float64 that an operation with the exact result [x] returns; what
    rounds to [2^1024] or beyond overflows. *)
Definition float64 (x : Q) : value :=
  let y := nearest x in
  if Qle_bool (2 ^ 1024) (Qabs y) then Inf (negb (Qle_bool 0 y)) else Num y.

(** [numpy.around] on a float64: multiply by [10^decimals], round to the
    nearest integer, divide by [10^decimals]; each step is a float64
    operation. *)
Definition around (x : Q) (decimals : nat) : value :=
  match float64 (x * pow10 decimals) with
  | Num y => float64 (inject_Z (rint y) / pow10 decimals)
  | v => v
  end.

(** [Series.round]. *)
Definition round (v : value) (decimals : nat) : value :=
  match v with
  | Num x => around x decimals
  | _ => v
  end.

(** [Series / Series] on float64: a zero divisor gives an infinity, or NaN
    for [0 / 0]; it does not raise. *)
Definition truediv (a b : value) : value :=
  match a, b with
  | Num x, Num y =>
      if Qeq_bool y 0 then
        match (x ?= 0)%Q with
        | Eq => NA
        | Lt => Inf true
        | Gt => Inf false
        end
      else float64 (x / y)
  | Inf s, Num y => match (y ?= 0)%Q with Lt => Inf (negb s) | _ => Inf s end
  | Num _, Inf _ => Num 0
  | _, _ => NA
  end.

(** ** Frames *)

Abbreviation Row := (gmap string value).

Record DataFrame := mkDataFrame {
  columns : list string;
  rows : list (nat * Row)
}.

(** The frame handed to [transform]: labelled columns of text cells. *)
Record RawFrame := mkRawFrame {
  raw_columns : list string;
  raw_rows : list (nat * list (option string))
}.

(** [row[c]]; a cell the row does not hold reads as missing. *)
Definition get (r : Row) (c : string) : value := default NA (r !! c).

Definition len (df : DataFrame) : nat := length (rows df).

(** [df[c]] as a series of cells. *)
Definition column (c : string) (df : DataFrame) : list value :=
  map (λ ir, get ir.2 c) (rows df).

(** [df[c] = f(row)]: overwrite the column, or append it when it is new. *)
Definition assign (c : string) (f : Row → value) (df : DataFrame) : DataFrame :=
  {| columns := if bool_decide (c ∈ columns df) then columns df
                else columns df ++ [c];
     rows := map (λ ir, (ir.1, <[c := f ir.2]> ir.2)) (rows df) |}.

(** [df[mask]]: boolean indexing keeps index labels and order. *)
Definition loc (mask : Row → bool) (df : DataFrame) : DataFrame :=
  {| columns := columns df;
     rows := List.filter (λ ir, mask ir.2) (rows df) |}.

(** [df[cs]]: select the listed columns, in the listed order. *)
Definition getitem (cs : list string) (df : DataFrame) : DataFrame :=
  {| columns := cs;
     rows := map (λ ir, (ir.1, list_to_map ((λ c, (c, get ir.2 c)) <$> cs)))
                 (rows df) |}.

Definition fillna (fill v : value) : value :=
  match v with NA => fill | _ => v end.

(** [Series.replace({old: new})]: exact match on the whole cell. *)
Definition replace (old new : string) (v : value) : value :=
  match v with
  | Str s => if String.eqb s old then Str new else v
  | _ => v
  end.

Definition row_eqb (cs : list string) (r1 r2 : Row) : bool :=
  forallb (λ c, value_eqb (get r1 c) (get r2 c)) cs.

(** [duplicated(keep="first")] followed by [df[~mask]]: a scan that keeps a
    row unless an equal row has been kept already. *)
Fixpoint keep_first (cs : list string) (seen : list Row)
    (rs : list (nat * Row)) : list (nat * Row) :=
  match rs with
  | [] => []
  | ir :: rs' =>
      if existsb (row_eqb cs ir.2) seen then keep_first cs seen rs'
      else ir :: keep_first cs (ir.2 :: seen) rs'
  end.

Definition drop_duplicates (df : DataFrame) : DataFrame :=
  {| columns := columns df;
     rows := keep_first (columns df) [] (rows df) |}.

Definition dropna (subset : list string) (df : DataFrame) : DataFrame :=
  loc (λ r, forallb (λ c, notna (get r c)) subset) df.

(** Lexicographic comparison of two rows on the [by] columns. *)
Fixpoint rows_compare (by_ : list string) (r1 r2 : Row) : comparison :=
  match by_ with
  | [] => Eq
  | c :: by' =>
      match value_compare (get r1 c) (get r2 c) with
      | Eq => rows_compare by' r1 r2
      | o => o
      end
  end.

Fixpoint insert_row (by_ : list string) (ir : nat * Row)
    (l : list (nat * Row)) : list (nat * Row) :=
  match l with
  | [] => [ir]
  | jr :: l' =>
      match rows_compare by_ ir.2 jr.2 with
      | Gt => jr :: insert_row by_ ir l'
      | _ => ir :: l
      end
  end.

(** [sort_values(by)] on several keys is a stable lexicographic sort. *)
Definition sort_values (by_ : list string) (df : DataFrame) : DataFrame :=
  {| columns := columns df;
     rows := foldr (insert_row by_) [] (rows df) |}.

(** [reset_index(drop=True)]: relabel the rows 0, 1, 2, ... *)
Definition reset_index (df : DataFrame) : DataFrame :=
  {| columns := columns df;
     rows := zip (seq 0 (length (rows df))) (map snd (rows df)) |}.

(** ** Column-name normalisation: [c.strip().lower()]

    A text is the sequence of its code points, one character of type
    [ascii] for each, so the texts of the model are those over the code
    points 0 to 255; U+00A0 is the character ["160"%char].  On these code
    points [isspace] and [lower_ascii] are [str.isspace] and [str.lower] of
    Python 3. *)

(** [str.isspace] of a character: the ASCII controls 9 to 13 and 28 to 31,
    the blank, U+0085 (next line) and U+00A0 (no-break space). *)
Definition isspace (a : ascii) : bool :=
  let n := N_of_ascii a in
  ((9 <=? n) && (n <=? 13) || (28 <=? n) && (n <=? 32)
   || (n =? 133) || (n =? 160))%N.

Fixpoint lstrip (s : string) : string :=
  match s with
  | String a s' => if isspace a then lstrip s' else s
  | EmptyString => EmptyString
  end.

Definition rstrip (s : string) : string := String.rev (lstrip (String.rev s)).

Definition strip (s : string) : string := rstrip (lstrip s).

(** [str.lower] of a character: the capitals A to Z, and the capitals
    U+00C0 to U+00DE without the multiplication sign U+00D7, lie 32 below
    their small letters. *)
Definition lower_ascii (a : ascii) : ascii :=
  let n := N_of_ascii a in
  if ((65 <=? n) && (n <=? 90)
      || (192 <=? n) && (n <=? 222) && negb (n =? 215))%N
  then ascii_of_N (n + 32) else a.

Fixpoint lower (s : string) : string :=
  match s with
  | String a s' => String (lower_ascii a) (lower s')
  | EmptyString => EmptyString
  end.

(** [df.rename(columns=f)]: only the labels change. *)
Definition rename (f : string → string) (raw : RawFrame) : RawFrame :=
  {| raw_columns := map f (raw_columns raw); raw_rows := raw_rows raw |}.

Definition box (x : option string) : value :=
  match x with Some s => Str s | None => NA end.

(** The raw frame seen as label-indexed rows. *)
Definition frame (raw : RawFrame) : DataFrame :=
  {| columns := raw_columns raw;
     rows := map (λ ic, (ic.1, list_to_map (zip (raw_columns raw) (box <$> ic.2))))
                 (raw_rows raw) |}.

(** ** Log records and exceptions *)

Inductive LogRecord :=
| StartingTransform
| DroppedBadRows (n : Z)
| TransformComplete (n : nat).

(** What stops [transform].  [ValueError_MissingColumns] is the [ValueError]
    of the check for the required columns.  [LabelsCollide] stands for a
    frame in which two labels are the same after normalisation: pandas then
    holds several columns under one label, [df[c]] is a frame and no series,
    and the later steps raise ([pd.to_datetime], [pd.to_numeric],
    [sort_values]) or carry both columns along.  A row of the model holds one
    cell for a label, so the model stops at such a frame and says nothing
    about it. *)
Inductive Exception :=
| ValueError_MissingColumns (missing : gset string)
| LabelsCollide.

(** ** [transform] *)

Definition required : gset string :=
  {[ "date"; "region"; "product"; "sales"; "quantity"; "profit" ]}.

Definition cols : list string :=
  [ "date"; "year"; "month"; "region"; "product";
    "quantity"; "unit_price"; "sales"; "profit"; "profit_margin" ].

Definition of_timestamp (o : option Timestamp) : value :=
  match o with Some t => Datetime t | None => NA end.

Definition of_number (o : option Q) : value :=
  match o with Some q => Num q | None => NA end.

(** [Series.dt.year], [Series.dt.month]. *)
Definition dt (field : Timestamp → Z) (v : value) : value :=
  match v with Datetime t => Num (inject_Z (field t)) | _ => NA end.

Section Transform.

(** [pd.to_datetime(series, errors="coerce")] on one cell of [series]:
    format inference may look at the whole column. *)
Variable to_datetime : list value → value → option Timestamp.

(** [pd.to_numeric(series, errors="coerce")] on one cell. *)
Variable to_numeric : value → option Q.

Definition standardize_column_names (raw : RawFrame) : RawFrame :=
  rename (λ c, lower (strip c)) raw.

Definition missing_columns (raw : RawFrame) : gset string :=
  required ∖ list_to_set (raw_columns raw).

Definition parse_date (df : DataFrame) : DataFrame :=
  let series := column "date" df in
  assign "date" (λ r, of_timestamp (to_datetime series (get r "date"))) df.

Definition coerce_numeric_columns (df : DataFrame) : DataFrame :=
  fold_left
    (λ df col, assign col (λ r, of_number (to_numeric (get r col))) df)
    ["sales"; "quantity"; "profit"] df.

Definition clean_values (df : DataFrame) : DataFrame :=
  let df :=
    assign "region"
      (λ r, replace "" "Unknown" (fillna (Str "Unknown") (get r "region"))) df in
  drop_duplicates df.

Definition drop_bad_rows (df : DataFrame) : DataFrame :=
  let df := dropna ["date"; "product"; "quantity"; "sales"; "profit"] df in
  loc (λ r, gt (get r "quantity") 0 && gt (get r "sales") 0) df.

Definition add_derived_fields (df : DataFrame) : DataFrame :=
  let df :=
    assign "unit_price"
      (λ r, round (truediv (get r "sales") (get r "quantity")) 2) df in
  let df :=
    assign "profit_margin"
      (λ r, round (truediv (get r "profit") (get r "sales")) 4) df in
  let df := assign "year" (λ r, dt year (get r "date")) df in
  assign "month" (λ r, dt month (get r "date")) df.

Definition order_columns (df : DataFrame) : DataFrame :=
  reset_index (sort_values ["date"; "region"; "product"] (getitem cols df)).

(** The frame on which the cleaning steps start. *)
Definition coerced (raw : RawFrame) : DataFrame :=
  coerce_numeric_columns (parse_date (frame (standardize_column_names raw))).

(** The frame that reaches the derivation step. *)
Definition sanitized (raw : RawFrame) : DataFrame :=
  drop_bad_rows (clean_values (coerced raw)).

Definition transform (raw : RawFrame)
  : list LogRecord * (Exception + DataFrame) :=
  let log0 := [StartingTransform] in
  let raw := standardize_column_names raw in
  let missing := missing_columns raw in
  if bool_decide (missing = ∅) then
    if bool_decide (NoDup (raw_columns raw)) then
      let df := coerce_numeric_columns (parse_date (frame raw)) in
      let df := clean_values df in
      let before := len df in
      let df := drop_bad_rows df in
      let after := len df in
      let log1 := log0 ++ [DroppedBadRows (Z.of_nat before - Z.of_nat after)] in
      let df := add_derived_fields df in
      let df := order_columns df in
      (log1 ++ [TransformComplete (len df)], inr df)
    else
      (log0, inl LabelsCollide)
  else
    (log0, inl (ValueError_MissingColumns missing)).

End Transform.

(** ** Concrete coercers used in the examples

    The fragment of [pd.to_numeric] and [pd.to_datetime] that the examples
    need: plain decimal literals and ISO [YYYY-MM-DD] dates. *)

Definition digit (a : ascii) : option Z :=
  let n := N_of_ascii a in
  if ((48 <=? n) && (n <=? 57))%N then Some (Z.of_N (n - 48)) else None.

(** Reads a run of digits: its value, its length and the rest of the text. *)
Fixpoint read_digits (s : string) (acc : Z) (n : nat) : Z * nat * string :=
  match s with
  | String a s' =>
      match digit a with
      | Some d => read_digits s' (10 * acc + d)%Z (S n)
      | None => (acc, n, s)
      end
  | EmptyString => (acc, n, s)
  end.

Definition parse_unsigned (s : string) : option Q :=
  let '(i, ni, rest) := read_digits s 0%Z 0%nat in
  match rest with
  | EmptyString => if (ni =? 0)%nat then None else Some (inject_Z i)
  | String "."%char rest' =>
      let '(f, nf, rest'') := read_digits rest' 0%Z 0%nat in
      match rest'' with
      | EmptyString =>
          if (ni + nf =? 0)%nat then None
          else Some (Qred (inject_Z i + inject_Z f / pow10 nf))
      | _ => None
      end
  | _ => None
  end.

Definition parse_decimal (s : string) : option Q :=
  match s with
  | String "-"%char s' => Qopp <$> parse_unsigned s'
  | String "+"%char s' => parse_unsigned s'
  | _ => parse_unsigned s
  end.

Definition is_leap (y : Z) : bool :=
  ((y mod 4 =? 0) && (negb (y mod 100 =? 0) || (y mod 400 =? 0)))%Z.

Definition days_in_month (y m : Z) : Z :=
  if (m =? 2)%Z then (if is_leap y then 29 else 28)%Z
  else if ((m =? 4) || (m =? 6) || (m =? 9) || (m =? 11))%Z then 30%Z
  else 31%Z.

Definition number (ds : list ascii) : option Z :=
  foldl (λ acc a, n ← acc; d ← digit a; Some (10 * n + d)%Z) (Some 0%Z) ds.

Definition parse_iso_date (s : string) : option Timestamp :=
  match s with
  | String y1 (String y2 (String y3 (String y4 (String "-"%char
      (String m1 (String m2 (String "-"%char
        (String d1 (String d2 EmptyString))))))))) =>
      y ← number [y1; y2; y3; y4];
      m ← number [m1; m2];
      d ← number [d1; d2];
      if ((1 <=? m) && (m <=? 12) && (1 <=? d) && (d <=? days_in_month y m))%Z
      then Some (mkTimestamp y m d 0)
      else None
  | _ => None
  end.

Definition to_datetime_iso (series : list value) (v : value) : option Timestamp :=
  match v with
  | Str s => parse_iso_date s
  | Datetime t => Some t
  | _ => None
  end.

(** The literal is read as the float64 nearest to it.  A literal beyond the
    range of float64 is not in the fragment. *)
Definition to_numeric_decimal (v : value) : option Q :=
  match v with
  | Str s =>
      match float64 <$> parse_decimal s with
      | Some (Num x) => Some x
      | _ => None
      end
  | Num q => Some q
  | _ => None
  end.

(** [transform] on a CSV export with ISO dates and decimal numbers. *)
Definition transform_csv : RawFrame → list LogRecord * (Exception + DataFrame) :=
  transform to_datetime_iso to_numeric_decimal.

(** A row-set with the six required columns, row labels 0, 1, ... *)
Definition sales_frame (rs : list (list (option string))) : RawFrame :=
  {| raw_columns := ["date"; "region"; "product"; "quantity"; "sales"; "profit"];
     raw_rows := zip (seq 0 (length rs)) rs |}.

(** The cells of a frame, row by row, in column order. *)
Definition to_records (df : DataFrame) : list (list value) :=
  map (λ ir, map (get ir.2) (columns df)) (rows df).

(** ** The report query [top_5_products_by_profit] of [main] *)

(** [df.to_sql(table, conn, if_exists="replace", index=False)]: the table
    holds the rows of the frame, without the index. *)
Definition to_sql (df : DataFrame) : list Row := map snd (rows df).

(** A REAL cell as a number; SUM skips NULL. *)
Definition as_real (v : value) : Q :=
  match v with Num q => q | _ => 0%Q end.

(** SQLite's [ROUND(x, n)]: half away from zero. *)
Definition sqlite_round (x : Q) (decimals : nat) : Q :=
  let n := inject_Z (Qfloor (Qabs x * pow10 decimals + (1 # 2))%Q) in
  Qred ((if Qle_bool 0 x then n else - n) / pow10 decimals)%Q.

Fixpoint add_to_group (k : value) (x : Q) (groups : list (value * Q))
    : list (value * Q) :=
  match groups with
  | [] => [(k, x)]
  | g :: groups' =>
      if value_eqb k g.1 then (g.1, (g.2 + x)%Q) :: groups'
      else g :: add_to_group k x groups'
  end.

(** [SELECT key, SUM(agg) ... GROUP BY key]; groups come in order of first
    appearance (SQL leaves the order of groups open). *)
Definition group_sum (key agg : string) (table : list Row) : list (value * Q) :=
  fold_left (λ groups r, add_to_group (get r key) (as_real (get r agg)) groups)
            table [].

Fixpoint insert_desc (x : value * Q) (l : list (value * Q)) : list (value * Q) :=
  match l with
  | [] => [x]
  | y :: l' => if Qle_bool y.2 x.2 then x :: l else y :: insert_desc x l'
  end.

(** [ORDER BY total DESC].  Groups with the same total stay in the order in
    which [group_sum] lists them; SQL leaves their order open, and SQLite
    lists them by group key. *)
Definition order_by_desc (l : list (value * Q)) : list (value * Q) :=
  foldr insert_desc [] l.

Definition top_5_products_by_profit (table : list Row) : list (value * Q) :=
  take 5
    (order_by_desc
       (map (λ g, (g.1, sqlite_round g.2 2)) (group_sum "product" "profit" table))).

(** [SUM(agg)] over the rows of the group of [k]. *)
Definition sum_where (key agg : string) (k : value) (table : list Row) : Q :=
  fold_right Qplus 0%Q
    (map (λ r, as_real (get r agg))
         (List.filter (λ r, value_eqb (get r key) k) table)).

(** ** The sanitizer as the specification words it

    Four steps, each stated on its own, to be compared with the code's
    [clean_values] followed by [drop_bad_rows]. *)

(** Step 1: a missing or empty region becomes ["Unknown"]. *)
Definition spec_fill_region (df : DataFrame) : DataFrame :=
  {| columns := if bool_decide ("region" ∈ columns df) then columns df
                else columns df ++ ["region"];
     rows :=
       map (λ ir,
              match get ir.2 "region" with
              | NA | Str "" => (ir.1, <["region" := Str "Unknown"]> ir.2)
              | v => (ir.1, <["region" := v]> ir.2)
              end) (rows df) |}.

(** Step 2: a row goes when some earlier row of the row-set agrees with it on
    every column; the others stay, in their order. *)
Fixpoint spec_first_occurrences (cs : list string) (earlier : list Row)
    (rs : list (nat * Row)) : list (nat * Row) :=
  match rs with
  | [] => []
  | ir :: rs' =>
      let rest := spec_first_occurrences cs (earlier ++ [ir.2]) rs' in
      if existsb (row_eqb cs ir.2) earlier then rest else ir :: rest
  end.

Definition spec_remove_duplicates (df : DataFrame) : DataFrame :=
  {| columns := columns df;
     rows := spec_first_occurrences (columns df) [] (rows df) |}.

(** Step 3: a row goes when one of the five fields is missing. *)
Definition spec_remove_incomplete (df : DataFrame) : DataFrame :=
  {| columns := columns df;
     rows :=
       List.filter
         (λ ir, negb (isna (get ir.2 "date") || isna (get ir.2 "product")
                      || isna (get ir.2 "quantity") || isna (get ir.2 "sales")
                      || isna (get ir.2 "profit")))
         (rows df) |}.

(** [v <= 0] on a numeric cell. *)
Definition le0 (v : value) : bool :=
  match v with
  | Num q => Qle_bool q 0
  | Inf negative => negative
  | _ => false
  end.

(** Step 4: a row goes when [quantity <= 0] or [sales <= 0]. *)
Definition spec_remove_nonpositive (df : DataFrame) : DataFrame :=
  {| columns := columns df;
     rows :=
       List.filter
         (λ ir, negb (le0 (get ir.2 "quantity") || le0 (get ir.2 "sales")))
         (rows df) |}.

Definition spec_sanitize (df : DataFrame) : DataFrame :=
  spec_remove_nonpositive
    (spec_remove_incomplete (spec_remove_duplicates (spec_fill_region df))).


(** ** Vocabulary of the statements *)

(** A number above 0: a positive finite number, or plus infinity. *)
Definition positive (v : value) : Prop :=
  match v with
  | Num q => (0 < q)%Q
  | Inf negative => negative = false
  | _ => False
  end.

(** A number that is 0 or below. *)
Definition nonpositive (v : value) : Prop :=
  match v with
  | Num q => (q <= 0)%Q
  | Inf negative => negative = true
  | _ => False
  end.

(** A number below 0. *)
Definition negative (v : value) : Prop :=
  match v with
  | Num q => (q < 0)%Q
  | Inf negative => negative = true
  | _ => False
  end.

(** The number 0. *)
Definition zero (v : value) : Prop :=
  match v with
  | Num q => (q == 0)%Q
  | _ => False
  end.

(** Chronological order: [s] is before [t]. *)
Definition earlier (s t : Timestamp) : Prop :=
  (year s < year t)%Z
  ∨ (year s = year t ∧ (month s < month t)%Z)
  ∨ (year s = year t ∧ month s = month t ∧ (day s < day t)%Z)
  ∨ (year s = year t ∧ month s = month t ∧ day s = day t
     ∧ (nanosecond_of_day s < nanosecond_of_day t)%Z).

(** Lexicographic order of two texts by code point, the order of Python's
    [str]: a proper prefix comes first; otherwise the first place at which
    the texts differ decides. *)
Inductive lex_lt : string → string → Prop :=
| lex_lt_prefix a t : lex_lt "" (String a t)
| lex_lt_head a b s t :
    (N_of_ascii a < N_of_ascii b)%N → lex_lt (String a s) (String b t)
| lex_lt_tail a s t : lex_lt s t → lex_lt (String a s) (String a t).

(** A sort key: the date, the region and the product of a row. *)
Definition Key : Type := Timestamp * string * string.

(** [k] is the key of the row [r]. *)
Definition has_key (r : Row) (k : Key) : Prop :=
  get r "date" = Datetime k.1.1 ∧ get r "region" = Str k.1.2
  ∧ get r "product" = Str k.2.

(** The order of the keys: by date, then by region, then by product. *)
Definition key_lt (k k' : Key) : Prop :=
  earlier k.1.1 k'.1.1
  ∨ (k.1.1 = k'.1.1 ∧ lex_lt k.1.2 k'.1.2)
  ∨ (k.1.1 = k'.1.1 ∧ k.1.2 = k'.1.2 ∧ lex_lt k.2 k'.2).

(** The row [a] may stand before the row [b] in ascending order of the key:
    its key is smaller or the same. *)
Definition in_order (a b : Row) : Prop :=
  ∃ k k', has_key a k ∧ has_key b k' ∧ (key_lt k k' ∨ k = k').

(** The row that holds the key [k] and nothing else. *)
Definition key_row (k : Key) : Row :=
  {[ "date" := Datetime k.1.1; "region" := Str k.1.2; "product" := Str k.2 ]}.

(** The test for the rows with the key [k]. *)
Definition keyed (k : Key) (r : Row) : bool :=
  match get r "date", get r "region", get r "product" with
  | Datetime t, Str g, Str p =>
      bool_decide (t = k.1.1) && String.eqb g k.1.2 && String.eqb p k.2
  | _, _, _ => false
  end.

(** [a] may stand before [b] in a frame sorted on the [by_] columns. *)
Definition sorted_before (by_ : list string) (a b : Row) : Prop :=
  rows_compare by_ a b ≠ Gt.

(** [r] is fully tied with [k] on the [by_] columns. *)
Definition tied (by_ : list string) (k r : Row) : bool :=
  match rows_compare by_ k r with Eq => true | _ => false end.

(** The sort key of [transform]. *)
Definition sort_key : list string := ["date"; "region"; "product"].

(** A text that is not empty and holds white space only. *)
Fixpoint all_space (s : string) : bool :=
  match s with
  | String a s' => isspace a && all_space s'
  | EmptyString => true
  end.

Definition whitespace_only (s : string) : Prop :=
  s ≠ "" ∧ all_space s = true.

(** ** Sample inputs *)

(** The frame [transform_csv] returns, or the empty frame when it raises. *)
Definition returned (raw : RawFrame) : DataFrame :=
  match (transform_csv raw).2 with
  | inr df => df
  | inl _ => mkDataFrame [] []
  end.

Definition sanitized_csv : RawFrame → DataFrame :=
  sanitized to_datetime_iso to_numeric_decimal.

Definition gadget_row : list (option string) :=
  [Some "2024-02-01"; Some ""; Some "Gadget"; Some "5"; Some "50"; Some "-5"].

Definition widget_row : list (option string) :=
  [Some "2024-01-05"; Some "East"; Some "Widget"; Some "10"; Some "100"; Some "20"].

Definition zero_quantity_row : list (option string) :=
  [Some "2024-03-01"; Some "West"; Some "Gizmo"; Some "0"; Some "30"; Some "3"].

Definition gadget_frame : RawFrame := sales_frame [gadget_row].

(** Two identical rows. *)
Definition duplicate_frame : RawFrame := sales_frame [widget_row; widget_row].

Definition mixed_frame : RawFrame :=
  sales_frame [gadget_row; zero_quantity_row; widget_row; widget_row].

(** An extra source column, [note], on which alone the two rows differ. *)
Definition notes_frame : RawFrame :=
  {| raw_columns :=
       ["date"; "region"; "product"; "quantity"; "sales"; "profit"; "note"];
     raw_rows := [ (0%nat, widget_row ++ [Some "first"]);
                   (1%nat, widget_row ++ [Some "second"]) ] |}.

(** Two rows on which float64 arithmetic shows: 0.575 and 0.00015 are not
    float64 numbers, and the float64 numbers nearest to them lie below
    them. *)
Definition rounding_frame : RawFrame :=
  sales_frame
    [ [Some "2024-01-05"; Some "East"; Some "Widget"; Some "1"; Some "0.575";
       Some "0.1"];
      [Some "2024-01-06"; Some "East"; Some "Gadget"; Some "3"; Some "1";
       Some "0.00015"] ].

(** Rows out of order, two of them with the same key and different
    quantities. *)
Definition unordered_frame : RawFrame :=
  sales_frame
    [ [Some "2024-02-01"; Some "East"; Some "Gadget"; Some "3"; Some "30";
       Some "3"];
      [Some "2024-01-05"; Some "West"; Some "Widget"; Some "5"; Some "50";
       Some "5"];
      [Some "2024-01-05"; Some "East"; Some "Widget"; Some "2"; Some "20";
       Some "2"];
      [Some "2024-01-05"; Some "West"; Some "Gadget"; Some "4"; Some "40";
       Some "4"];
      [Some "2024-01-05"; Some "East"; Some "Widget"; Some "1"; Some "10";
       Some "1"] ].

(** Labels with capitals and with white space around them (a blank, a tab,
    a line feed, the no-break space U+00A0), over a row that parses and a
    row whose date and quantity do not. *)
Definition padded_frame : RawFrame :=
  {| raw_columns :=
       [ " Date"; "REGION "; String "160" "Product"; String "009" "Sales";
         "Quantity"; "PROFIT" +:+ String "010" "" ];
     raw_rows :=
       [ (0%nat, [Some "2024-01-05"; Some "East"; Some "Widget"; Some "100";
                  Some "10"; Some "20"]);
         (1%nat, [Some "not-a-date"; Some "East"; Some "Widget"; Some "100";
                  Some "ten"; Some "20"]) ] |}.

(** A region that is a single blank. *)
Definition blank_region_frame : RawFrame :=
  sales_frame
    [[Some "2024-02-01"; Some " "; Some "Gadget"; Some "5"; Some "50"; Some "-5"]].

Definition product_row (product profit : string) : list (option string) :=
  [Some "2024-01-05"; Some "East"; Some product; Some "1"; Some "10"; Some profit].


(** Six products with six different totals. *)
Definition six_products : RawFrame :=
  sales_frame
    [ product_row "A" "9"; product_row "B" "8"; product_row "C" "7";
      product_row "D" "5"; product_row "E" "3"; product_row "F" "1" ].

(** ** Vocabulary of the report *)

(** The representative of a cell among the cells [value_eqb] equates. *)
Definition canon (v : value) : value :=
  match v with Num q => Num (Qred q) | _ => v end.

(** The total recorded for the group of [k], 0 when there is none. *)
Definition total_of (k : value) (groups : list (value * Q)) : Q :=
  match find (λ g, value_eqb k g.1) groups with
  | Some g => g.2
  | None => 0%Q
  end.


(** Totals in non-increasing order. *)
Definition descending (a b : value * Q) : Prop := (b.2 <= a.2)%Q.

(** The first row of a frame. *)
Definition first_row (df : DataFrame) : nat * Row := hd (0%nat, ∅) (rows df).

Definition coerced_csv : RawFrame → DataFrame :=
  coerced to_datetime_iso to_numeric_decimal.




(** Two frames with the same columns and the same rows, index labels aside. *)
Definition same_data (df df' : DataFrame) : Prop :=
  columns df = columns df' ∧ map snd (rows df) = map snd (rows df').

(** ** The report query [total_sales_by_region] of [main] *)

Definition total_sales_by_region (table : list Row) : list (value * Q) :=
  order_by_desc
    (map (λ g, (g.1, sqlite_round g.2 2)) (group_sum "region" "sales" table)).


(** ** Grouping on several columns, with any aggregate *)

Fixpoint keys_eqb (a b : list value) : bool :=
  match a, b with
  | [], [] => true
  | x :: a', y :: b' => value_eqb x y && keys_eqb a' b'
  | _, _ => false
  end.

Section GroupBy.

Context {A : Type}.

(** The grouping columns, the aggregate of no row, and the aggregate of a
    group with one more row. *)
Variable by_ : list string.
Variable init : A.
Variable step : A → Row → A.

Definition key_of (r : Row) : list value := map (get r) by_.

Fixpoint add_row (r : Row) (groups : list (list value * A))
    : list (list value * A) :=
  match groups with
  | [] => [(key_of r, step init r)]
  | g :: groups' =>
      if keys_eqb (key_of r) g.1 then (g.1, step g.2 r) :: groups'
      else g :: add_row r groups'
  end.

(** [SELECT by_, aggregate ... GROUP BY by_]; groups in order of first
    appearance. *)
Definition group_by (table : list Row) : list (list value * A) :=
  fold_left (λ groups r, add_row r groups) table [].


End GroupBy.

(** Lexicographic comparison of two keys. *)
Fixpoint keys_compare (a b : list value) : comparison :=
  match a, b with
  | [], [] => Eq
  | [], _ :: _ => Lt
  | _ :: _, [] => Gt
  | x :: a', y :: b' =>
      match value_compare x y with
      | Eq => keys_compare a' b'
      | o => o
      end
  end.

Fixpoint insert_asc {A} (x : list value * A) (l : list (list value * A))
    : list (list value * A) :=
  match l with
  | [] => [x]
  | y :: l' =>
      match keys_compare x.1 y.1 with
      | Gt => y :: insert_asc x l'
      | _ => x :: l
      end
  end.

(** [ORDER BY] the grouping columns, ascending. *)
Definition order_by_key {A} (l : list (list value * A)) : list (list value * A) :=
  foldr insert_asc [] l.

(** ** The report query [monthly_sales_summary] of [main] *)

(** The running [SUM(column)]: NULL cells are skipped, and the sum of no
    number is NULL. *)
Definition sum_step (column : string) (acc : option Q) (r : Row) : option Q :=
  match get r column with
  | NA => acc
  | v => Some (default 0%Q acc + as_real v)%Q
  end.

(** [ROUND(x, 2)], NULL for NULL. *)
Definition round_2 (x : option Q) : option Q := (λ q, sqlite_round q 2) <$> x.

Definition monthly_sales_summary (table : list Row)
    : list (list value * option Q) :=
  order_by_key
    (map (λ g, (g.1, round_2 g.2))
         (group_by ["year"; "month"] None (sum_step "sales") table)).

(** ** The report query [average_profit_margin_per_product] of [main] *)

(** The running sum and count of [AVG(profit_margin * 100)]; NULL cells are
    skipped. *)
Definition avg_step (acc : Q * Z) (r : Row) : Q * Z :=
  match get r "profit_margin" with
  | NA => acc
  | v => ((acc.1 + as_real v * 100)%Q, (acc.2 + 1)%Z)
  end.

(** [ROUND(AVG(...), 2)]; NULL when the group has no number. *)
Definition avg_result (acc : Q * Z) : option Q :=
  if (acc.2 =? 0)%Z then None
  else Some (sqlite_round (acc.1 / inject_Z acc.2) 2).

(** [a] may stand before [b] under [ORDER BY ... DESC]; NULL sorts last. *)
Definition desc_leb (b a : option Q) : bool :=
  match b, a with
  | None, _ => true
  | Some _, None => false
  | Some y, Some x => Qle_bool y x
  end.

Fixpoint insert_desc_opt (x : list value * option Q)
    (l : list (list value * option Q)) : list (list value * option Q) :=
  match l with
  | [] => [x]
  | y :: l' => if desc_leb y.2 x.2 then x :: l else y :: insert_desc_opt x l'
  end.

Definition average_profit_margin_per_product (table : list Row)
    : list (list value * option Q) :=
  foldr insert_desc_opt []
    (map (λ g, (g.1, avg_result g.2))
         (group_by ["product"] (0%Q, 0%Z) avg_step table)).




(** ** The store: [load_to_sqlite]

    The SQLite file at [DB_PATH] is modelled by its tables and its indexes; an
    index is known by its name and belongs to a column of a table.  Three
    rules of SQLite are used: dropping a table deletes its indexes;
    [CREATE INDEX IF NOT EXISTS] does nothing when an index of that name
    exists; creating an index on a column the table does not have fails.
    Statements take effect as they are executed.  The directory tree
    ([mkdir]) and the console output ([print]) are not modelled. *)

Record Table := mkTable {
  table_columns : list string;
  table_rows : list Row
}.

Record Database := mkDatabase {
  tables : gmap string Table;
  indexes : gmap string (string * string)
}.

Inductive MainLogRecord :=
| ReadingRawCsv
| FromTransform (r : LogRecord)
| LoadingIntoSqlite (table : string)
| LoadComplete
| EtlFinished
| DatabaseAt
| TableRows (table : string) (n : nat)
| RunningExampleQueries
| SavedQueryResult (name : string).

(** What stops [main]: the file is not there; [pd.read_csv] raises on the
    file; [transform] raises; SQLite refuses a statement. *)
Inductive MainException :=
| FileNotFoundError
| ReadCsvError
| TransformError (e : Exception)
| OperationalError (statement : string).

Definition TABLE_NAME : string := "sales_clean".

(** [DROP TABLE IF EXISTS name]. *)
Definition drop_table (name : string) (db : Database) : Database :=
  {| tables := delete name (tables db);
     indexes := filter (λ kv, kv.2.1 ≠ name) (indexes db) |}.

(** [df.to_sql(table, conn, if_exists="replace", index=False)], when SQLite
    can hold every cell of the frame. *)
Definition to_sql_replace (df : DataFrame) (name : string) (db : Database)
    : Database :=
  let db := drop_table name db in
  {| tables := <[name := mkTable (columns df) (to_sql df)]> (tables db);
     indexes := indexes db |}.

(** The names that SQLite reads as one identifier when they stand unquoted
    in a statement: a letter, an underscore or a character above 127, then
    letters, digits, underscores, dollar signs and characters above 127.
    (The reserved words of SQL, which are refused as well, are not told
    apart.) *)
Definition identifier_start (a : ascii) : bool :=
  let n := N_of_ascii a in
  ((65 <=? n) && (n <=? 90) || (97 <=? n) && (n <=? 122) || (n =? 95)
   || (128 <=? n))%N.

Definition identifier_char (a : ascii) : bool :=
  let n := N_of_ascii a in
  (identifier_start a || (48 <=? n) && (n <=? 57) || (n =? 36))%N.

Fixpoint identifier_chars (s : string) : bool :=
  match s with
  | String a s' => identifier_char a && identifier_chars s'
  | EmptyString => true
  end.

Definition identifier (s : string) : bool :=
  match s with
  | String a s' => identifier_start a && identifier_chars s'
  | EmptyString => false
  end.

(** [CREATE INDEX IF NOT EXISTS idx ON table(column)], with [idx] and
    [table] spliced into the text of the statement as they are: the
    statement does not parse unless both are identifiers. *)
Definition create_index_if_not_exists (idx table column : string)
    (db : Database) : MainException + Database :=
  if negb (identifier idx && identifier table) then inl (OperationalError idx)
  else
    match tables db !! table with
    | None => inl (OperationalError idx)
    | Some t =>
        if bool_decide (idx ∈ dom (indexes db)) then inr db
        else if bool_decide (column ∈ table_columns t) then
          inr {| tables := tables db;
                 indexes := <[idx := (table, column)]> (indexes db) |}
        else inl (OperationalError idx)
    end.

(** The name [idx_{table}_{column}]. *)
Definition index_name (table column : string) : string :=
  "idx_" ++ table ++ "_" ++ column.

(** [load_to_sqlite(df, db_path, table)] on the store at [db_path]: the log,
    the store it leaves, and the error if a statement failed. *)
Definition load_to_sqlite (df : DataFrame) (table : string) (db : Database)
    : list MainLogRecord * Database * option MainException :=
  let log0 := [LoadingIntoSqlite table] in
  let db := to_sql_replace df table db in
  match create_index_if_not_exists (index_name table "date") table "date" db with
  | inl e => (log0, db, Some e)
  | inr db =>
      match create_index_if_not_exists (index_name table "region") table "region" db with
      | inl e => (log0, db, Some e)
      | inr db =>
          match create_index_if_not_exists (index_name table "product") table "product" db with
          | inl e => (log0, db, Some e)
          | inr db => (log0 ++ [LoadComplete], db, None)
          end
      end
  end.

(** ** The reports: the query loop of [main] *)

(** A query result, as it is written to its CSV file. *)
Record Report := mkReport {
  report_columns : list string;
  report_rows : list (list value)
}.

Definition queries : list (string * (list Row → Report)) :=
  [ ("total_sales_by_region",
     λ t, mkReport ["region"; "total_sales"]
            (map (λ g, [g.1; Num g.2]) (total_sales_by_region t)));
    ("top_5_products_by_profit",
     λ t, mkReport ["product"; "total_profit"]
            (map (λ g, [g.1; Num g.2]) (top_5_products_by_profit t)));
    ("monthly_sales_summary",
     λ t, mkReport ["year"; "month"; "total_sales"]
            (map (λ g, g.1 ++ [of_number g.2]) (monthly_sales_summary t)));
    ("average_profit_margin_per_product",
     λ t, mkReport ["product"; "avg_profit_margin_percent"]
            (map (λ g, g.1 ++ [of_number g.2])
                 (average_profit_margin_per_product t))) ].

(** The file at [RAW_CSV] as [pd.read_csv] takes it: it reads a frame from
    it, or it raises (on an empty file, for one). *)
Inductive CsvFile :=
| Parsed (raw : RawFrame)
| Unreadable.

(** What [main] works on: the raw CSV file if it exists; the store; the
    report files by the name of their query. *)
Record World := mkWorld {
  raw_csv : option CsvFile;
  warehouse : Database;
  report_files : gmap string Report
}.

(** [pd.read_sql_query] then [to_csv] for every query, in the order of the
    dictionary. *)
Fixpoint run_queries (qs : list (string * (list Row → Report))) (w : World)
    : list MainLogRecord * World * option MainException :=
  match qs with
  | [] => ([], w, None)
  | (name, query) :: qs' =>
      match tables (warehouse w) !! TABLE_NAME with
      | None => ([], w, Some (OperationalError name))
      | Some t =>
          let w' := {| raw_csv := raw_csv w;
                       warehouse := warehouse w;
                       report_files :=
                         <[name := query (table_rows t)]> (report_files w) |} in
          let '(log, w'', e) := run_queries qs' w' in
          (SavedQueryResult name :: log, w'', e)
      end
  end.

Section Main.

Variable to_datetime : list value → value → option Timestamp.
Variable to_numeric : value → option Q.

(** [extract_csv(RAW_CSV)]. *)
Definition extract_csv (w : World) : list MainLogRecord * (MainException + RawFrame) :=
  match raw_csv w with
  | None => ([], inl FileNotFoundError)
  | Some Unreadable => ([ReadingRawCsv], inl ReadCsvError)
  | Some (Parsed raw) => ([ReadingRawCsv], inr raw)
  end.

(** [main()]: the log, the world it leaves, and the exception if it raised. *)
Definition main (w : World) : list MainLogRecord * World * option MainException :=
  match extract_csv w with
  | (log0, inl e) => (log0, w, Some e)
  | (log0, inr df_raw) =>
      match transform to_datetime to_numeric df_raw with
      | (tlog, inl e) =>
          (log0 ++ map FromTransform tlog, w, Some (TransformError e))
      | (tlog, inr df_clean) =>
          let log1 := log0 ++ map FromTransform tlog in
          let '(llog, db, e) := load_to_sqlite df_clean TABLE_NAME (warehouse w) in
          let w1 := {| raw_csv := raw_csv w; warehouse := db;
                       report_files := report_files w |} in
          match e with
          | Some e => (log1 ++ llog, w1, Some e)
          | None =>
              let log2 :=
                log1 ++ llog
                ++ [EtlFinished; DatabaseAt; TableRows TABLE_NAME (len df_clean);
                    RunningExampleQueries] in
              let '(qlog, w2, e) := run_queries queries w1 in
              (log2 ++ qlog, w2, e)
          end
      end
  end.

End Main.

Definition main_csv : World → list MainLogRecord * World * option MainException :=
  main to_datetime_iso to_numeric_decimal.

(** ** Vocabulary of the store *)

(** The indexes after [CREATE INDEX IF NOT EXISTS idx ON table(column)]. *)
Definition add_index (idx table column : string)
    (ix : gmap string (string * string)) : gmap string (string * string) :=
  if bool_decide (idx ∈ dom ix) then ix else <[idx := (table, column)]> ix.

(** The store after a successful [load_to_sqlite(df, _, table)]. *)
Definition loaded (df : DataFrame) (table : string) (db : Database) : Database :=
  {| tables := <[table := mkTable (columns df) (to_sql df)]> (tables db);
     indexes :=
       add_index (index_name table "product") table "product"
         (add_index (index_name table "region") table "region"
            (add_index (index_name table "date") table "date"
               (filter (λ kv, kv.2.1 ≠ table) (indexes db)))) |}.

(** The report files after the query loop has run on [table]. *)
Definition with_reports (table : list Row) (files : gmap string Report)
    : gmap string Report :=
  foldl (λ fs nq, <[nq.1 := nq.2 table]> fs) files queries.

(** A world with the raw CSV file and an empty store. *)
Definition fresh_world (raw : RawFrame) : World :=
  {| raw_csv := Some (Parsed raw); warehouse := mkDatabase ∅ ∅;
     report_files := ∅ |}.

(** ** Vocabulary of the normalisation *)

(** Trailing white space removed, by recursion on the text. *)
Fixpoint without_trailing_space (s : string) : string :=
  match s with
  | String a s' =>
      if all_space s then EmptyString else String a (without_trailing_space s')
  | EmptyString => EmptyString
  end.

Definition no_leading_space (s : string) : Prop :=
  match s with
  | String a _ => isspace a = false
  | EmptyString => True
  end.

(** A small letter of the ASCII alphabet. *)
Definition small_letter (a : ascii) : bool :=
  ((97 <=? N_of_ascii a) && (N_of_ascii a <=? 122))%N.

Fixpoint small_letters (c : string) : bool :=
  match c with
  | String a c' => small_letter a && small_letters c'
  | EmptyString => true
  end.

(** [spells c s]: the text [s] is the name [c] letter for letter, every
    letter either as it stands in [c] or, for a small letter of [c], as its
    capital, which lies 32 below it. *)
Inductive spells : string → string → Prop :=
| spells_nil : spells "" ""
| spells_small a c s : spells c s → spells (String a c) (String a s)
| spells_capital a b c s :
    small_letter a = true → (N_of_ascii b + 32 = N_of_ascii a)%N →
    spells c s → spells (String a c) (String b s).

(** The code points that Python 3 counts as white space, among those up to
    255: tab, line feed, vertical tab, form feed, carriage return, the four
    separators 28 to 31, the blank, next line (U+0085) and the no-break
    space (U+00A0). *)
Definition white_space : list N :=
  [9; 10; 11; 12; 13; 28; 29; 30; 31; 32; 133; 160]%N.

(** A text of white space only; the empty text is one. *)
Fixpoint blank (s : string) : Prop :=
  match s with
  | String a s' => In (N_of_ascii a) white_space ∧ blank s'
  | EmptyString => True
  end.

(** [names label c]: the label is the name [c] in letters of either case,
    with nothing but white space before it and after it. *)
Definition names (label c : string) : Prop :=
  ∃ pre body post,
    label = pre +:+ body +:+ post ∧ blank pre ∧ blank post ∧ spells c body.

(** The column [c] is among the labels of [raw]. *)
Definition present (raw : RawFrame) (c : string) : Prop :=
  ∃ label, label ∈ raw_columns raw ∧ names label c.

(** A text without white space in it. *)
Fixpoint no_space (s : string) : bool :=
  match s with
  | String a s' => negb (isspace a) && no_space s'
  | EmptyString => true
  end.

(** The input of [main_csv] relabelled: same rows, other index labels. *)
Definition relabelled (raw : RawFrame) : RawFrame :=
  {| raw_columns := raw_columns raw;
     raw_rows := map (λ ic, ((10 * ic.1 + 7)%nat, ic.2)) (raw_rows raw) |}.

(** ** Sample values for the further properties *)

Definition mixed_out : DataFrame := returned mixed_frame.

Definition mixed_log : list LogRecord := (transform_csv mixed_frame).1.

Definition mixed_first : nat * Row := first_row mixed_out.

Definition mixed_cleaned : DataFrame :=
  drop_bad_rows (clean_values (coerced_csv mixed_frame)).

(** The row at position [i], or an empty row. *)
Definition row_at (i : nat) (df : DataFrame) : nat * Row :=
  nth i (rows df) (0%nat, ∅).

Definition six_totals : list (value * Q) :=
  map (λ g, (g.1, sqlite_round g.2 2))
      (group_sum "product" "profit" (to_sql (returned six_products))).

Definition empty_store : Database := mkDatabase ∅ ∅.


(** A store that holds an older [sales_clean] with an index of its own, and
    another table with an index. *)
Definition stale_store : Database :=
  {| tables :=
       {[ "sales_clean" := mkTable ["date"; "amount"] [];
          "customers" := mkTable ["name"] [] ]};
     indexes :=
       {[ "idx_old" := ("sales_clean", "amount");
          "idx_customers_name" := ("customers", "name") ]} |}.

(** A CSV file without the column [profit], beside the stale store. *)
Definition no_profit_frame : RawFrame :=
  {| raw_columns := ["date"; "region"; "product"; "quantity"; "sales"];
     raw_rows :=
       [ (0%nat, [Some "2024-01-05"; Some "East"; Some "Widget"; Some "10";
                  Some "100"]) ] |}.



Definition mixed_world_after : World := (main_csv (fresh_world mixed_frame)).1.2.

Definition mixed_main_log : list MainLogRecord :=
  (main_csv (fresh_world mixed_frame)).1.1.
(** * Properties *)

(** ** Cells and rows *)

Lemma get_insert_eq (r : Row) c v : get (<[c := v]> r) c = v.
Proof. unfold get. by rewrite lookup_insert_eq. Qed.

Lemma get_insert_ne (r : Row) c c' v : c ≠ c' → get (<[c := v]> r) c' = get r c'.
Proof. intros Hne. unfold get. by rewrite lookup_insert_ne. Qed.

Lemma get_select (r : Row) cs c :
  get (list_to_map ((λ c, (c, get r c)) <$> cs)) c
  = if bool_decide (c ∈ cs) then get r c else NA.
Proof.
  induction cs as [|c0 cs IH]; csimpl.
  - reflexivity.
  - destruct (decide (c0 = c)) as [->|Hne].
    + rewrite get_insert_eq. rewrite bool_decide_eq_true_2; [done | left].
    + rewrite get_insert_ne by done. rewrite IH.
      destruct (decide (c ∈ cs)) as [Hin|Hnin].
      * rewrite !bool_decide_eq_true_2; [done | by right | done].
      * rewrite !bool_decide_eq_false_2; [done | | done].
        intros [?|?]%elem_of_cons; congruence.
Qed.

Lemma get_select_elem (r : Row) cs c :
  c ∈ cs → get (list_to_map ((λ c, (c, get r c)) <$> cs)) c = get r c.
Proof. intros Hc. by rewrite get_select, bool_decide_eq_true_2. Qed.

Lemma value_eqb_refl v : value_eqb v v = true.
Proof.
  destruct v as [|s|q|b|t]; simpl; try done.
  - apply String.eqb_refl.
  - apply Qeq_bool_iff. reflexivity.
  - by destruct b.
  - by apply bool_decide_eq_true_2.
Qed.

Lemma value_eqb_sym a b : value_eqb a b = value_eqb b a.
Proof.
  destruct a as [|s|p|x|s], b as [|t|q|y|t]; simpl; try done.
  - apply String.eqb_sym.
  - apply eq_true_iff_eq. rewrite !Qeq_bool_iff. split; intros H; by symmetry.
  - by destruct x, y.
  - apply bool_decide_ext. split; congruence.
Qed.

Lemma value_eqb_trans a b c :
  value_eqb a b = true → value_eqb b c = true → value_eqb a c = true.
Proof.
  destruct a as [|s|p|x|s], b as [|t|q|y|t], c as [|u|r|z|u]; simpl; try done.
  - rewrite !String.eqb_eq. congruence.
  - rewrite !Qeq_bool_iff. intros H1 H2. by rewrite H1.
  - destruct x, y, z; done.
  - rewrite !bool_decide_eq_true. congruence.
Qed.

Lemma row_eqb_sym cs r1 r2 : row_eqb cs r1 r2 = row_eqb cs r2 r1.
Proof.
  unfold row_eqb. induction cs as [|c cs IH]; simpl; [done|].
  by rewrite IH, value_eqb_sym.
Qed.

Lemma row_eqb_trans cs r1 r2 r3 :
  row_eqb cs r1 r2 = true → row_eqb cs r2 r3 = true → row_eqb cs r1 r3 = true.
Proof.
  unfold row_eqb. rewrite !forallb_forall. intros H1 H2 c Hc.
  eapply value_eqb_trans; [by apply H1 | by apply H2].
Qed.

(** ** The order on cells *)

Lemma Timestamp_compare_antisym s t :
  Timestamp_compare t s = CompOpp (Timestamp_compare s t).
Proof.
  unfold Timestamp_compare.
  rewrite (Z.compare_antisym (year s)), (Z.compare_antisym (month s)),
    (Z.compare_antisym (day s)),
    (Z.compare_antisym (nanosecond_of_day s)).
  destruct (year s ?= year t)%Z; simpl; try done.
  destruct (month s ?= month t)%Z; simpl; try done.
  destruct (day s ?= day t)%Z; simpl; done.
Qed.

Lemma Timestamp_compare_eq s t : Timestamp_compare s t = Eq → s = t.
Proof.
  unfold Timestamp_compare. destruct s as [y1 m1 d1 n1], t as [y2 m2 d2 n2]; simpl.
  destruct (y1 ?= y2)%Z eqn:Hy; try done.
  destruct (m1 ?= m2)%Z eqn:Hm; try done.
  destruct (d1 ?= d2)%Z eqn:Hd; try done.
  intros Hn. apply Z.compare_eq in Hy, Hm, Hd, Hn. congruence.
Qed.

Lemma value_compare_antisym a b :
  value_compare b a = CompOpp (value_compare a b).
Proof.
  destruct a as [|s|p|x|s], b as [|t|q|y|t]; simpl; try done.
  - apply String.compare_antisym.
  - symmetry. apply Qcompare_antisym.
  - by destruct y.
  - by destruct x.
  - by destruct x, y.
  - apply Timestamp_compare_antisym.
Qed.

Lemma value_compare_tied k a b :
  value_compare k a = Eq → value_compare k b = Eq → value_compare a b = Eq.
Proof.
  destruct k as [|u|r|z|u], a as [|s|p|x|s], b as [|t|q|y|t]; simpl; try done;
    try (by repeat match goal with x : bool |- _ => destruct x end).
  - intros ->%String.compare_eq_iff ->%String.compare_eq_iff.
    pose proof (String.compare_antisym t t) as H.
    destruct (String.compare t t); done.
  - rewrite <- !Qeq_alt. intros H1 H2. by rewrite <- H1, <- H2.
  - intros <-%Timestamp_compare_eq <-%Timestamp_compare_eq.
    pose proof (Timestamp_compare_antisym u u) as H.
    destruct (Timestamp_compare u u); done.
Qed.

Lemma rows_compare_total by_ r1 r2 :
  rows_compare by_ r1 r2 = Gt → rows_compare by_ r2 r1 = Lt.
Proof.
  induction by_ as [|c by_ IH]; simpl; [done|].
  rewrite (value_compare_antisym (get r1 c) (get r2 c)).
  destruct (value_compare (get r1 c) (get r2 c)); simpl; auto; done.
Qed.

Lemma rows_compare_tied by_ k r1 r2 :
  rows_compare by_ k r1 = Eq → rows_compare by_ k r2 = Eq →
  rows_compare by_ r1 r2 = Eq.
Proof.
  induction by_ as [|c by_ IH]; simpl; [done|].
  destruct (value_compare (get k c) (get r1 c)) eqn:H1; try done.
  destruct (value_compare (get k c) (get r2 c)) eqn:H2; try done.
  rewrite (value_compare_tied _ _ _ H1 H2). apply IH.
Qed.

(** ** Sorting *)

Lemma insert_row_perm by_ ir l : Permutation (insert_row by_ ir l) (ir :: l).
Proof.
  induction l as [|jr l IH]; simpl; [done|].
  destruct (rows_compare by_ ir.2 jr.2); try done.
  rewrite IH. apply perm_swap.
Qed.

Lemma sort_rows_perm by_ l : Permutation (foldr (insert_row by_) [] l) l.
Proof.
  induction l as [|ir l IH]; simpl; [done|].
  rewrite insert_row_perm. by constructor.
Qed.

Lemma insert_row_sorted by_ ir l :
  Sorted (λ a b, sorted_before by_ a.2 b.2) l →
  Sorted (λ a b, sorted_before by_ a.2 b.2) (insert_row by_ ir l).
Proof.
  induction 1 as [|jr l Hs IH Hhd]; simpl.
  - repeat constructor.
  - destruct (rows_compare by_ ir.2 jr.2) eqn:Hc.
    + constructor; [by constructor|]. constructor. unfold sorted_before. by rewrite Hc.
    + constructor; [by constructor|]. constructor. unfold sorted_before. by rewrite Hc.
    + constructor; [done|].
      assert (sorted_before by_ jr.2 ir.2) as Hji.
      { unfold sorted_before. by rewrite (rows_compare_total _ _ _ Hc). }
      destruct l as [|kr l]; simpl in *.
      * by constructor.
      * destruct (rows_compare by_ ir.2 kr.2); constructor; try done.
        by inversion Hhd.
Qed.

Lemma sort_rows_sorted by_ l :
  Sorted (λ a b, sorted_before by_ a.2 b.2) (foldr (insert_row by_) [] l).
Proof.
  induction l as [|ir l IH]; simpl; [constructor|].
  by apply insert_row_sorted.
Qed.

Lemma insert_row_stable by_ k ir l :
  List.filter (λ jr, tied by_ k jr.2) (insert_row by_ ir l)
  = List.filter (λ jr, tied by_ k jr.2) (ir :: l).
Proof.
  induction l as [|jr l IH]; [done|].
  cbn [insert_row]. destruct (rows_compare by_ ir.2 jr.2) eqn:Hc; try done.
  cbn [List.filter] in *. rewrite IH.
  unfold tied.
  destruct (rows_compare by_ k ir.2) eqn:Hi; try done.
  destruct (rows_compare by_ k jr.2) eqn:Hj; try done.
  rewrite (rows_compare_tied _ _ _ _ Hi Hj) in Hc. done.
Qed.

Lemma sort_rows_stable by_ k l :
  List.filter (λ jr, tied by_ k jr.2) (foldr (insert_row by_) [] l)
  = List.filter (λ jr, tied by_ k jr.2) l.
Proof.
  induction l as [|ir l IH]; [done|].
  cbn [foldr]. rewrite insert_row_stable. cbn [List.filter]. by rewrite IH.
Qed.

Lemma Sorted_map {A B} (f : A → B) (R : B → B → Prop) l :
  Sorted (λ a b, R (f a) (f b)) l → Sorted R (map f l).
Proof.
  induction 1 as [|a l Hs IH Hhd]; simpl; constructor; [done|].
  destruct Hhd; simpl; by constructor.
Qed.

Lemma filter_map_comm {A B} (f : A → B) (p : B → bool) l :
  List.filter p (map f l) = map f (List.filter (λ a, p (f a)) l).
Proof.
  induction l as [|a l IH]; simpl; [done|].
  destruct (p (f a)); simpl; by rewrite IH.
Qed.

Lemma rows_reset_index_snd df : map snd (rows (reset_index df)) = map snd (rows df).
Proof.
  unfold reset_index; simpl. generalize 0%nat.
  induction (rows df) as [|ir l IH]; intros n; simpl; [done|].
  f_equal. apply IH.
Qed.

Lemma zip_seq_fst {A} (l : list A) n : map fst (zip (seq n (length l)) l) = seq n (length l).
Proof.
  revert n. induction l as [|a l IH]; intros n; simpl; [done|].
  by rewrite IH.
Qed.

Lemma len_reset_index df : len (reset_index df) = len df.
Proof.
  unfold len, reset_index; simpl.
  rewrite length_zip, length_seq, length_map. lia.
Qed.

Lemma rows_reset_index_fst df :
  map fst (rows (reset_index df)) = seq 0 (len (reset_index df)).
Proof.
  rewrite len_reset_index. unfold reset_index, len; simpl.
  rewrite <- (length_map snd (rows df)). apply zip_seq_fst.
Qed.

(** ** Rows through the stages of [transform] *)

Ltac get_simpl :=
  repeat first
    [ rewrite get_insert_eq
    | rewrite get_insert_ne by (done || congruence) ].

Lemma get_zip_box (labels : list string) (cells : list (option string)) c :
  ∃ o, get (list_to_map (zip labels (box <$> cells))) c = box o.
Proof.
  revert cells. induction labels as [|l labels IH]; intros [|x cells]; csimpl;
    try (by exists None).
  destruct (decide (l = c)) as [->|Hne].
  - exists x. by rewrite get_insert_eq.
  - rewrite get_insert_ne by done. apply IH.
Qed.

Lemma frame_row_box raw ir c :
  In ir (rows (frame raw)) → ∃ o, get ir.2 c = box o.
Proof.
  unfold frame; simpl. intros (ic & <- & _)%in_map_iff. apply get_zip_box.
Qed.

Lemma keep_first_In cs seen rs ir : In ir (keep_first cs seen rs) → In ir rs.
Proof.
  revert seen. induction rs as [|jr rs IH]; intros seen; simpl; [done|].
  destruct (existsb (row_eqb cs jr.2) seen).
  - intros H. right. by eapply IH.
  - intros [->|H]; [by left | right; by eapply IH].
Qed.

Lemma keep_first_length cs seen rs :
  (length (keep_first cs seen rs) ≤ length rs)%nat.
Proof.
  revert seen. induction rs as [|jr rs IH]; intros seen; simpl; [done|].
  destruct (existsb (row_eqb cs jr.2) seen); simpl.
  - specialize (IH seen). lia.
  - specialize (IH (jr.2 :: seen)). lia.
Qed.

(** ** The order of the keys, against the comparison the sort uses *)

Lemma Timestamp_compare_Lt s t : Timestamp_compare s t = Lt → earlier s t.
Proof.
  unfold Timestamp_compare, earlier.
  destruct (year s ?= year t)%Z eqn:Hy; [|intros _; left; by apply Z.compare_lt_iff|done].
  apply Z.compare_eq_iff in Hy.
  destruct (month s ?= month t)%Z eqn:Hm;
    [|intros _; right; left; split; [done|by apply Z.compare_lt_iff]|done].
  apply Z.compare_eq_iff in Hm.
  destruct (day s ?= day t)%Z eqn:Hd;
    [|intros _; right; right; left; repeat split; try done; by apply Z.compare_lt_iff|done].
  apply Z.compare_eq_iff in Hd.
  intros Hn%Z.compare_lt_iff. right; right; right. done.
Qed.

Lemma String_compare_Lt s t : String.compare s t = Lt → lex_lt s t.
Proof.
  revert t. induction s as [|a s IH]; intros [|b t]; simpl; try done.
  - intros _. constructor.
  - unfold Ascii.compare.
    destruct (N_of_ascii a ?= N_of_ascii b)%N eqn:Hc.
    + apply N.compare_eq_iff in Hc.
      assert (a = b) as -> by (by rewrite <- (ascii_N_embedding a), Hc, ascii_N_embedding).
      intros H. apply lex_lt_tail. by apply IH.
    + intros _. apply lex_lt_head. by apply N.compare_lt_iff.
    + done.
Qed.

Lemma earlier_trans s t u : earlier s t → earlier t u → earlier s u.
Proof. unfold earlier. lia. Qed.

Lemma lex_lt_trans s t u : lex_lt s t → lex_lt t u → lex_lt s u.
Proof.
  intros H. revert u. induction H as [a t|a b s t Hab|a s t H IH]; intros u Hu.
  - inversion Hu; subst; constructor.
  - inversion Hu; subst.
    + apply lex_lt_head. lia.
    + by apply lex_lt_head.
  - inversion Hu; subst.
    + by apply lex_lt_head.
    + apply lex_lt_tail. by apply IH.
Qed.

Lemma key_lt_trans k1 k2 k3 : key_lt k1 k2 → key_lt k2 k3 → key_lt k1 k3.
Proof.
  destruct k1 as [[t1 g1] p1], k2 as [[t2 g2] p2], k3 as [[t3 g3] p3].
  unfold key_lt; cbn [fst snd].
  intros [H|[[-> H]|(-> & -> & H)]] [H'|[[<- H']|(<- & <- & H')]];
    first [ left; by eauto using earlier_trans
          | right; left; split; [done|]; by eauto using lex_lt_trans
          | right; right; split; [done|]; split; [done|];
            by eauto using lex_lt_trans ].
Qed.

Lemma has_key_inj r k k' : has_key r k → has_key r k' → k = k'.
Proof.
  destruct k as [[t g] p], k' as [[t' g'] p']. unfold has_key; cbn [fst snd].
  intros (Hd & Hg & Hp) (Hd' & Hg' & Hp'). congruence.
Qed.

Lemma in_order_trans a b c : in_order a b → in_order b c → in_order a c.
Proof.
  intros (k1 & k2 & H1 & H2 & Hlt) (k2' & k3 & H2' & H3 & Hlt').
  rewrite <- (has_key_inj _ _ _ H2 H2') in Hlt'.
  exists k1, k3. split; [done|]. split; [done|].
  destruct Hlt as [Hlt| ->], Hlt' as [Hlt'| <-]; eauto using key_lt_trans.
Qed.

Lemma rows_compare_in_order a b k k' :
  has_key a k → has_key b k' → sorted_before sort_key a b →
  key_lt k k' ∨ k = k'.
Proof.
  destruct k as [[t g] p], k' as [[t' g'] p'].
  unfold has_key, sorted_before, sort_key, key_lt; cbn [fst snd rows_compare].
  intros (-> & -> & ->) (-> & -> & ->). cbn [value_compare].
  destruct (Timestamp_compare t t') eqn:Ht; [| |done].
  - apply Timestamp_compare_eq in Ht as ->.
    destruct (String.compare g g') eqn:Hg; [| |done].
    + apply String.compare_eq_iff in Hg as ->.
      destruct (String.compare p p') eqn:Hp; [| |done].
      * apply String.compare_eq_iff in Hp as ->. by right.
      * intros _. left. right. right. by apply String_compare_Lt in Hp.
    + intros _. left. right. left. by apply String_compare_Lt in Hg.
  - intros _. left. left. by apply Timestamp_compare_Lt.
Qed.

Lemma StronglySorted_lookup {A} (R : A → A → Prop) l i j a b :
  StronglySorted R l → (i < j)%nat → l !! i = Some a → l !! j = Some b → R a b.
Proof.
  intros Hs. revert i j. induction Hs as [|x l Hs IH Hx]; intros i j Hij Hi Hj.
  - done.
  - destruct j as [|j]; [lia|]. destruct i as [|i]; simpl in *.
    + injection Hi as <-. rewrite Forall_forall in Hx. apply Hx.
      by apply list_elem_of_lookup_2 in Hj.
    + apply (IH i j); [lia|done..].
Qed.

Lemma Timestamp_compare_refl t : Timestamp_compare t t = Eq.
Proof. unfold Timestamp_compare. by rewrite !Z.compare_refl. Qed.

Lemma String_compare_refl s : String.compare s s = Eq.
Proof.
  pose proof (String.compare_antisym s s) as H.
  by destruct (String.compare s s).
Qed.

Lemma tied_keyed k r k' :
  has_key r k' → tied sort_key (key_row k) r = keyed k r.
Proof.
  destruct k as [[t g] p], k' as [[t' g'] p'].
  unfold has_key, keyed, tied, sort_key; cbn [fst snd rows_compare].
  intros (-> & -> & ->). 
  assert (get (key_row (t, g, p)) "date" = Datetime t) as -> by done.
  assert (get (key_row (t, g, p)) "region" = Str g) as -> by done.
  assert (get (key_row (t, g, p)) "product" = Str p) as -> by done.
  cbn [value_compare].
  destruct (Timestamp_compare t t') eqn:Ht.
  - apply Timestamp_compare_eq in Ht as ->. rewrite bool_decide_eq_true_2 by done.
    cbn [andb].
    destruct (String.compare g g') eqn:Hg.
    + apply String.compare_eq_iff in Hg as ->. rewrite String.eqb_refl. cbn [andb].
      destruct (String.compare p p') eqn:Hp.
      * apply String.compare_eq_iff in Hp as ->. by rewrite String.eqb_refl.
      * destruct (String.eqb_spec p' p) as [->|]; [|done]. by rewrite String_compare_refl in Hp.
      * destruct (String.eqb_spec p' p) as [->|]; [|done]. by rewrite String_compare_refl in Hp.
    + destruct (String.eqb_spec g' g) as [->|]; [|done]. by rewrite String_compare_refl in Hg.
    + destruct (String.eqb_spec g' g) as [->|]; [|done]. by rewrite String_compare_refl in Hg.
  - rewrite bool_decide_eq_false_2; [done|]. intros ->. by rewrite Timestamp_compare_refl in Ht.
  - rewrite bool_decide_eq_false_2; [done|]. intros ->. by rewrite Timestamp_compare_refl in Ht.
Qed.

Section Stages.

Variable to_datetime : list value → value → option Timestamp.
Variable to_numeric : value → option Q.

Local Abbreviation coerced := (coerced to_datetime to_numeric).
Local Abbreviation sanitized := (sanitized to_datetime to_numeric).
Local Abbreviation transform := (transform to_datetime to_numeric).

(** What a successful run returns and logs. *)
Lemma transform_returns raw log out :
  transform raw = (log, inr out) →
  missing_columns (standardize_column_names raw) = ∅
  ∧ out = order_columns (add_derived_fields (sanitized raw))
  ∧ log = [ StartingTransform;
            DroppedBadRows (Z.of_nat (len (clean_values (coerced raw)))
                            - Z.of_nat (len (sanitized raw)));
            TransformComplete (len out) ].
Proof.
  unfold transform. case_bool_decide as Hm; [|done].
  case_bool_decide as Hu; [|done].
  intros [= <- <-]. done.
Qed.

(** A frame is returned for distinct labels only. *)
Lemma transform_returns_NoDup raw log out :
  transform raw = (log, inr out) →
  NoDup (raw_columns (standardize_column_names raw)).
Proof.
  unfold transform. case_bool_decide as Hm; [|done].
  by case_bool_decide as Hu.
Qed.

Lemma transform_complete raw :
  missing_columns (standardize_column_names raw) = ∅ →
  NoDup (raw_columns (standardize_column_names raw)) →
  transform raw
  = ([ StartingTransform;
       DroppedBadRows (Z.of_nat (len (clean_values (coerced raw)))
                       - Z.of_nat (len (sanitized raw)));
       TransformComplete
         (len (order_columns (add_derived_fields (sanitized raw)))) ],
     inr (order_columns (add_derived_fields (sanitized raw)))).
Proof.
  intros Hm Hu. unfold transform.
  by rewrite bool_decide_eq_true_2, bool_decide_eq_true_2.
Qed.

Lemma transform_collides raw :
  missing_columns (standardize_column_names raw) = ∅ →
  ¬ NoDup (raw_columns (standardize_column_names raw)) →
  transform raw = ([StartingTransform], inl LabelsCollide).
Proof.
  intros Hm Hu. unfold transform.
  by rewrite bool_decide_eq_true_2, bool_decide_eq_false_2.
Qed.

(** The cells of a coerced row, in terms of the text row it comes from. *)
Lemma coerced_row raw ir :
  In ir (rows (coerced raw)) →
  ∃ r0, In (ir.1, r0) (rows (frame (standardize_column_names raw)))
    ∧ get ir.2 "date"
      = of_timestamp
          (to_datetime (column "date" (frame (standardize_column_names raw)))
                       (get r0 "date"))
    ∧ get ir.2 "sales" = of_number (to_numeric (get r0 "sales"))
    ∧ get ir.2 "quantity" = of_number (to_numeric (get r0 "quantity"))
    ∧ get ir.2 "profit" = of_number (to_numeric (get r0 "profit"))
    ∧ ∀ c, c ∉ ["date"; "sales"; "quantity"; "profit"] → get ir.2 c = get r0 c.
Proof.
  unfold coerced, coerce_numeric_columns, parse_date; simpl.
  intros (r3 & <- & (r2 & <- & (r1 & <- & (r0 & <- & H)%in_map_iff)%in_map_iff
    )%in_map_iff)%in_map_iff.
  exists r0.2; simpl. split; [by destruct r0|]. get_simpl.
  repeat split; try done.
  intros c Hc. rewrite !not_elem_of_cons in Hc.
  destruct Hc as (? & ? & ? & ? & _). by get_simpl.
Qed.

(** The cells of a cleaned row, in terms of the row it comes from. *)
Lemma clean_values_row df ir :
  In ir (rows (clean_values df)) →
  ∃ r0, In (ir.1, r0) (rows df)
    ∧ ir.2 = <["region" :=
                 replace "" "Unknown" (fillna (Str "Unknown") (get r0 "region"))]> r0.
Proof.
  unfold clean_values, drop_duplicates; simpl.
  intros (r0 & <- & H)%keep_first_In%in_map_iff.
  exists r0.2; simpl. split; [by destruct r0 | done].
Qed.

Lemma drop_bad_rows_row df ir :
  In ir (rows (drop_bad_rows df)) ↔
  In ir (rows df)
  ∧ forallb (λ c, notna (get ir.2 c))
      ["date"; "product"; "quantity"; "sales"; "profit"] = true
  ∧ gt (get ir.2 "quantity") 0 = true
  ∧ gt (get ir.2 "sales") 0 = true.
Proof.
  unfold drop_bad_rows, dropna, loc; cbn [rows].
  rewrite !filter_In, andb_true_iff. tauto.
Qed.

Lemma gt_Num_pos q : gt (Num q) 0 = true → (0 < q)%Q.
Proof.
  simpl. rewrite Qlt_alt. by destruct (0 ?= q)%Q.
Qed.

Lemma gt_Num_of_pos q : (0 < q)%Q → gt (Num q) 0 = true.
Proof. rewrite Qlt_alt. simpl. by intros ->. Qed.

(** Every row that leaves the cleaning steps is fully typed and positive. *)
Lemma sanitized_row raw ir :
  In ir (rows (sanitized raw)) →
  ∃ t g p q s m,
    get ir.2 "date" = Datetime t ∧ get ir.2 "region" = Str g
    ∧ get ir.2 "product" = Str p ∧ get ir.2 "quantity" = Num q
    ∧ get ir.2 "sales" = Num s ∧ get ir.2 "profit" = Num m
    ∧ (0 < q)%Q ∧ (0 < s)%Q.
Proof.
  unfold sanitized. intros (Hin & Hna & Hq & Hs)%drop_bad_rows_row.
  apply clean_values_row in Hin as (r0 & Hin & Hr).
  apply coerced_row in Hin as (r00 & Hin & Hd & Hsa & Hqu & Hpr & Hrest).
  destruct (frame_row_box _ _ "region" Hin) as [og Hg].
  destruct (frame_row_box _ _ "product" Hin) as [op Hp].
  cbn [snd] in Hg, Hp, Hd, Hsa, Hqu, Hpr, Hrest.
  rewrite Hr in Hna, Hq, Hs |- *. simpl in Hna. revert Hna Hq Hs. get_simpl.
  rewrite Hd, Hsa, Hqu, Hpr, !Hrest, Hg, Hp
    by (rewrite !not_elem_of_cons; repeat split; try done; apply not_elem_of_nil).
  destruct (to_datetime _ _) as [t|]; simpl; [|done].
  destruct op as [p|]; simpl; [|done].
  destruct (to_numeric (get r00 "quantity")) as [q|]; simpl; [|done].
  destruct (to_numeric (get r00 "sales")) as [s|]; simpl; [|done].
  destruct (to_numeric (get r00 "profit")) as [m|]; simpl; [|done].
  intros _ Hq%gt_Num_pos Hs%gt_Num_pos.
  assert (∃ g, replace "" "Unknown" (fillna (Str "Unknown") (box og)) = Str g)
    as [g ->].
  { destruct og as [g|]; simpl; [|by eexists].
    destruct (String.eqb g ""); by eexists. }
  by exists t, g, p, q, s, m.
Qed.

(** The cells of an output row, in terms of the cleaned row it comes from. *)
Lemma order_columns_row df ir :
  In ir (rows (order_columns (add_derived_fields df))) →
  ∃ jr, In jr (rows df)
    ∧ get ir.2 "date" = get jr.2 "date"
    ∧ get ir.2 "year" = dt year (get jr.2 "date")
    ∧ get ir.2 "month" = dt month (get jr.2 "date")
    ∧ get ir.2 "region" = get jr.2 "region"
    ∧ get ir.2 "product" = get jr.2 "product"
    ∧ get ir.2 "quantity" = get jr.2 "quantity"
    ∧ get ir.2 "unit_price"
      = round (truediv (get jr.2 "sales") (get jr.2 "quantity")) 2
    ∧ get ir.2 "sales" = get jr.2 "sales"
    ∧ get ir.2 "profit" = get jr.2 "profit"
    ∧ get ir.2 "profit_margin"
      = round (truediv (get jr.2 "profit") (get jr.2 "sales")) 4
    ∧ ∀ c, c ∉ cols → ir.2 !! c = None.
Proof.
  intros H. apply (in_map snd) in H. unfold order_columns in H.
  rewrite rows_reset_index_snd in H.
  apply in_map_iff in H as (kr & Hk & H).
  unfold sort_values in H; cbn [rows] in H.
  apply (Permutation_in _ (sort_rows_perm _ _)) in H.
  unfold getitem in H; cbn [rows] in H.
  apply in_map_iff in H as (xr & Hx & H).
  unfold add_derived_fields, assign in H; cbn [rows] in H.
  rewrite !map_map in H. apply in_map_iff in H as (jr & Hj & H).
  exists jr. split; [done|]. rewrite <- Hk, <- Hx, <- Hj. cbn [fst snd].
  rewrite !get_select_elem by (apply list_elem_of_In; simpl; tauto).
  repeat (split; [by get_simpl|]).
  intros c Hc. apply not_elem_of_list_to_map_1.
  by rewrite <- list_fmap_compose, list_fmap_id.
Qed.

End Stages.

(** ** Validity of the output records *)

Section Output.

Variable to_datetime : list value → value → option Timestamp.
Variable to_numeric : value → option Q.

Local Abbreviation coerced := (coerced to_datetime to_numeric).
Local Abbreviation sanitized := (sanitized to_datetime to_numeric).
Local Abbreviation transform := (transform to_datetime to_numeric).

Lemma truediv_nonzero x y :
  (0 < y)%Q → truediv (Num x) (Num y) = float64 (x / y).
Proof.
  intros Hy. simpl. destruct (Qeq_bool y 0) eqn:He; [|done].
  apply Qeq_bool_iff in He. rewrite He in Hy. by apply Qlt_irrefl in Hy.
Qed.

(** The typed cells of an output record. *)
Lemma output_row raw log out ir :
  transform raw = (log, inr out) → In ir (rows out) →
  ∃ t g p q s m,
    get ir.2 "date" = Datetime t ∧ get ir.2 "region" = Str g
    ∧ get ir.2 "product" = Str p ∧ get ir.2 "quantity" = Num q
    ∧ get ir.2 "sales" = Num s ∧ get ir.2 "profit" = Num m
    ∧ (0 < q)%Q ∧ (0 < s)%Q
    ∧ get ir.2 "year" = Num (inject_Z (year t))
    ∧ get ir.2 "month" = Num (inject_Z (month t))
    ∧ get ir.2 "unit_price" = round (float64 (s / q)) 2
    ∧ get ir.2 "profit_margin" = round (float64 (m / s)) 4.
Proof.
  intros (_ & -> & _)%transform_returns Hin.
  apply order_columns_row in Hin
    as (jr & Hin & Hd & Hy & Hmo & Hg & Hp & Hq & Hu & Hs & Hm & Hpm & _).
  apply sanitized_row in Hin
    as (t & g & p & q & s & m & Jd & Jg & Jp & Jq & Js & Jm & Hq0 & Hs0).
  exists t, g, p, q, s, m.
  rewrite Hd, Hy, Hmo, Hg, Hp, Hq, Hu, Hs, Hm, Hpm, Jd, Jg, Jp, Jq, Js, Jm.
  rewrite !truediv_nonzero by done. done.
Qed.

(** C1. Every record of the frame [transform] returns has a [date], a
    [product], a [quantity], a [sales] and a [profit] that are not the
    missing marker, and its [quantity] and its [sales] are numbers above
    zero. *)
Theorem transform_records_valid raw log out ir :
  transform raw = (log, inr out) → In ir (rows out) →
  (∀ c, c ∈ ["date"; "product"; "quantity"; "sales"; "profit"] →
        get ir.2 c ≠ NA)
  ∧ positive (get ir.2 "quantity")
  ∧ positive (get ir.2 "sales").
Proof.
  intros Ht Hin.
  destruct (output_row _ _ _ _ Ht Hin)
    as (t & g & p & q & s & m & Hd & _ & Hp & Hq & Hs & Hm & Hq0 & Hs0 & _).
  split; [|split].
  - intros c Hc. repeat (apply elem_of_cons in Hc as [->|Hc]);
      [by rewrite Hd | by rewrite Hp | by rewrite Hq | by rewrite Hs
      | by rewrite Hm | by apply elem_of_nil in Hc].
  - by rewrite Hq.
  - by rewrite Hs.
Qed.


(** C7. No row with a [quantity] or [sales] that is zero or below reaches
    the derived fields: the frame they are computed on is [sanitized raw];
    a cleaned row whose [quantity] or [sales] is not above zero (a
    [quantity] that was coerced to 0, say) is not in it; each of its rows
    has a [quantity] and a [sales] above zero, so neither divisor is zero,
    and on numbers both divisions return the rounded quotient. *)
Theorem no_zero_divisor raw log out :
  transform raw = (log, inr out) →
  out = order_columns (add_derived_fields (sanitized raw))
  ∧ (∀ ir, In ir (rows (clean_values (coerced raw))) →
       nonpositive (get ir.2 "quantity") ∨ nonpositive (get ir.2 "sales") →
       ¬ In ir (rows (sanitized raw)))
  ∧ (∀ ir, In ir (rows (clean_values (coerced raw))) →
       zero (get ir.2 "quantity") → ¬ In ir (rows (sanitized raw)))
  ∧ ∀ ir, In ir (rows (sanitized raw)) →
      positive (get ir.2 "quantity") ∧ positive (get ir.2 "sales")
      ∧ ¬ zero (get ir.2 "quantity") ∧ ¬ zero (get ir.2 "sales")
      ∧ (∀ s q, get ir.2 "sales" = Num s → get ir.2 "quantity" = Num q →
           truediv (get ir.2 "sales") (get ir.2 "quantity") = float64 (s / q))
      ∧ (∀ m s, get ir.2 "profit" = Num m → get ir.2 "sales" = Num s →
           truediv (get ir.2 "profit") (get ir.2 "sales") = float64 (m / s)).
Proof.
  intros (_ & -> & _)%transform_returns. split; [done|].
  assert (∀ ir, In ir (rows (sanitized raw)) →
            positive (get ir.2 "quantity") ∧ positive (get ir.2 "sales")) as Hpos.
  { intros ir Hin. unfold sanitized in Hin.
    apply drop_bad_rows_row in Hin as (_ & _ & Hq & Hs).
    split.
    - destruct (get ir.2 "quantity") as [| |q|[]|]; try done.
      by apply gt_Num_pos.
    - destruct (get ir.2 "sales") as [| |q|[]|]; try done.
      by apply gt_Num_pos. }
  assert (∀ v, positive v → ¬ nonpositive v) as Hnp.
  { intros [| |q|[]|]; simpl; try done. intros Hq Hle.
    by apply (Qlt_not_le _ _ Hq). }
  assert (∀ v, zero v → nonpositive v) as Hz.
  { intros [| |q|[]|]; simpl; try done. intros ->. apply Qle_refl. }
  split; [|split].
  - intros ir _ Hle Hin. destruct (Hpos ir Hin) as [Hq Hs].
    destruct Hle as [Hle|Hle]; [by apply (Hnp _ Hq) | by apply (Hnp _ Hs)].
  - intros ir _ Hzero Hin. destruct (Hpos ir Hin) as [Hq _].
    by apply (Hnp _ Hq), Hz.
  - intros ir Hin. destruct (Hpos ir Hin) as [Hq Hs].
    split; [done|]. split; [done|].
    split; [intros H; by apply (Hnp _ Hq), Hz|].
    split; [intros H; by apply (Hnp _ Hs), Hz|].
    split.
    + intros s q Es Eq. rewrite Es, Eq. apply truediv_nonzero.
      by rewrite Eq in Hq.
    + intros m s Em Es. rewrite Em, Es. apply truediv_nonzero.
      by rewrite Es in Hs.
Qed.

(** C5. The frame [transform] returns has exactly the ten columns of [cols],
    in that order, and its rows hold no other cell.  Every row has a key: a
    timestamp and two texts.  Of two rows, the one that stands first has the
    smaller key or the same key, in the order by date (chronological), then
    region, then product (both lexicographic); this holds whatever the order
    of the input rows.  The rows are those of the frame before the sort, and
    the rows with one and the same key stand in the order they had before
    the sort.  The index is 0, 1, 2, ... *)
Theorem output_projected_sorted raw log out :
  transform raw = (log, inr out) →
  let unsorted := getitem cols (add_derived_fields (sanitized raw)) in
  columns out = cols
  ∧ (∀ ir c, In ir (rows out) → c ∉ cols → ir.2 !! c = None)
  ∧ (∀ ir, In ir (rows out) → ∃ k, has_key ir.2 k)
  ∧ (∀ i j a b, (i < j)%nat →
       rows out !! i = Some a → rows out !! j = Some b → in_order a.2 b.2)
  ∧ Permutation (map snd (rows out)) (map snd (rows unsorted))
  ∧ (∀ k, List.filter (keyed k) (map snd (rows out))
          = List.filter (keyed k) (map snd (rows unsorted)))
  ∧ map fst (rows out) = seq 0 (len out).
Proof.
  intros Ht unsorted. pose proof Ht as (_ & Hout & _)%transform_returns.
  assert (∀ r, In r (map snd (rows out)) → ∃ k, has_key r k) as Hkey.
  { intros r (ir & <- & Hin)%in_map_iff.
    destruct (output_row _ _ _ _ Ht Hin)
      as (t & g & p & q & s & m & Hd & Hg & Hp & _).
    by exists (t, g, p). }
  assert (Permutation (map snd (rows out)) (map snd (rows unsorted))) as Hperm.
  { rewrite Hout. unfold order_columns. rewrite rows_reset_index_snd.
    apply Permutation_map. apply sort_rows_perm. }
  split; [by rewrite Hout|].
  split.
  { intros ir c Hin Hc. rewrite Hout in Hin.
    apply order_columns_row in Hin
      as (jr & _ & _ & _ & _ & _ & _ & _ & _ & _ & _ & _ & Hnone).
    by apply Hnone. }
  split.
  { intros ir Hin. apply Hkey, in_map_iff. by exists ir. }
  split.
  { assert (Sorted (sorted_before sort_key) (map snd (rows out))) as Hs.
    { rewrite Hout. unfold order_columns. rewrite rows_reset_index_snd.
      apply Sorted_map. apply sort_rows_sorted. }
    assert (StronglySorted in_order (map snd (rows out))) as Hss.
    { apply Sorted_StronglySorted; [intros a b c; apply in_order_trans|].
      revert Hkey Hs. generalize (map snd (rows out)). intros l Hkey Hs.
      induction Hs as [|a l Hs IH Hhd]; [constructor|].
      constructor; [apply IH; intros r Hr; apply Hkey; by right|].
      destruct Hhd as [|b l Hab]; constructor.
      destruct (Hkey a) as [k Hk]; [by left|].
      destruct (Hkey b) as [k' Hk']; [right; by left|].
      exists k, k'. split; [done|]. split; [done|].
      by apply (rows_compare_in_order a b). }
    intros i j a b Hij Hi Hj.
    apply (StronglySorted_lookup _ _ i j _ _ Hss Hij);
      rewrite list_lookup_fmap; [by rewrite Hi | by rewrite Hj]. }
  split; [done|].
  split.
  { intros k.
    rewrite (filter_ext_in (keyed k) (tied sort_key (key_row k))
               (map snd (rows out))).
    2:{ intros r Hr. destruct (Hkey r Hr) as [k' Hk'].
        symmetry. by apply (tied_keyed k r k'). }
    rewrite (filter_ext_in (keyed k) (tied sort_key (key_row k))
               (map snd (rows unsorted))).
    2:{ intros r Hr. apply (Permutation_in _ (Permutation_sym Hperm)) in Hr.
        destruct (Hkey r Hr) as [k' Hk'].
        symmetry. by apply (tied_keyed k r k'). }
    rewrite Hout. unfold order_columns. rewrite rows_reset_index_snd.
    unfold sort_values; cbn [rows]. rewrite !filter_map_comm.
    f_equal. apply sort_rows_stable. }
  rewrite Hout. apply rows_reset_index_fst.
Qed.

End Output.

(** ** The cleaning steps against their specification *)

Lemma fill_region_cases v :
  replace "" "Unknown" (fillna (Str "Unknown") v)
  = match v with NA | Str "" => Str "Unknown" | _ => v end.
Proof. destruct v as [|[|a s]| | |]; done. Qed.

Lemma spec_fill_region_assign df :
  spec_fill_region df
  = assign "region"
      (λ r, replace "" "Unknown" (fillna (Str "Unknown") (get r "region"))) df.
Proof.
  unfold spec_fill_region, assign. f_equal. apply map_ext. intros ir.
  rewrite fill_region_cases. by destruct (get ir.2 "region") as [|[|a s]| | |].
Qed.

Lemma existsb_row_eqb_absorb cs r e earlier :
  existsb (row_eqb cs e) earlier = true →
  existsb (row_eqb cs r) (earlier ++ [e]) = existsb (row_eqb cs r) earlier.
Proof.
  intros He. rewrite existsb_app. simpl. rewrite orb_false_r.
  destruct (row_eqb cs r e) eqn:Hre; [|apply orb_false_r].
  rewrite orb_true_r. symmetry.
  apply existsb_exists in He as (x & Hx & Hex).
  apply existsb_exists. exists x. split; [done|].
  by eapply row_eqb_trans.
Qed.

(** Scanning against the rows kept so far finds the same duplicates as
    scanning against every earlier row. *)
Lemma keep_first_spec cs seen earlier rs :
  (∀ r, existsb (row_eqb cs r) seen = existsb (row_eqb cs r) earlier) →
  keep_first cs seen rs = spec_first_occurrences cs earlier rs.
Proof.
  revert seen earlier. induction rs as [|ir rs IH]; intros seen earlier Hse;
    simpl; [done|].
  rewrite Hse. destruct (existsb (row_eqb cs ir.2) earlier) eqn:He.
  - apply IH. intros r. rewrite Hse. symmetry. by apply existsb_row_eqb_absorb.
  - f_equal. apply IH. intros r. rewrite existsb_app. simpl.
    rewrite Hse, orb_false_r. apply orb_comm.
Qed.

Lemma spec_remove_duplicates_drop df :
  spec_remove_duplicates df = drop_duplicates df.
Proof.
  unfold spec_remove_duplicates, drop_duplicates. f_equal. symmetry.
  by apply keep_first_spec.
Qed.

Lemma spec_remove_incomplete_dropna df :
  spec_remove_incomplete df
  = dropna ["date"; "product"; "quantity"; "sales"; "profit"] df.
Proof.
  unfold spec_remove_incomplete, dropna, loc. f_equal. apply filter_ext.
  intros ir. simpl. unfold notna.
  by destruct (isna (get ir.2 "date")), (isna (get ir.2 "product")),
    (isna (get ir.2 "quantity")), (isna (get ir.2 "sales")),
    (isna (get ir.2 "profit")).
Qed.

Lemma gt_le0 q : gt (Num q) 0 = negb (le0 (Num q)).
Proof.
  simpl. destruct (0 ?= q)%Q eqn:Hc.
  - apply Qeq_alt in Hc. symmetry. apply negb_false_iff, Qle_bool_iff.
    rewrite <- Hc. apply Qle_refl.
  - apply Qlt_alt in Hc. symmetry. apply negb_true_iff.
    apply not_true_is_false. rewrite Qle_bool_iff. by apply Qlt_not_le.
  - apply Qgt_alt in Hc. symmetry. apply negb_false_iff, Qle_bool_iff.
    by apply Qlt_le_weak.
Qed.

Section Sanitizer.

Variable to_datetime : list value → value → option Timestamp.
Variable to_numeric : value → option Q.

Local Abbreviation coerced := (coerced to_datetime to_numeric).
Local Abbreviation sanitized := (sanitized to_datetime to_numeric).
Local Abbreviation transform := (transform to_datetime to_numeric).

(** After coercion the numeric columns hold numbers or the missing marker. *)
Lemma cleaned_numeric raw ir :
  In ir (rows (clean_values (coerced raw))) →
  ∃ oq os, get ir.2 "quantity" = of_number oq ∧ get ir.2 "sales" = of_number os.
Proof.
  intros (r0 & Hin & ->)%clean_values_row.
  apply coerced_row in Hin as (r00 & _ & _ & Hs & Hq & _).
  cbn [snd] in Hs, Hq. get_simpl. rewrite Hs, Hq. by eexists _, _.
Qed.

Lemma clean_values_spec df :
  clean_values df = spec_remove_duplicates (spec_fill_region df).
Proof. by rewrite spec_remove_duplicates_drop, spec_fill_region_assign. Qed.

Lemma sanitized_spec raw : sanitized raw = spec_sanitize (coerced raw).
Proof.
  unfold spec_sanitize.
  change (sanitized raw) with (drop_bad_rows (clean_values (coerced raw))).
  rewrite <- clean_values_spec, spec_remove_incomplete_dropna.
  unfold drop_bad_rows, spec_remove_nonpositive, loc at 1. f_equal.
  apply filter_ext_in. intros ir Hin.
  unfold dropna, loc in Hin; cbn [rows] in Hin.
  apply filter_In in Hin as (Hin & Hna).
  destruct (cleaned_numeric _ _ Hin) as (oq & os & Hq & Hs).
  simpl in Hna. rewrite Hq, Hs in Hna |- *.
  destruct oq as [q|], os as [s|]; simpl in Hna;
    rewrite ?andb_false_r, ?andb_false_l in Hna; try done.
  cbn [of_number]. by rewrite !gt_le0, negb_orb.
Qed.

(** C3. The cleaning steps of [transform] are the four steps of the
    specification, in its order: fill the region, remove the duplicates of
    earlier rows, remove the rows with a missing required field, remove the
    rows with a non-positive quantity or sales.  The row
    ("2024-02-01", "", "Gadget", "5", "50", "-5") is retained, with region
    "Unknown" and its negative profit. *)
Theorem sanitizer_steps raw :
  clean_values (coerced raw)
  = spec_remove_duplicates (spec_fill_region (coerced raw))
  ∧ sanitized raw
    = spec_remove_nonpositive
        (spec_remove_incomplete
           (spec_remove_duplicates (spec_fill_region (coerced raw))))
  ∧ to_records (sanitized_csv gadget_frame)
    = [[ Datetime (mkTimestamp 2024 2 1 0); Str "Unknown"; Str "Gadget";
         Num 5; Num 50; Num (-5) ]].
Proof.
  split; [apply clean_values_spec|]. split; [apply sanitized_spec|].
  by vm_compute.
Qed.

Lemma len_coerced raw : len (coerced raw) = length (raw_rows raw).
Proof.
  unfold coerced, len, coerce_numeric_columns, parse_date, assign; simpl.
  by rewrite !length_map.
Qed.

Lemma len_clean_values df : (len (clean_values df) ≤ len df)%nat.
Proof.
  unfold len, clean_values, drop_duplicates, assign; cbn [rows].
  etrans; [apply keep_first_length|]. by rewrite length_map.
Qed.

Lemma len_drop_bad_rows df : (len (drop_bad_rows df) ≤ len df)%nat.
Proof.
  unfold len, drop_bad_rows, dropna, loc; cbn [rows].
  etrans; [apply List.filter_length_le|]. apply List.filter_length_le.
Qed.

Lemma transform_raises raw :
  missing_columns (standardize_column_names raw) ≠ ∅ →
  transform raw
  = ([StartingTransform],
     inl (ValueError_MissingColumns
            (missing_columns (standardize_column_names raw)))).
Proof. intros Hm. unfold transform. by rewrite bool_decide_eq_false_2. Qed.

(** C4, as amended. The count that [transform] logs is the number of rows
    left by the removal of duplicates (step 2) minus the number of rows left
    by step 4; rows removed as duplicates are not counted, so the count is at
    most the number of input rows minus the number of rows left by step 4. *)
Theorem dropped_count raw log out :
  transform raw = (log, inr out) →
  ∃ n,
    log = [StartingTransform; DroppedBadRows n; TransformComplete (len out)]
    ∧ n = (Z.of_nat (len (spec_remove_duplicates (spec_fill_region (coerced raw))))
           - Z.of_nat (len (spec_sanitize (coerced raw))))%Z
    ∧ (0 ≤ n)%Z
    ∧ (n ≤ Z.of_nat (length (raw_rows raw))
           - Z.of_nat (len (spec_sanitize (coerced raw))))%Z.
Proof.
  intros (_ & _ & ->)%transform_returns. eexists. split; [done|].
  rewrite <- clean_values_spec, <- sanitized_spec. split; [done|].
  pose proof (len_clean_values (coerced raw)) as H1.
  pose proof (len_drop_bad_rows (clean_values (coerced raw))) as H2.
  rewrite len_coerced in H1.
  change (drop_bad_rows (clean_values (coerced raw))) with (sanitized raw) in H2.
  lia.
Qed.

End Sanitizer.

(** ** The region fill and the duplicate test *)

(** C10. The fill changes the region of a row only when it is missing or the
    empty text, and then to "Unknown"; every other cell is left alone.  A
    region that is white space only, and not empty, comes out of the
    cleaning steps as it went in. *)
Theorem region_fill_exact df ir :
  In ir (rows (drop_bad_rows (clean_values df))) →
  ∃ r0, In (ir.1, r0) (rows df)
    ∧ (∀ c, c ≠ "region" → get ir.2 c = get r0 c)
    ∧ (get ir.2 "region" ≠ get r0 "region" →
       (get r0 "region" = NA ∨ get r0 "region" = Str "")
       ∧ get ir.2 "region" = Str "Unknown")
    ∧ (∀ s, get r0 "region" = Str s → whitespace_only s →
            get ir.2 "region" = Str s).
Proof.
  intros (Hin & _)%drop_bad_rows_row.
  apply clean_values_row in Hin as (r0 & Hin & ->).
  exists r0. split; [done|]. split; [|split].
  - intros c Hc. by rewrite get_insert_ne.
  - get_simpl. rewrite fill_region_cases.
    destruct (get r0 "region") as [|[|a s]| | |]; intros Hne; try done; auto.
  - intros s Hs [Hne _]. get_simpl. rewrite Hs, fill_region_cases.
    by destruct s.
Qed.

Lemma keep_first_represented cs seen rs ir :
  In ir rs →
  In ir (keep_first cs seen rs)
  ∨ (∃ r, In r seen ∧ row_eqb cs ir.2 r = true)
  ∨ ∃ jr, In jr (keep_first cs seen rs) ∧ row_eqb cs ir.2 jr.2 = true.
Proof.
  revert seen. induction rs as [|kr rs IH]; intros seen; simpl; [done|].
  intros [->|Hin].
  - destruct (existsb (row_eqb cs ir.2) seen) eqn:He.
    + right; left. apply existsb_exists in He as (r & ? & ?). by exists r.
    + left. by left.
  - destruct (existsb (row_eqb cs kr.2) seen) eqn:He.
    + apply IH. done.
    + destruct (IH (kr.2 :: seen) Hin) as [H|[(r & [<-|Hr] & Heq)|(jr & Hj & Heq)]].
      * left. by right.
      * right; right. exists kr. split; [by left | done].
      * right; left. by exists r.
      * right; right. exists jr. split; [by right | done].
Qed.

(** C9. [drop_duplicates] tests equality on every column of the frame: a row
    it removes agrees with a kept row on all of them, extra source columns
    included.  On [notes_frame], whose two rows differ in the extra column
    [note] only, both rows survive, and the frame [transform] returns holds
    two records that are equal in every output column (the margin is the
    float64 0.2). *)
Theorem duplicates_over_all_columns :
  (∀ df ir, In ir (rows df) → ¬ In ir (rows (drop_duplicates df)) →
     ∃ jr, In jr (rows (drop_duplicates df))
       ∧ ∀ c, c ∈ columns df → value_eqb (get ir.2 c) (get jr.2 c) = true)
  ∧ map (λ cells, take 6 cells) (map snd (raw_rows notes_frame))
    = [widget_row; widget_row]
  ∧ column "note" (clean_values (coerced to_datetime_iso to_numeric_decimal notes_frame))
    = [Str "first"; Str "second"]
  ∧ (transform_csv notes_frame).2 = inr (returned notes_frame)
  ∧ columns (returned notes_frame) = cols
  ∧ to_records (returned notes_frame)
    = [ [ Datetime (mkTimestamp 2024 1 5 0); Num 2024; Num 1; Str "East";
          Str "Widget"; Num 10; Num 10; Num 100; Num 20; float64 (1 # 5) ];
        [ Datetime (mkTimestamp 2024 1 5 0); Num 2024; Num 1; Str "East";
          Str "Widget"; Num 10; Num 10; Num 100; Num 20; float64 (1 # 5) ] ].
Proof.
  split; [|by vm_compute].
  intros df ir Hin Hout. unfold drop_duplicates in *; cbn [rows columns] in *.
  destruct (keep_first_represented (columns df) [] _ _ Hin)
    as [H|[(r & [] & _)|(jr & Hj & Heq)]]; [done|].
  exists jr. split; [done|]. intros c Hc.
  unfold row_eqb in Heq. rewrite forallb_forall in Heq.
  apply Heq. by apply list_elem_of_In.
Qed.

(** ** The report *)

Lemma value_eqb_canon a b : value_eqb a b = true ↔ canon a = canon b.
Proof.
  destruct a as [|s|p|x|s], b as [|t|q|y|t]; simpl; try done.
  - rewrite String.eqb_eq. split; congruence.
  - rewrite Qeq_bool_iff, <- Qred_eq_iff. split; congruence.
  - destruct x, y; split; done.
  - rewrite bool_decide_eq_true. split; congruence.
Qed.


Lemma keys_add_to_group k x groups :
  (add_to_group k x groups).*1
  = if existsb (value_eqb k) groups.*1 then groups.*1 else groups.*1 ++ [k].
Proof.
  induction groups as [|g groups IH]; csimpl; [done|].
  destruct (value_eqb k g.1); csimpl; [done|].
  rewrite IH. by destruct (existsb (value_eqb k) groups.*1).
Qed.

Lemma keys_add_to_group_nodup k x groups :
  NoDup (canon <$> groups.*1) → NoDup (canon <$> (add_to_group k x groups).*1).
Proof.
  intros Hnd. rewrite keys_add_to_group.
  destruct (existsb (value_eqb k) groups.*1) eqn:He; [done|].
  rewrite fmap_app. apply NoDup_app. split; [done|]. split.
  - intros c (a & -> & Ha)%list_elem_of_fmap [Hc|Hc%elem_of_nil]%elem_of_cons;
      [|done].
    assert (value_eqb k a = true) as Hka by by apply value_eqb_canon.
    assert (existsb (value_eqb k) groups.*1 = true); [|congruence].
    apply existsb_exists. exists a. split; [by apply list_elem_of_In|done].
  - apply NoDup_singleton.
Qed.

Lemma keys_add_to_group_covers k x groups :
  ∃ a, In a (add_to_group k x groups).*1 ∧ value_eqb k a = true.
Proof.
  rewrite keys_add_to_group.
  destruct (existsb (value_eqb k) groups.*1) eqn:He.
  - apply existsb_exists in He as (a & ? & ?). by exists a.
  - exists k. split; [apply in_or_app; right; by left | apply value_eqb_refl].
Qed.

Lemma keys_add_to_group_mono k x groups a :
  In a groups.*1 → In a (add_to_group k x groups).*1.
Proof.
  rewrite keys_add_to_group.
  destruct (existsb (value_eqb k) groups.*1); [done|].
  intros. apply in_or_app. by left.
Qed.

Lemma keys_add_to_group_from k x groups a :
  In a (add_to_group k x groups).*1 → In a groups.*1 ∨ a = k.
Proof.
  rewrite keys_add_to_group.
  destruct (existsb (value_eqb k) groups.*1); [by left|].
  intros [?|[<-|[]]]%in_app_or; [by left | by right].
Qed.

Lemma total_of_add_to_group k' k x groups :
  (total_of k' (add_to_group k x groups)
   == total_of k' groups + (if value_eqb k k' then x else 0))%Q.
Proof.
  unfold total_of. induction groups as [|g groups IH]; simpl.
  - rewrite (value_eqb_sym k' k). destruct (value_eqb k k'); simpl; ring.
  - destruct (value_eqb k g.1) eqn:Hkg; simpl.
    + destruct (value_eqb k' g.1) eqn:Hk'g.
      * rewrite (value_eqb_trans k g.1 k'); [reflexivity | done |].
        by rewrite value_eqb_sym.
      * destruct (value_eqb k k') eqn:Hkk'; [|ring].
        rewrite value_eqb_sym in Hkk'.
        by rewrite (value_eqb_trans k' k g.1) in Hk'g.
    + destruct (value_eqb k' g.1) eqn:Hk'g; [|apply IH].
      destruct (value_eqb k k') eqn:Hkk'; [|ring].
      by rewrite (value_eqb_trans k k' g.1) in Hkg.
Qed.

Lemma total_of_In groups p x :
  NoDup (canon <$> groups.*1) → In (p, x) groups → total_of p groups = x.
Proof.
  unfold total_of. induction groups as [|g groups IH]; csimpl; [done|].
  intros [Hg Hnd]%NoDup_cons [->|Hin]; simpl.
  - by rewrite value_eqb_refl.
  - destruct (value_eqb p g.1) eqn:Hp; [|by apply IH].
    exfalso. apply Hg. apply value_eqb_canon in Hp as <-.
    apply list_elem_of_fmap. exists p. split; [done|].
    apply list_elem_of_fmap. exists (p, x). split; [done|].
    by apply list_elem_of_In.
Qed.

Section Grouping.

Variables key agg : string.

Local Abbreviation step :=
  (λ (groups : list (value * Q)) (r : Row),
     add_to_group (get r key) (as_real (get r agg)) groups).

Lemma group_fold_nodup table groups :
  NoDup (canon <$> groups.*1) →
  NoDup (canon <$> (fold_left step table groups).*1).
Proof.
  revert groups. induction table as [|r table IH]; intros groups Hnd; simpl;
    [done|].
  apply IH. by apply keys_add_to_group_nodup.
Qed.

Lemma group_fold_mono table groups a :
  In a groups.*1 → In a (fold_left step table groups).*1.
Proof.
  revert groups. induction table as [|r table IH]; intros groups Hin; simpl;
    [done|].
  apply IH. by apply keys_add_to_group_mono.
Qed.

Lemma group_fold_covers table groups r :
  In r table →
  ∃ a, In a (fold_left step table groups).*1 ∧ value_eqb (get r key) a = true.
Proof.
  revert groups. induction table as [|r' table IH]; intros groups; simpl; [done|].
  intros [->|Hin]; [|by apply IH].
  destruct (keys_add_to_group_covers (get r key) (as_real (get r agg)) groups)
    as (a & Ha & Heq).
  exists a. split; [|done]. by apply group_fold_mono.
Qed.

Lemma group_fold_from table groups a :
  In a (fold_left step table groups).*1 →
  In a groups.*1 ∨ ∃ r, In r table ∧ a = get r key.
Proof.
  revert groups. induction table as [|r table IH]; intros groups; simpl;
    [by left|].
  intros [[H| ->]%keys_add_to_group_from|(r' & ? & ?)]%IH.
  - by left.
  - right. exists r. split; [by left|done].
  - right. exists r'. split; [by right|done].
Qed.

Lemma group_fold_total table groups k :
  (total_of k (fold_left step table groups)
   == total_of k groups + sum_where key agg k table)%Q.
Proof.
  revert groups. induction table as [|r table IH]; intros groups.
  - unfold sum_where; simpl. ring.
  - cbn [fold_left]. rewrite IH, total_of_add_to_group.
    unfold sum_where; simpl.
    destruct (value_eqb (get r key) k); simpl; ring.
Qed.

(** What [group_sum] returns: one group per key, with the sum of its rows. *)
Lemma group_sum_spec table :
  NoDup (canon <$> (group_sum key agg table).*1)
  ∧ (∀ r, In r table →
       ∃ g, In g (group_sum key agg table) ∧ value_eqb (get r key) g.1 = true)
  ∧ ∀ g, In g (group_sum key agg table) →
      (∃ r, In r table ∧ g.1 = get r key)
      ∧ (g.2 == sum_where key agg g.1 table)%Q.
Proof.
  unfold group_sum. split; [|split].
  - apply group_fold_nodup. constructor.
  - intros r Hr. destruct (group_fold_covers table [] r Hr) as (a & Ha & Heq).
    apply in_map_iff in Ha as (g & <- & Hg). by exists g.
  - intros [p x] Hg. split.
    + destruct (group_fold_from table [] p) as [[]|H]; [|done].
      apply in_map_iff. by exists (p, x).
    + simpl.
      rewrite <- (total_of_In (fold_left step table []) p x);
        [|apply group_fold_nodup; constructor|done].
      rewrite group_fold_total. unfold total_of; simpl. ring.
Qed.

End Grouping.

Lemma insert_desc_perm x l : Permutation (insert_desc x l) (x :: l).
Proof.
  induction l as [|y l IH]; simpl; [done|].
  destruct (Qle_bool y.2 x.2); [done|]. rewrite IH. apply perm_swap.
Qed.

Lemma order_by_desc_perm l : Permutation (order_by_desc l) l.
Proof.
  induction l as [|x l IH]; simpl; [done|].
  rewrite insert_desc_perm. by constructor.
Qed.

Lemma insert_desc_sorted x l :
  Sorted descending l → Sorted descending (insert_desc x l).
Proof.
  induction 1 as [|y l Hs IH Hhd]; simpl.
  - repeat constructor.
  - destruct (Qle_bool y.2 x.2) eqn:Hc.
    + constructor; [by constructor|]. constructor. by apply Qle_bool_iff.
    + constructor; [done|].
      assert (descending y x) as Hyx.
      { unfold descending. apply Qnot_lt_le. intros Hlt.
        apply Qlt_le_weak, Qle_bool_iff in Hlt. congruence. }
      destruct l as [|z l]; simpl in *; [by constructor|].
      destruct (Qle_bool z.2 x.2); constructor; try done. by inversion Hhd.
Qed.

Lemma order_by_desc_sorted l : Sorted descending (order_by_desc l).
Proof.
  induction l as [|x l IH]; simpl; [constructor|]. by apply insert_desc_sorted.
Qed.


Lemma sqlite_round_comp x y d : (x == y)%Q → sqlite_round x d = sqlite_round y d.
Proof.
  intros Hxy. unfold sqlite_round.
  assert (Qle_bool 0 x = Qle_bool 0 y) as ->.
  { apply eq_true_iff_eq. rewrite !Qle_bool_iff. by rewrite Hxy. }
  assert (Qfloor (Qabs x * pow10 d + (1 # 2)) = Qfloor (Qabs y * pow10 d + (1 # 2)))
    as ->; [|done].
  apply Qfloor_comp. by rewrite Hxy.
Qed.




(** * The properties at sample inputs *)

Lemma transform_csv_mixed :
  transform to_datetime_iso to_numeric_decimal mixed_frame
  = ((transform_csv mixed_frame).1, inr (returned mixed_frame)).
Proof. by vm_compute. Defined.

Lemma first_row_In df : (0 < len df)%nat → In (first_row df) (rows df).
Proof.
  unfold first_row, len. destruct (rows df); simpl; [lia | by left].
Defined.

Lemma transform_csv_unordered :
  transform to_datetime_iso to_numeric_decimal unordered_frame
  = ((transform_csv unordered_frame).1, inr (returned unordered_frame)).
Proof. by vm_compute. Defined.

(** The records of [unordered_frame]: by date, then region, then product;
    the two rows of the key (5 January, East, Widget) in their input
    order. *)
Lemma unordered_frame_records :
  map (λ r, take 5 r ++ [nth 5 r NA]) (to_records (returned unordered_frame))
  = [ [ Datetime (mkTimestamp 2024 1 5 0); Num 2024; Num 1; Str "East";
        Str "Widget"; Num 2 ];
      [ Datetime (mkTimestamp 2024 1 5 0); Num 2024; Num 1; Str "East";
        Str "Widget"; Num 1 ];
      [ Datetime (mkTimestamp 2024 1 5 0); Num 2024; Num 1; Str "West";
        Str "Gadget"; Num 4 ];
      [ Datetime (mkTimestamp 2024 1 5 0); Num 2024; Num 1; Str "West";
        Str "Widget"; Num 5 ];
      [ Datetime (mkTimestamp 2024 2 1 0); Num 2024; Num 2; Str "East";
        Str "Gadget"; Num 3 ] ].
Proof. by vm_compute. Qed.

Lemma first_row_mixed :
  In (first_row (returned mixed_frame)) (rows (returned mixed_frame)).
Proof. apply first_row_In. vm_compute. lia. Defined.

Lemma transform_records_valid_witness :
  (∀ c, c ∈ ["date"; "product"; "quantity"; "sales"; "profit"] →
        get (first_row (returned mixed_frame)).2 c ≠ NA)
  ∧ positive (get (first_row (returned mixed_frame)).2 "quantity")
  ∧ positive (get (first_row (returned mixed_frame)).2 "sales").
Proof.
  exact (transform_records_valid to_datetime_iso to_numeric_decimal
           mixed_frame _ _ _ transform_csv_mixed first_row_mixed).
Defined.



(** The records of [rounding_frame]: 0.575 / 1 comes out as 0.57 and
    0.00015 / 1 as 0.0001, as float64 has them, where rounding the decimal
    fractions themselves half to even would give 0.58 and 0.0002. *)
Lemma rounding_frame_records :
  to_records (returned rounding_frame)
  = [ [ Datetime (mkTimestamp 2024 1 5 0); Num 2024; Num 1; Str "East";
        Str "Widget"; Num 1; float64 (57 # 100); float64 (575 # 1000);
        float64 (1 # 10); float64 (1739 # 10000) ];
      [ Datetime (mkTimestamp 2024 1 6 0); Num 2024; Num 1; Str "East";
        Str "Gadget"; Num 3; float64 (33 # 100); Num 1;
        float64 (15 # 100000); float64 (1 # 10000) ] ].
Proof. by vm_compute. Qed.


Lemma no_zero_divisor_witness :
  returned mixed_frame
  = order_columns (add_derived_fields (sanitized_csv mixed_frame))
  ∧ (∀ ir, In ir (rows (clean_values (coerced_csv mixed_frame))) →
       nonpositive (get ir.2 "quantity") ∨ nonpositive (get ir.2 "sales") →
       ¬ In ir (rows (sanitized_csv mixed_frame)))
  ∧ (∀ ir, In ir (rows (clean_values (coerced_csv mixed_frame))) →
       zero (get ir.2 "quantity") → ¬ In ir (rows (sanitized_csv mixed_frame)))
  ∧ ∀ ir, In ir (rows (sanitized_csv mixed_frame)) →
      positive (get ir.2 "quantity") ∧ positive (get ir.2 "sales")
      ∧ ¬ zero (get ir.2 "quantity") ∧ ¬ zero (get ir.2 "sales")
      ∧ (∀ s q, get ir.2 "sales" = Num s → get ir.2 "quantity" = Num q →
           truediv (get ir.2 "sales") (get ir.2 "quantity") = float64 (s / q))
      ∧ (∀ m s, get ir.2 "profit" = Num m → get ir.2 "sales" = Num s →
           truediv (get ir.2 "profit") (get ir.2 "sales") = float64 (m / s)).
Proof.
  exact (no_zero_divisor to_datetime_iso to_numeric_decimal
           mixed_frame _ _ transform_csv_mixed).
Defined.

Lemma output_projected_sorted_witness :
  columns (returned unordered_frame) = cols
  ∧ (∀ ir c, In ir (rows (returned unordered_frame)) → c ∉ cols →
       ir.2 !! c = None)
  ∧ (∀ ir, In ir (rows (returned unordered_frame)) → ∃ k, has_key ir.2 k)
  ∧ (∀ i j a b, (i < j)%nat →
       rows (returned unordered_frame) !! i = Some a →
       rows (returned unordered_frame) !! j = Some b → in_order a.2 b.2)
  ∧ Permutation (map snd (rows (returned unordered_frame)))
      (map snd (rows (getitem cols
                        (add_derived_fields (sanitized_csv unordered_frame)))))
  ∧ (∀ k, List.filter (keyed k) (map snd (rows (returned unordered_frame)))
          = List.filter (keyed k)
              (map snd (rows (getitem cols
                                (add_derived_fields
                                   (sanitized_csv unordered_frame))))))
  ∧ map fst (rows (returned unordered_frame))
    = seq 0 (len (returned unordered_frame)).
Proof.
  exact (output_projected_sorted to_datetime_iso to_numeric_decimal
           unordered_frame _ _ transform_csv_unordered).
Defined.

Lemma dropped_count_witness :
  ∃ n,
    (transform_csv mixed_frame).1
    = [StartingTransform; DroppedBadRows n;
       TransformComplete (len (returned mixed_frame))]
    ∧ n = (Z.of_nat (len (spec_remove_duplicates
                            (spec_fill_region (coerced_csv mixed_frame))))
           - Z.of_nat (len (spec_sanitize (coerced_csv mixed_frame))))%Z
    ∧ (0 ≤ n)%Z
    ∧ (n ≤ Z.of_nat (length (raw_rows mixed_frame))
           - Z.of_nat (len (spec_sanitize (coerced_csv mixed_frame))))%Z.
Proof.
  exact (dropped_count to_datetime_iso to_numeric_decimal
           mixed_frame _ _ transform_csv_mixed).
Defined.

(** The count logged on two identical rows is 0, although one of the two
    input rows is gone after step 4. *)
Lemma dropped_count_skips_duplicates :
  (transform_csv duplicate_frame).1
  = [StartingTransform; DroppedBadRows 0; TransformComplete 1]
  ∧ (Z.of_nat (length (raw_rows duplicate_frame))
     - Z.of_nat (len (sanitized_csv duplicate_frame)) = 1)%Z
  ∧ ¬ In (DroppedBadRows
            (Z.of_nat (length (raw_rows duplicate_frame))
             - Z.of_nat (len (sanitized_csv duplicate_frame))))
         (transform_csv duplicate_frame).1.
Proof.
  split; [by vm_compute|]. split; [by vm_compute|].
  vm_compute. intros [H|[H|[H|[]]]]; discriminate H.
Qed.

Lemma first_row_blank :
  In (first_row (sanitized_csv blank_region_frame))
     (rows (drop_bad_rows (clean_values (coerced_csv blank_region_frame)))).
Proof.
  apply (first_row_In (sanitized_csv blank_region_frame)). vm_compute. lia.
Defined.

Lemma region_fill_exact_witness :
  ∃ r0, In ((first_row (sanitized_csv blank_region_frame)).1, r0)
           (rows (coerced_csv blank_region_frame))
    ∧ (∀ c, c ≠ "region" →
            get (first_row (sanitized_csv blank_region_frame)).2 c = get r0 c)
    ∧ (get (first_row (sanitized_csv blank_region_frame)).2 "region"
       ≠ get r0 "region" →
       (get r0 "region" = NA ∨ get r0 "region" = Str "")
       ∧ get (first_row (sanitized_csv blank_region_frame)).2 "region"
         = Str "Unknown")
    ∧ (∀ s, get r0 "region" = Str s → whitespace_only s →
            get (first_row (sanitized_csv blank_region_frame)).2 "region" = Str s).
Proof.
  exact (region_fill_exact (coerced_csv blank_region_frame) _ first_row_blank).
Defined.

(** The blank region of [blank_region_frame] is still a blank in the frame
    [transform] returns. *)
Lemma blank_region_returned :
  column "region" (returned blank_region_frame) = [Str " "]
  ∧ whitespace_only " ".
Proof. split; [by vm_compute|]. split; [done | by vm_compute]. Qed.





(** * Further properties of [transform] *)

Lemma pow10_pos d : (0 < pow10 d)%Q.
Proof.
  unfold pow10. change 0%Q with (inject_Z 0). rewrite <- Zlt_Qlt.
  apply Z.pow_pos_nonneg; lia.
Qed.

Lemma rint_nonneg x : (0 <= x)%Q → (0 ≤ rint x)%Z.
Proof.
  intros Hx. unfold rint.
  assert (0 ≤ Qfloor x)%Z as Hf.
  { change 0%Z with (Qfloor 0). by apply Qfloor_resp_le. }
  destruct (x - inject_Z (Qfloor x) ?= 1 # 2)%Q; [|lia..].
  destruct (Z.even (Qfloor x)); lia.
Qed.

Lemma rint_nonpos x : (x <= 0)%Q → (rint x ≤ 0)%Z.
Proof.
  intros Hx. unfold rint.
  assert (Qfloor x ≤ 0)%Z as Hf.
  { change 0%Z with (Qfloor 0). by apply Qfloor_resp_le. }
  destruct (decide (Qfloor x = 0%Z)) as [H0|Hne].
  - rewrite H0.
    assert (x == 0)%Q as Hx0.
    { apply Qle_antisym; [done|]. pose proof (Qfloor_le x) as Hle.
      by rewrite H0 in Hle. }
    assert ((x - inject_Z 0 ?= 1 # 2)%Q = Lt) as ->; [|done].
    rewrite Hx0. done.
  - destruct (x - inject_Z (Qfloor x) ?= 1 # 2)%Q; [|lia..].
    destruct (Z.even (Qfloor x)); lia.
Qed.

(** The sign of a float64 result is the sign of the exact result. *)
Lemma nearest_nonneg x : (0 <= x)%Q → (0 <= nearest x)%Q.
Proof.
  intros Hx. unfold nearest. destruct (Qeq_bool x 0); [done|].
  set (ulp := (2 ^ _)%Q).
  assert (0 < ulp)%Q as Hu by (by apply Qpower_0_lt).
  rewrite Qred_correct. apply Qmult_le_0_compat; [|by apply Qlt_le_weak].
  change 0%Q with (inject_Z 0). rewrite <- Zle_Qle. apply rint_nonneg.
  apply Qmult_le_0_compat; [done|]. by apply Qinv_le_0_compat, Qlt_le_weak.
Qed.

Lemma nearest_nonpos x : (x <= 0)%Q → (nearest x <= 0)%Q.
Proof.
  intros Hx. unfold nearest. destruct (Qeq_bool x 0); [done|].
  set (ulp := (2 ^ _)%Q).
  assert (0 < ulp)%Q as Hu by (by apply Qpower_0_lt).
  rewrite Qred_correct. rewrite <- (Qmult_0_l ulp).
  apply Qmult_le_compat_r; [|by apply Qlt_le_weak].
  change 0%Q with (inject_Z 0). rewrite <- Zle_Qle. apply rint_nonpos.
  rewrite <- (Qmult_0_l (/ ulp)).
  apply Qmult_le_compat_r; [done|]. by apply Qinv_le_0_compat, Qlt_le_weak.
Qed.

Lemma float64_not_negative x : (0 <= x)%Q → ¬ negative (float64 x).
Proof.
  intros Hx%nearest_nonneg. unfold float64.
  destruct (Qle_bool _ _); simpl.
  - apply Qle_bool_iff in Hx. by rewrite Hx.
  - by apply Qle_not_lt.
Qed.

Lemma float64_not_positive x : (x <= 0)%Q → ¬ positive (float64 x).
Proof.
  intros Hx%nearest_nonpos. unfold float64.
  destruct (Qle_bool (2 ^ 1024) _) eqn:Hbig; simpl.
  - destruct (Qle_bool 0 (nearest x)) eqn:H0; [|done]. exfalso.
    apply Qle_bool_iff in H0, Hbig.
    assert (nearest x == 0)%Q as Hz by (by apply Qle_antisym).
    rewrite Hz in Hbig. by vm_compute in Hbig.
  - by apply Qle_not_lt.
Qed.

Lemma round_not_negative v d : ¬ negative v → ¬ negative (round v d).
Proof.
  destruct v as [| |x| |]; try done. simpl. intros Hx%Qnot_lt_le.
  unfold around.
  assert (0 <= x * pow10 d)%Q as Hxd.
  { apply Qmult_le_0_compat; [done|]. apply Qlt_le_weak, pow10_pos. }
  pose proof (float64_not_negative (x * pow10 d) Hxd) as H.
  destruct (float64 (x * pow10 d)) as [| |y| |] eqn:Hf; cbv beta iota;
    [by simpl..| |done|by simpl].
  apply float64_not_negative.
  assert (0 <= y)%Q as Hy by (by apply Qnot_lt_le).
  apply Qmult_le_0_compat.
  - change 0%Q with (inject_Z 0). rewrite <- Zle_Qle. by apply rint_nonneg.
  - apply Qinv_le_0_compat, Qlt_le_weak, pow10_pos.
Qed.

Lemma round_not_positive v d : ¬ positive v → ¬ positive (round v d).
Proof.
  destruct v as [| |x| |]; try done. simpl. intros Hx%Qnot_lt_le.
  unfold around.
  assert (x * pow10 d <= 0)%Q as Hxd.
  { rewrite <- (Qmult_0_l (pow10 d)).
    apply Qmult_le_compat_r; [done|]. apply Qlt_le_weak, pow10_pos. }
  pose proof (float64_not_positive (x * pow10 d) Hxd) as H.
  destruct (float64 (x * pow10 d)) as [| |y| |] eqn:Hf; cbv beta iota;
    [by simpl..| |done|by simpl].
  apply float64_not_positive.
  assert (y <= 0)%Q as Hy by (by apply Qnot_lt_le).
  rewrite <- (Qmult_0_l (/ pow10 d)).
  apply Qmult_le_compat_r.
  - change 0%Q with (inject_Z 0). rewrite <- Zle_Qle. by apply rint_nonpos.
  - apply Qinv_le_0_compat, Qlt_le_weak, pow10_pos.
Qed.

Lemma len_order_columns df : len (order_columns df) = len df.
Proof.
  unfold order_columns. rewrite len_reset_index.
  unfold len, sort_values, getitem; cbn [rows].
  by rewrite (Permutation_length (sort_rows_perm _ _)), length_map.
Qed.

Lemma len_add_derived_fields df : len (add_derived_fields df) = len df.
Proof.
  unfold len, add_derived_fields, assign; cbn [rows]. by rewrite !length_map.
Qed.

Section Further.

Variable to_datetime : list value → value → option Timestamp.
Variable to_numeric : value → option Q.

Local Abbreviation coerced := (coerced to_datetime to_numeric).
Local Abbreviation sanitized := (sanitized to_datetime to_numeric).
Local Abbreviation transform := (transform to_datetime to_numeric).

(** X1. The frame [transform] returns has as many rows as are left by the
    removal of bad rows, never more than the input, and the last log record
    reports that number: the later stages neither add nor remove rows. *)
Theorem transform_row_counts raw log out :
  transform raw = (log, inr out) →
  len out = len (sanitized raw)
  ∧ (len out ≤ len (clean_values (coerced raw)))%nat
  ∧ (len out ≤ length (raw_rows raw))%nat
  ∧ last log = Some (TransformComplete (len (sanitized raw))).
Proof.
  intros (_ & -> & ->)%transform_returns.
  rewrite len_order_columns, len_add_derived_fields.
  pose proof (len_clean_values (coerced raw)) as H1.
  pose proof (len_drop_bad_rows (clean_values (coerced raw))) as H2.
  rewrite len_coerced in H1.
  change (drop_bad_rows (clean_values (coerced raw))) with (sanitized raw) in H2.
  repeat split; try done; lia.
Qed.

(** X2. In every record [transform] returns, [year] and [month] are the
    calendar year and month of the record's own [date]. *)
Theorem year_month_of_date raw log out ir :
  transform raw = (log, inr out) → In ir (rows out) →
  ∃ t, get ir.2 "date" = Datetime t
    ∧ get ir.2 "year" = Num (inject_Z (year t))
    ∧ get ir.2 "month" = Num (inject_Z (month t)).
Proof.
  intros Ht Hin.
  destruct (output_row _ _ _ _ _ _ Ht Hin)
    as (t & g & p & q & s & m & Hd & _ & _ & _ & _ & _ & _ & _ & Hy & Hm & _).
  by exists t.
Qed.

(** X3. In every record [transform] returns, [unit_price] is not a negative
    number, [profit_margin] is not negative when [profit] is not, and
    [profit_margin] is not positive when [profit] is not: rounding to
    float64 and to decimals keeps the sign of the quotient. *)
Theorem derived_fields_sign raw log out ir :
  transform raw = (log, inr out) → In ir (rows out) →
  ¬ negative (get ir.2 "unit_price")
  ∧ (¬ negative (get ir.2 "profit") → ¬ negative (get ir.2 "profit_margin"))
  ∧ (¬ positive (get ir.2 "profit") → ¬ positive (get ir.2 "profit_margin")).
Proof.
  intros Ht Hin.
  destruct (output_row _ _ _ _ _ _ Ht Hin)
    as (t & g & p & q & s & m & _ & _ & _ & _ & _ & Hm & Hq0 & Hs0 & _ & _
        & Hu & Hpm).
  rewrite Hu, Hpm, Hm. simpl.
  split; [|split].
  - apply round_not_negative, float64_not_negative.
    apply Qmult_le_0_compat; [by apply Qlt_le_weak|].
    by apply Qinv_le_0_compat, Qlt_le_weak.
  - intros Hm0%Qnot_lt_le. apply round_not_negative, float64_not_negative.
    apply Qmult_le_0_compat; [done|]. by apply Qinv_le_0_compat, Qlt_le_weak.
  - intros Hm0%Qnot_lt_le. apply round_not_positive, float64_not_positive.
    rewrite <- (Qmult_0_l (/ s)).
    apply Qmult_le_compat_r; [done|]. by apply Qinv_le_0_compat, Qlt_le_weak.
Qed.
End Further.

(** ** Duplicates and the region after cleaning *)

Lemma fill_region_text og :
  ∃ g, replace "" "Unknown" (fillna (Str "Unknown") (box og)) = Str g ∧ g ≠ "".
Proof.
  destruct og as [s|]; simpl; [|by exists "Unknown"].
  destruct (String.eqb s "") eqn:He; [by exists "Unknown"|].
  exists s. split; [done|]. by apply String.eqb_neq.
Qed.

Lemma fill_region_idem v :
  replace "" "Unknown"
    (fillna (Str "Unknown") (replace "" "Unknown" (fillna (Str "Unknown") v)))
  = replace "" "Unknown" (fillna (Str "Unknown") v).
Proof.
  rewrite !fill_region_cases. by destruct v as [|[|a s]| | |].
Qed.

Lemma keep_first_distinct cs seen rs :
  ForallOrdPairs (λ a b, row_eqb cs a.2 b.2 = false) (keep_first cs seen rs)
  ∧ ∀ ir r, In ir (keep_first cs seen rs) → In r seen → row_eqb cs ir.2 r = false.
Proof.
  revert seen. induction rs as [|jr rs IH]; intros seen; simpl.
  - split; [constructor | done].
  - destruct (existsb (row_eqb cs jr.2) seen) eqn:He; [apply IH|].
    destruct (IH (jr.2 :: seen)) as [Hfop Hseen]. split.
    + constructor; [|done]. apply Forall_forall. intros b Hb%list_elem_of_In.
      rewrite row_eqb_sym. apply (Hseen b jr.2 Hb). by left.
    + intros ir r [<-|Hin] Hr.
      * destruct (row_eqb cs jr.2 r) eqn:Hjr; [|done].
        assert (existsb (row_eqb cs jr.2) seen = true); [|congruence].
        apply existsb_exists. by exists r.
      * apply (Hseen ir r Hin). by right.
Qed.

Lemma keep_first_id cs seen rs :
  ForallOrdPairs (λ a b, row_eqb cs a.2 b.2 = false) rs →
  (∀ ir r, In ir rs → In r seen → row_eqb cs ir.2 r = false) →
  keep_first cs seen rs = rs.
Proof.
  revert seen. induction rs as [|jr rs IH]; intros seen Hfop Hseen; simpl;
    [done|].
  inversion Hfop as [|? ? Hhd Htl]; subst.
  assert (existsb (row_eqb cs jr.2) seen = false) as ->.
  { apply not_true_is_false. intros (r & Hr & He)%existsb_exists.
    rewrite (Hseen jr r) in He; [done | by left | done]. }
  f_equal. apply IH; [done|]. intros ir r Hin [<-|Hr].
  - rewrite row_eqb_sym. rewrite Forall_forall in Hhd.
    by apply Hhd, list_elem_of_In.
  - apply Hseen; [by right | done].
Qed.

Lemma ForallOrdPairs_filter {A} (R : A → A → Prop) (f : A → bool) l :
  ForallOrdPairs R l → ForallOrdPairs R (List.filter f l).
Proof.
  induction 1 as [|a l Hhd Htl IH]; simpl; [constructor|].
  destruct (f a); [|done]. constructor; [|done].
  rewrite Forall_forall in Hhd |- *.
  intros b Hb%list_elem_of_In%filter_In. apply Hhd, list_elem_of_In. tauto.
Qed.

Lemma filter_all {A} (f : A → bool) l :
  (∀ a, In a l → f a = true) → List.filter f l = l.
Proof.
  induction l as [|a l IH]; simpl; [done|]. intros H.
  rewrite (H a) by by left. f_equal. apply IH. intros b Hb. apply H. by right.
Qed.

Lemma not_forall_in_exists {A} (f : A → bool) l :
  ¬ (∀ a, In a l → f a = true) → ∃ a, In a l ∧ f a ≠ true.
Proof.
  induction l as [|a l IH]; intros H.
  - exfalso. apply H. by intros ? [].
  - destruct (f a) eqn:Hf.
    + destruct IH as (b & Hb & Hfb).
      { intros Hall. apply H. intros b [<-|Hb]; [done | by apply Hall]. }
      exists b. split; [by right | done].
    + exists a. split; [by left | congruence].
Qed.

Lemma region_in_columns_clean df : "region" ∈ columns (clean_values df).
Proof.
  unfold clean_values, drop_duplicates, assign; cbn [columns].
  case_bool_decide; [done|]. apply elem_of_app. right. by left.
Qed.

Lemma cleaned_rows_distinct df :
  ForallOrdPairs
    (λ a b, row_eqb (columns (drop_bad_rows (clean_values df))) a.2 b.2 = false)
    (rows (drop_bad_rows (clean_values df))).
Proof.
  unfold drop_bad_rows, dropna, loc; cbn [rows columns].
  do 2 apply ForallOrdPairs_filter.
  unfold clean_values, drop_duplicates; cbn [rows columns].
  apply keep_first_distinct.
Qed.

(** X4. After the cleaning steps no two rows of the frame are equal on every
    column: whichever two rows are taken, the earlier and the later differ in
    the cell of some column of the frame. *)
Theorem cleaned_rows_pairwise_distinct df i j a b :
  (i < j)%nat →
  rows (drop_bad_rows (clean_values df)) !! i = Some a →
  rows (drop_bad_rows (clean_values df)) !! j = Some b →
  ∃ c, c ∈ columns (drop_bad_rows (clean_values df))
       ∧ value_eqb (get a.2 c) (get b.2 c) = false.
Proof.
  intros Hij Ha Hb.
  pose proof (cleaned_rows_distinct df) as Hfop.
  assert (row_eqb (columns (drop_bad_rows (clean_values df))) a.2 b.2 = false)
    as Hne.
  { revert i j Hij Ha Hb.
    induction Hfop as [|x l Hhd Htl IH]; intros i j Hij Ha Hb; [done|].
    destruct i as [|i], j as [|j]; try lia; simpl in *.
    - injection Ha as <-. rewrite Forall_forall in Hhd.
      by eapply Hhd, list_elem_of_lookup_2.
    - apply (IH i j); [lia | done..]. }
  unfold row_eqb in Hne.
  apply not_true_iff_false in Hne. rewrite forallb_forall in Hne.
  apply not_forall_in_exists in Hne as (c & Hc & Hv).
  exists c. split; [by apply list_elem_of_In|]. by apply not_true_is_false.
Qed.

(** X5. Running the cleaning steps a second time changes nothing. *)
Theorem cleaning_idempotent df :
  drop_bad_rows (clean_values (drop_bad_rows (clean_values df)))
  = drop_bad_rows (clean_values df).
Proof.
  set (X := drop_bad_rows (clean_values df)).
  assert (columns X = columns (clean_values df)) as Hcols by done.
  assert ("region" ∈ columns X) as Hreg.
  { rewrite Hcols. apply region_in_columns_clean. }
  assert (assign "region"
            (λ r, replace "" "Unknown" (fillna (Str "Unknown") (get r "region"))) X
          = X) as Hfill.
  { unfold assign. rewrite bool_decide_eq_true_2 by done.
    destruct X as [cs rs] eqn:HX. cbn [columns rows] in *. f_equal.
    rewrite <- (map_id rs) at 2. apply map_ext_in. intros ir Hin.
    assert (In ir (rows (drop_bad_rows (clean_values df)))) as Hin'.
    { fold X. by rewrite HX. }
    apply drop_bad_rows_row in Hin' as (Hin' & _).
    apply clean_values_row in Hin' as (r0 & _ & Hr).
    destruct ir as [i r]; cbn [fst snd] in *. f_equal. rewrite Hr.
    rewrite get_insert_eq, fill_region_idem. apply insert_insert_eq. }
  assert (clean_values X = X) as Hclean.
  { unfold clean_values. rewrite Hfill. unfold drop_duplicates.
    rewrite keep_first_id; [by destruct X | apply (cleaned_rows_distinct df) | done]. }
  rewrite Hclean.
  assert (∀ ir, In ir (rows X) →
            forallb (λ c, notna (get ir.2 c))
              ["date"; "product"; "quantity"; "sales"; "profit"] = true
            ∧ gt (get ir.2 "quantity") 0 && gt (get ir.2 "sales") 0 = true)
    as Hok.
  { intros ir (_ & H1 & H2 & H3)%drop_bad_rows_row. split; [done|].
    by rewrite H2, H3. }
  unfold drop_bad_rows, dropna, loc; cbn [columns rows].
  rewrite (filter_all _ (rows X)) by (intros; by apply Hok).
  rewrite (filter_all _ (rows X)) by (intros; by apply Hok).
  by destruct X.
Qed.

(** ** Where the returned records come from *)

Ltac in_list := apply list_elem_of_In; simpl; tauto.

Lemma row_eqb_refl cs r : row_eqb cs r r = true.
Proof.
  unfold row_eqb. apply forallb_forall. intros c _. apply value_eqb_refl.
Qed.

Lemma notna_eqb a b : value_eqb a b = true → notna a = notna b.
Proof. by destruct a, b. Qed.

Lemma gt_eqb a b k : value_eqb a b = true → gt a k = gt b k.
Proof.
  destruct a as [|s|p|x|s], b as [|t|q|y|t]; simpl; try done.
  - intros H%Qeq_bool_iff. by rewrite H.
  - by destruct x, y.
Qed.

Lemma zip_seq_In {A} (l : list A) n r :
  In r l → ∃ i, In (i, r) (zip (seq n (length l)) l).
Proof.
  revert n. induction l as [|a l IH]; intros n; simpl; [done|].
  intros [->|Hin].
  - exists n. by left.
  - destruct (IH (S n) Hin) as (i & Hi). exists i. by right.
Qed.

Lemma assign_columns_self c f df : c ∈ columns (assign c f df).
Proof.
  unfold assign; cbn [columns]. case_bool_decide; [done|].
  apply elem_of_app. right. by left.
Qed.

Lemma assign_columns_mono c c' f df :
  c ∈ columns df → c ∈ columns (assign c' f df).
Proof.
  intros Hc. unfold assign; cbn [columns]. case_bool_decide; [done|].
  apply elem_of_app. by left.
Qed.

(** Every cleaned row is carried into the frame that is returned. *)
Lemma order_columns_row_conv df jr :
  In jr (rows df) →
  ∃ ir, In ir (rows (order_columns (add_derived_fields df)))
    ∧ get ir.2 "date" = get jr.2 "date"
    ∧ get ir.2 "region" = get jr.2 "region"
    ∧ get ir.2 "product" = get jr.2 "product"
    ∧ get ir.2 "quantity" = get jr.2 "quantity"
    ∧ get ir.2 "sales" = get jr.2 "sales"
    ∧ get ir.2 "profit" = get jr.2 "profit".
Proof.
  intros Hin.
  set (derive := λ ir : nat * Row,
         (ir.1,
          <["month" := dt month (get ir.2 "date")]>
            (<["year" := dt year (get ir.2 "date")]>
               (<["profit_margin" :=
                    round (truediv (get ir.2 "profit") (get ir.2 "sales")) 4]>
                  (<["unit_price" :=
                       round (truediv (get ir.2 "sales") (get ir.2 "quantity")) 2]>
                     ir.2))))).
  assert (rows (add_derived_fields df) = map derive (rows df)) as Hrows.
  { unfold add_derived_fields, assign; cbn [rows]. rewrite !map_map.
    apply map_ext. intros [i r]. unfold derive; cbn [fst snd].
    f_equal. by get_simpl. }
  set (pick := λ ir : nat * Row,
         (ir.1, (list_to_map ((λ c, (c, get ir.2 c)) <$> cols) : Row))).
  assert (In (pick (derive jr)) (rows (getitem cols (add_derived_fields df))))
    as Hp.
  { unfold getitem; cbn [rows]. rewrite Hrows.
    apply (in_map pick), (in_map derive), Hin. }
  apply (Permutation_in _ (Permutation_sym
           (sort_rows_perm ["date"; "region"; "product"] _))) in Hp.
  apply (in_map snd) in Hp.
  destruct (zip_seq_In _ 0 _ Hp) as (i & Hi).
  rewrite length_map in Hi.
  exists (i, (pick (derive jr)).2). split; [exact Hi|].
  unfold pick, derive; cbn [fst snd].
  rewrite !get_select_elem by (apply list_elem_of_In; simpl; tauto).
  by get_simpl.
Qed.

Section Provenance.

Variable to_datetime : list value → value → option Timestamp.
Variable to_numeric : value → option Q.

Local Abbreviation coerced := (coerced to_datetime to_numeric).
Local Abbreviation sanitized := (sanitized to_datetime to_numeric).
Local Abbreviation transform := (transform to_datetime to_numeric).

(** X6. Every record [transform] returns comes from a row of the input: its
    date and its three numbers are what the coercers make of that row's
    cells, its product is that row's product, and its region is that row's
    region after the fill.  No record is made up. *)
Theorem output_provenance raw log out ir :
  transform raw = (log, inr out) → In ir (rows out) →
  ∃ i cells r0,
    In (i, cells) (raw_rows raw)
    ∧ r0 = list_to_map
             (zip (raw_columns (standardize_column_names raw)) (box <$> cells))
    ∧ get ir.2 "date"
      = of_timestamp
          (to_datetime (column "date" (frame (standardize_column_names raw)))
                       (get r0 "date"))
    ∧ get ir.2 "region"
      = replace "" "Unknown" (fillna (Str "Unknown") (get r0 "region"))
    ∧ get ir.2 "product" = get r0 "product"
    ∧ get ir.2 "quantity" = of_number (to_numeric (get r0 "quantity"))
    ∧ get ir.2 "sales" = of_number (to_numeric (get r0 "sales"))
    ∧ get ir.2 "profit" = of_number (to_numeric (get r0 "profit")).
Proof.
  intros (_ & -> & _)%transform_returns Hin.
  apply order_columns_row in Hin
    as (jr & Hin & Hd & _ & _ & Hg & Hp & Hq & _ & Hs & Hm & _).
  apply drop_bad_rows_row in Hin as (Hin & _).
  apply clean_values_row in Hin as (r1 & Hin & Hr1).
  apply coerced_row in Hin as (r00 & Hin & Jd & Js & Jq & Jm & Jrest).
  cbn [snd] in Jd, Js, Jq, Jm, Jrest.
  unfold frame in Hin; cbn [rows] in Hin.
  apply in_map_iff in Hin as ([i cells] & [= _ <-] & Hin).
  eexists i, cells, _. split; [done|]. split; [reflexivity|].
  rewrite Hd, Hg, Hp, Hq, Hs, Hm, Hr1. get_simpl.
  rewrite Jd, Js, Jq, Jm, !Jrest
    by (rewrite !not_elem_of_cons; repeat split; try done; apply not_elem_of_nil).
  done.
Qed.

Lemma output_region_text raw log out ir :
  transform raw = (log, inr out) → In ir (rows out) →
  ∃ g, get ir.2 "region" = Str g ∧ g ≠ "".
Proof.
  intros (_ & -> & _)%transform_returns Hin.
  apply order_columns_row in Hin as (jr & Hin & _ & _ & _ & Hg & _).
  apply drop_bad_rows_row in Hin as (Hin & _).
  apply clean_values_row in Hin as (r1 & Hin & Hr1).
  apply coerced_row in Hin as (r00 & Hin & _ & _ & _ & _ & Jrest).
  cbn [snd] in Jrest.
  destruct (frame_row_box _ _ "region" Hin) as [og Hog]. cbn [snd] in Hog.
  rewrite Hg, Hr1. get_simpl.
  rewrite Jrest, Hog
    by (rewrite !not_elem_of_cons; repeat split; try done; apply not_elem_of_nil).
  apply fill_region_text.
Qed.

(** X7. The region of a returned record is a text and is never empty. *)
Theorem region_never_empty raw log out ir :
  transform raw = (log, inr out) → In ir (rows out) →
  ∃ g, get ir.2 "region" = Str g ∧ g ≠ "".
Proof. apply output_region_text. Qed.

Lemma product_in_columns raw :
  missing_columns (standardize_column_names raw) = ∅ →
  "product" ∈ columns (coerced raw).
Proof.
  intros Hm. unfold coerced, coerce_numeric_columns, parse_date; cbn [fold_left].
  do 4 apply assign_columns_mono. unfold frame; cbn [columns].
  destruct (decide ("product" ∈ raw_columns (standardize_column_names raw)))
    as [|Hn]; [done|].
  assert ("product" ∈ missing_columns (standardize_column_names raw)) as Hin.
  { unfold missing_columns. apply elem_of_difference. split.
    - unfold required. set_solver.
    - by rewrite elem_of_list_to_set. }
  rewrite Hm in Hin. by apply elem_of_empty in Hin.
Qed.

Lemma source_in_columns raw c :
  missing_columns (standardize_column_names raw) = ∅ →
  c ∈ ["date"; "region"; "product"; "quantity"; "sales"; "profit"] →
  c ∈ columns (clean_values (coerced raw)).
Proof.
  intros Hm Hc. unfold clean_values, drop_duplicates; cbn [columns].
  repeat (apply elem_of_cons in Hc as [->|Hc]);
    [| | | | | | by apply elem_of_nil in Hc].
  - apply assign_columns_mono.
    unfold coerced, coerce_numeric_columns, parse_date; cbn [fold_left].
    do 3 apply assign_columns_mono. apply assign_columns_self.
  - apply assign_columns_self.
  - apply assign_columns_mono. by apply product_in_columns.
  - apply assign_columns_mono.
    unfold coerced, coerce_numeric_columns, parse_date; cbn [fold_left].
    apply assign_columns_mono. apply assign_columns_self.
  - apply assign_columns_mono.
    unfold coerced, coerce_numeric_columns, parse_date; cbn [fold_left].
    do 2 apply assign_columns_mono. apply assign_columns_self.
  - apply assign_columns_mono.
    unfold coerced, coerce_numeric_columns, parse_date; cbn [fold_left].
    apply assign_columns_self.
Qed.

(** X8. No good row is lost: a coerced row whose five required fields are
    present and whose quantity and sales are positive has a record in the
    frame [transform] returns with the same date, product, quantity, sales
    and profit, and with its region after the fill.  (Rows that agree on
    every column share one record.) *)
Theorem valid_row_represented raw log out jr :
  transform raw = (log, inr out) →
  In jr (rows (coerced raw)) →
  forallb (λ c, notna (get jr.2 c))
    ["date"; "product"; "quantity"; "sales"; "profit"] = true →
  gt (get jr.2 "quantity") 0 = true →
  gt (get jr.2 "sales") 0 = true →
  ∃ ir, In ir (rows out)
    ∧ (∀ c, c ∈ ["date"; "product"; "quantity"; "sales"; "profit"] →
            value_eqb (get ir.2 c) (get jr.2 c) = true)
    ∧ value_eqb (get ir.2 "region")
        (replace "" "Unknown" (fillna (Str "Unknown") (get jr.2 "region")))
      = true.
Proof.
  intros (Hm & -> & _)%transform_returns Hin Hna Hq Hs.
  set (fill := λ r : Row,
         replace "" "Unknown" (fillna (Str "Unknown") (get r "region"))).
  set (cs := columns (clean_values (coerced raw))).
  assert (∃ kr, In kr (rows (clean_values (coerced raw)))
                ∧ row_eqb cs (<["region" := fill jr.2]> jr.2) kr.2 = true)
    as (kr & Hkr & Heq).
  { assert (In (jr.1, <["region" := fill jr.2]> jr.2)
               (rows (assign "region" fill (coerced raw)))) as Hin'.
    { unfold assign; cbn [rows].
      apply (in_map (λ ir, (ir.1, <["region" := fill ir.2]> ir.2))), Hin. }
    destruct (keep_first_represented cs [] _ _ Hin')
      as [H|[(r & [] & _)|(kr & Hk & He)]].
    - eexists. split; [exact H|]. apply row_eqb_refl.
    - by exists kr. }
  assert (∀ c, c ∈ ["date"; "region"; "product"; "quantity"; "sales"; "profit"] →
               value_eqb (get (<["region" := fill jr.2]> jr.2) c) (get kr.2 c)
               = true) as Hcell.
  { intros c Hc. unfold row_eqb in Heq. rewrite forallb_forall in Heq.
    apply Heq, list_elem_of_In. by apply source_in_columns. }
  assert (∀ c, c ∈ ["date"; "product"; "quantity"; "sales"; "profit"] →
               value_eqb (get jr.2 c) (get kr.2 c) = true) as Hcell'.
  { intros c Hc. rewrite <- (get_insert_ne jr.2 "region" c (fill jr.2)).
    - apply Hcell. repeat (apply elem_of_cons in Hc as [->|Hc]);
        [in_list.. | by apply elem_of_nil in Hc].
    - intros <-. repeat (apply elem_of_cons in Hc as [Hc|Hc]); try done.
      by apply elem_of_nil in Hc. }
  assert (In kr (rows (sanitized raw))) as Hk.
  { apply drop_bad_rows_row. split; [done|].
    simpl in Hna. rewrite !andb_true_iff in Hna.
    destruct Hna as (N1 & N2 & N3 & N4 & N5 & _).
    split; [|split].
    - simpl.
      rewrite <- (notna_eqb _ _ (Hcell' "date" ltac:(in_list))),
        <- (notna_eqb _ _ (Hcell' "product" ltac:(in_list))),
        <- (notna_eqb _ _ (Hcell' "quantity" ltac:(in_list))),
        <- (notna_eqb _ _ (Hcell' "sales" ltac:(in_list))),
        <- (notna_eqb _ _ (Hcell' "profit" ltac:(in_list))).
      by rewrite N1, N2, N3, N4, N5.
    - by rewrite <- (gt_eqb _ _ _ (Hcell' "quantity" ltac:(in_list))).
    - by rewrite <- (gt_eqb _ _ _ (Hcell' "sales" ltac:(in_list))). }
  destruct (order_columns_row_conv _ _ Hk)
    as (ir & Hir & Jd & Jg & Jp & Jq & Js & Jm).
  exists ir. split; [done|]. split.
  - intros c Hc. rewrite value_eqb_sym.
    pose proof (Hcell' c Hc) as H.
    repeat (apply elem_of_cons in Hc as [->|Hc]);
      [by rewrite Jd | by rewrite Jp | by rewrite Jq | by rewrite Js
      | by rewrite Jm | by apply elem_of_nil in Hc].
  - rewrite Jg, value_eqb_sym.
    pose proof (Hcell "region" ltac:(in_list)) as H.
    rewrite get_insert_eq in H. exact H.
Qed.

End Provenance.

(** ** The index of the input *)

Lemma keep_first_snd cs seen rs rs' :
  map snd rs = map snd rs' →
  map snd (keep_first cs seen rs) = map snd (keep_first cs seen rs').
Proof.
  revert seen rs'. induction rs as [|ir rs IH]; intros seen [|ir' rs']; simpl;
    try done.
  intros [= Hhd Htl]. rewrite <- Hhd.
  destruct (existsb (row_eqb cs ir.2) seen); simpl.
  - by apply IH.
  - f_equal; [done|]. by apply IH.
Qed.

Lemma filter_snd (m : Row → bool) (rs rs' : list (nat * Row)) :
  map snd rs = map snd rs' →
  map snd (List.filter (λ ir, m ir.2) rs)
  = map snd (List.filter (λ ir, m ir.2) rs').
Proof.
  revert rs'. induction rs as [|ir rs IH]; intros [|ir' rs']; simpl; try done.
  intros [= Hhd Htl]. rewrite <- Hhd.
  destruct (m ir.2); simpl; [f_equal; [done|]|]; by apply IH.
Qed.

Lemma insert_row_snd by_ (ir ir' : nat * Row) l l' :
  ir.2 = ir'.2 → map snd l = map snd l' →
  map snd (insert_row by_ ir l) = map snd (insert_row by_ ir' l').
Proof.
  intros Hir. revert l'. induction l as [|jr l IH]; intros [|jr' l']; simpl;
    try done.
  - intros _. by f_equal.
  - intros [= Hhd Htl]. rewrite <- Hir, <- Hhd.
    destruct (rows_compare by_ ir.2 jr.2); simpl;
      rewrite ?Hir, ?Hhd, ?Htl; try done.
    rewrite <- Hhd. f_equal. by apply IH.
Qed.

Lemma sort_rows_snd by_ (l l' : list (nat * Row)) :
  map snd l = map snd l' →
  map snd (foldr (insert_row by_) [] l) = map snd (foldr (insert_row by_) [] l').
Proof.
  revert l'. induction l as [|ir l IH]; intros [|ir' l']; simpl; try done.
  intros [= Hhd Htl]. apply insert_row_snd; [done | by apply IH].
Qed.

Lemma same_data_len df df' : same_data df df' → len df = len df'.
Proof.
  intros [_ H]. unfold len.
  by rewrite <- (length_map snd (rows df)), H, length_map.
Qed.

Lemma same_data_assign c f f' df df' :
  same_data df df' → (∀ r, f r = f' r) →
  same_data (assign c f df) (assign c f' df').
Proof.
  intros [Hc Hr] Hf. unfold same_data, assign; cbn [columns rows].
  rewrite Hc. split; [done|].
  rewrite !(map_map _ snd); cbn [snd].
  rewrite <- !(map_map snd (λ r, <[c := f r]> r)), Hr.
  rewrite !map_map. apply map_ext. intros ir. by rewrite Hf.
Qed.

Lemma same_data_loc m df df' :
  same_data df df' → same_data (loc m df) (loc m df').
Proof.
  intros [Hc Hr]. unfold same_data, loc; cbn [columns rows].
  split; [done | by apply filter_snd].
Qed.

Lemma same_data_drop_duplicates df df' :
  same_data df df' → same_data (drop_duplicates df) (drop_duplicates df').
Proof.
  intros [Hc Hr]. unfold same_data, drop_duplicates; cbn [columns rows].
  rewrite Hc. split; [done | by apply keep_first_snd].
Qed.

Lemma same_data_column c df df' :
  same_data df df' → column c df = column c df'.
Proof.
  intros [_ Hr]. unfold column.
  rewrite <- !(map_map snd (λ r, get r c)). by rewrite Hr.
Qed.

Lemma same_data_order_columns df df' :
  same_data df df' → order_columns df = order_columns df'.
Proof.
  intros [Hc Hr]. unfold order_columns, reset_index, sort_values, getitem;
    cbn [columns rows].
  assert (map snd
            (foldr (insert_row ["date"; "region"; "product"]) []
               (map (λ ir, (ir.1, (list_to_map ((λ c, (c, get ir.2 c)) <$> cols) : Row)))
                    (rows df)))
          = map snd
              (foldr (insert_row ["date"; "region"; "product"]) []
                 (map (λ ir, (ir.1, (list_to_map ((λ c, (c, get ir.2 c)) <$> cols) : Row)))
                      (rows df')))) as Hs.
  { apply sort_rows_snd. rewrite !(map_map _ snd); cbn [snd].
    rewrite <- !(map_map snd (λ r, list_to_map ((λ c, (c, get r c)) <$> cols))).
    by rewrite Hr. }
  f_equal. rewrite Hs. f_equal.
  by rewrite <- (length_map snd), Hs, length_map.
Qed.

Section Index.

Variable to_datetime : list value → value → option Timestamp.
Variable to_numeric : value → option Q.

Local Abbreviation coerced := (coerced to_datetime to_numeric).
Local Abbreviation sanitized := (sanitized to_datetime to_numeric).
Local Abbreviation transform := (transform to_datetime to_numeric).

Lemma same_data_coerced raw raw' :
  raw_columns raw = raw_columns raw' →
  map snd (raw_rows raw) = map snd (raw_rows raw') →
  same_data (coerced raw) (coerced raw').
Proof.
  intros Hc Hr.
  assert (same_data (frame (standardize_column_names raw))
                    (frame (standardize_column_names raw'))) as Hf.
  { unfold same_data, frame, standardize_column_names, rename;
      cbn [columns rows raw_columns raw_rows].
    rewrite Hc. split; [done|].
    rewrite !(map_map _ snd); cbn [snd].
    rewrite <- !(map_map snd
      (λ cells, list_to_map
                  (zip (map (λ c, lower (strip c)) (raw_columns raw'))
                       (box <$> cells)))).
    by rewrite Hr. }
  unfold coerced, coerce_numeric_columns, parse_date; cbn [fold_left].
  repeat apply same_data_assign; try done.
  intros r. by rewrite (same_data_column "date" _ _ Hf).
Qed.

(** X9. The index labels of the input do not matter: two inputs with the
    same column labels and the same rows of cells, whatever their index
    labels, give the same log and the same result. *)
Theorem transform_ignores_index raw raw' :
  raw_columns raw = raw_columns raw' →
  map snd (raw_rows raw) = map snd (raw_rows raw') →
  transform raw = transform raw'.
Proof.
  intros Hc Hr.
  pose proof (same_data_coerced raw raw' Hc Hr) as Hco.
  assert (same_data (clean_values (coerced raw)) (clean_values (coerced raw')))
    as Hcl.
  { unfold clean_values. apply same_data_drop_duplicates.
    by apply same_data_assign. }
  assert (same_data (sanitized raw) (sanitized raw')) as Hsa.
  { unfold sanitized, drop_bad_rows, dropna. by do 2 apply same_data_loc. }
  assert (same_data (add_derived_fields (sanitized raw))
                    (add_derived_fields (sanitized raw'))) as Hde.
  { unfold add_derived_fields. by repeat apply same_data_assign. }
  assert (missing_columns (standardize_column_names raw)
          = missing_columns (standardize_column_names raw')) as Hm.
  { unfold missing_columns, standardize_column_names, rename;
      cbn [raw_columns]. by rewrite Hc. }
  assert (raw_columns (standardize_column_names raw)
          = raw_columns (standardize_column_names raw')) as Hl.
  { unfold standardize_column_names, rename; cbn [raw_columns]. by rewrite Hc. }
  destruct (decide (missing_columns (standardize_column_names raw) = ∅))
    as [He|Hne].
  - destruct (decide (NoDup (raw_columns (standardize_column_names raw))))
      as [Hu|Hu].
    + rewrite (transform_complete _ _ raw He Hu).
      rewrite Hm in He. rewrite Hl in Hu.
      rewrite (transform_complete _ _ raw' He Hu).
      rewrite (same_data_len _ _ Hcl), (same_data_len _ _ Hsa).
      by rewrite (same_data_order_columns _ _ Hde).
    + rewrite (transform_collides _ _ raw He Hu).
      rewrite Hm in He. rewrite Hl in Hu.
      by rewrite (transform_collides _ _ raw' He Hu).
  - rewrite (transform_raises _ _ raw Hne).
    rewrite Hm in Hne. rewrite (transform_raises _ _ raw' Hne). by rewrite Hm.
Qed.

End Index.

(** * Further properties of the reports *)

Lemma descending_trans a b c : descending a b → descending b c → descending a c.
Proof. unfold descending. intros Hab Hbc. by eapply Qle_trans. Qed.

Lemma StronglySorted_app_inv {A} (R : A → A → Prop) l1 l2 a b :
  StronglySorted R (l1 ++ l2) → In a l1 → In b l2 → R a b.
Proof.
  induction l1 as [|x l1 IH]; simpl; [done|].
  intros Hs [->|Ha] Hb; inversion Hs as [|? ? Htl Hhd]; subst.
  - rewrite Forall_forall in Hhd. apply Hhd, list_elem_of_In, in_or_app. by right.
  - by apply IH.
Qed.

(** X10. What the top-5 report leaves out is not larger than what it shows:
    the rounded total of a product that is not in the report is at most
    every total in the report. *)
Theorem top_5_are_the_largest table pt top :
  In pt (map (λ g, (g.1, sqlite_round g.2 2))
             (group_sum "product" "profit" table)) →
  ¬ In pt (top_5_products_by_profit table) →
  In top (top_5_products_by_profit table) →
  (pt.2 <= top.2)%Q.
Proof.
  set (totals := map _ (group_sum "product" "profit" table)).
  unfold top_5_products_by_profit. fold totals. intros Hpt Hout Htop.
  pose proof (order_by_desc_sorted totals) as Hs.
  apply Sorted_StronglySorted in Hs; [|exact descending_trans].
  rewrite <- (take_drop 5 (order_by_desc totals)) in Hs.
  apply (Permutation_in _ (Permutation_sym (order_by_desc_perm totals))) in Hpt.
  rewrite <- (take_drop 5 (order_by_desc totals)) in Hpt.
  apply in_app_or in Hpt as [Hpt|Hpt]; [done|].
  exact (StronglySorted_app_inv _ _ _ _ _ Hs Htop Hpt).
Qed.



Lemma sqlite_round_nonneg x d : (0 <= x)%Q → (0 <= sqlite_round x d)%Q.
Proof.
  intros Hx. unfold sqlite_round. rewrite Qred_correct.
  assert (Qle_bool 0 x = true) as -> by by apply Qle_bool_iff.
  apply Qmult_le_0_compat.
  - change 0%Q with (inject_Z 0). rewrite <- Zle_Qle.
    change 0%Z with (Qfloor 0). apply Qfloor_resp_le.
    apply Qle_trans with (Qabs x * pow10 d + 0)%Q.
    + rewrite Qplus_0_r. apply Qmult_le_0_compat; [apply Qabs_nonneg|].
      apply Qlt_le_weak, pow10_pos.
    + apply Qplus_le_r. done.
  - apply Qinv_le_0_compat, Qlt_le_weak, pow10_pos.
Qed.

Lemma sum_where_nonneg key agg k table :
  (∀ r, In r table → (0 <= as_real (get r agg))%Q) →
  (0 <= sum_where key agg k table)%Q.
Proof.
  intros Hall. unfold sum_where.
  induction table as [|r table IH]; simpl; [done|].
  assert (0 <= fold_right Qplus 0
                 (map (λ r, as_real (get r agg))
                      (List.filter (λ r, value_eqb (get r key) k) table)))%Q
    as IH'.
  { apply IH. intros r' Hr'. apply Hall. by right. }
  destruct (value_eqb (get r key) k); simpl; [|done].
  exact (Qplus_le_compat 0 _ 0 _ (Hall r (or_introl eq_refl)) IH').
Qed.

Section ReportsOnOutput.

Variable to_datetime : list value → value → option Timestamp.
Variable to_numeric : value → option Q.

Local Abbreviation transform := (transform to_datetime to_numeric).

(** X12. On the table [transform] produces, every row of
    [total_sales_by_region] is for a region that is a non-empty text, and its
    total is not negative. *)
Theorem region_report_on_output raw log out pt :
  transform raw = (log, inr out) →
  In pt (total_sales_by_region (to_sql out)) →
  ∃ g, pt.1 = Str g ∧ g ≠ "" ∧ (0 <= pt.2)%Q.
Proof.
  intros Ht Hpt. unfold total_sales_by_region in Hpt.
  apply (Permutation_in _ (order_by_desc_perm _)) in Hpt.
  apply in_map_iff in Hpt as (grp & <- & Hg).
  destruct (group_sum_spec "region" "sales" (to_sql out)) as (_ & _ & Hfrom).
  apply Hfrom in Hg as ((r & Hr & Hkey) & Hsum). cbn [fst snd].
  unfold to_sql in Hr. apply in_map_iff in Hr as (ir & <- & Hir).
  destruct (output_region_text _ _ _ _ _ _ Ht Hir) as (g & Hg & Hne).
  exists g. rewrite Hkey. split; [done|]. split; [done|].
  rewrite (sqlite_round_comp _ _ 2 Hsum). apply sqlite_round_nonneg.
  apply sum_where_nonneg. intros r (jr & <- & Hjr)%in_map_iff.
  destruct (output_row _ _ _ _ _ _ Ht Hjr)
    as (t & g' & p & q & s & m & _ & _ & _ & _ & Hs & _ & _ & Hs0 & _).
  rewrite Hs. simpl. by apply Qlt_le_weak.
Qed.

End ReportsOnOutput.

(** ** Grouping on several columns *)





Section GroupByFacts.

Context {A : Type}.
Variable by_ : list string.
Variable init : A.
Variable step : A → Row → A.

Local Abbreviation add := (add_row by_ init step).
Local Abbreviation key := (key_of by_).











End GroupByFacts.

(** ** Ordering by key *)















(** ** Sums and averages over a group without NULL *)





(** * The loader and [main] *)

Lemma identifier_chars_app s t :
  identifier_chars (s +:+ t) = identifier_chars s && identifier_chars t.
Proof.
  induction s as [|a s IH]; [done|].
  change (String a s +:+ t) with (String a (s +:+ t)).
  cbn [identifier_chars]. by rewrite IH, andb_assoc.
Qed.

Lemma identifier_chars_of s : identifier s = true → identifier_chars s = true.
Proof.
  destruct s as [|a s]; [done|]. cbn [identifier identifier_chars].
  intros [Ha ->]%andb_true_iff. unfold identifier_char. by rewrite Ha.
Qed.

Lemma identifier_index_name table c :
  identifier table = true → identifier_chars c = true →
  identifier (index_name table c) = true.
Proof.
  intros Ht%identifier_chars_of Hc. unfold index_name.
  change ("idx_" +:+ table +:+ "_" +:+ c)
    with (String "i" ("dx_" +:+ table +:+ "_" +:+ c)).
  cbn [identifier]. rewrite !identifier_chars_app, Ht, Hc. done.
Qed.

Lemma create_index_ok idx table column db t :
  identifier idx = true → identifier table = true →
  tables db !! table = Some t → column ∈ table_columns t →
  create_index_if_not_exists idx table column db
  = inr {| tables := tables db;
           indexes := add_index idx table column (indexes db) |}.
Proof.
  intros Hi Hn Ht Hc. unfold create_index_if_not_exists, add_index.
  rewrite Hi, Hn, Ht. cbn [andb negb].
  case_bool_decide; [by destruct db|]. by rewrite bool_decide_eq_true_2.
Qed.

(** What a statement that went through has done. *)
Lemma create_index_inr idx table column db db' :
  create_index_if_not_exists idx table column db = inr db' →
  identifier table = true
  ∧ db' = {| tables := tables db;
             indexes := add_index idx table column (indexes db) |}.
Proof.
  unfold create_index_if_not_exists, add_index.
  destruct (identifier idx); [|done]. destruct (identifier table); [|done].
  cbn [andb negb]. destruct (tables db !! table) as [t|]; [|done].
  case_bool_decide; [intros [= <-]; by destruct db|].
  case_bool_decide; [|done]. by intros [= <-].
Qed.

Lemma to_sql_replace_spec df table db :
  to_sql_replace df table db
  = {| tables := <[table := mkTable (columns df) (to_sql df)]> (tables db);
       indexes := filter (λ kv, kv.2.1 ≠ table) (indexes db) |}.
Proof.
  unfold to_sql_replace, drop_table; cbn [tables indexes].
  by rewrite insert_delete_eq.
Qed.

Lemma load_to_sqlite_ok df table db :
  identifier table = true →
  "date" ∈ columns df → "region" ∈ columns df → "product" ∈ columns df →
  load_to_sqlite df table db
  = ([LoadingIntoSqlite table; LoadComplete], loaded df table db, None).
Proof.
  intros Hn Hd Hr Hp. unfold load_to_sqlite. rewrite to_sql_replace_spec.
  rewrite (create_index_ok _ _ _ _ (mkTable (columns df) (to_sql df)));
    [|by apply identifier_index_name|done|apply lookup_insert_eq|done].
  cbn [tables indexes].
  rewrite (create_index_ok _ _ _ _ (mkTable (columns df) (to_sql df)));
    [|by apply identifier_index_name|done|apply lookup_insert_eq|done].
  cbn [tables indexes].
  rewrite (create_index_ok _ _ _ _ (mkTable (columns df) (to_sql df)));
    [|by apply identifier_index_name|done|apply lookup_insert_eq|done].
  cbn [tables indexes].
  done.
Qed.

(** A load that went through has logged its two records and left the store
    [loaded]. *)
Lemma load_to_sqlite_inv df table db log db' :
  load_to_sqlite df table db = (log, db', None) →
  identifier table = true
  ∧ log = [LoadingIntoSqlite table; LoadComplete]
  ∧ db' = loaded df table db.
Proof.
  unfold load_to_sqlite. rewrite to_sql_replace_spec.
  destruct (create_index_if_not_exists (index_name table "date") _ _ _)
    as [e|db1] eqn:H1; [done|].
  apply create_index_inr in H1 as [Hn ->]. cbn [tables indexes].
  destruct (create_index_if_not_exists (index_name table "region") _ _ _)
    as [e|db2] eqn:H2; [done|].
  apply create_index_inr in H2 as [_ ->]. cbn [tables indexes].
  destruct (create_index_if_not_exists (index_name table "product") _ _ _)
    as [e|db3] eqn:H3; [done|].
  apply create_index_inr in H3 as [_ ->]. cbn [tables indexes].
  by intros [= <- <-].
Qed.

Lemma filter_add_index idx table column (ix : gmap string (string * string)) :
  filter (λ kv, kv.2.1 ≠ table) (add_index idx table column ix)
  = filter (λ kv, kv.2.1 ≠ table) ix.
Proof.
  unfold add_index. case_bool_decide as Hin; [done|].
  rewrite map_filter_insert_False by (simpl; tauto).
  rewrite delete_id; [done|]. by apply not_elem_of_dom.
Qed.

Lemma loaded_idempotent df table db :
  loaded df table (loaded df table db) = loaded df table db.
Proof.
  unfold loaded; cbn [tables indexes]. f_equal.
  - apply insert_insert_eq.
  - rewrite !filter_add_index.
    rewrite map_filter_filter_l; [done|]. tauto.
Qed.

Lemma elem_of_dom_add_index idx table column ix :
  idx ∈ dom (add_index idx table column ix).
Proof.
  unfold add_index. case_bool_decide; [done|].
  rewrite dom_insert_L. set_solver.
Qed.

Lemma dom_add_index_mono idx idx' table column ix :
  idx ∈ dom ix → idx ∈ dom (add_index idx' table column ix).
Proof.
  intros H. unfold add_index. case_bool_decide; [done|].
  rewrite dom_insert_L. set_solver.
Qed.

Lemma lookup_add_index idx table column ix i v :
  add_index idx table column ix !! i = Some v →
  ix !! i = Some v ∨ (i = idx ∧ v = (table, column)).
Proof.
  unfold add_index. case_bool_decide; [by left|].
  rewrite lookup_insert. case_decide as Hi; [|by left].
  intros [= <-]. right. by subst.
Qed.

Lemma lookup_add_index_keep idx table column ix i v :
  ix !! i = Some v → add_index idx table column ix !! i = Some v.
Proof.
  intros Hi. unfold add_index. case_bool_decide as Hin; [done|].
  rewrite lookup_insert_ne; [done|]. intros <-.
  apply Hin, elem_of_dom. by eexists.
Qed.

(** X15. [load_to_sqlite] replaces.  When the load goes through, it has
    logged its start and its end; the table holds the columns and the rows
    of the frame, whatever it held before; the other tables are untouched;
    the three indexes exist; every index on the table is one of these three;
    and the indexes of other tables are kept. *)
Theorem load_to_sqlite_replaces df table db log db' :
  load_to_sqlite df table db = (log, db', None) →
  log = [LoadingIntoSqlite table; LoadComplete]
  ∧ tables db' !! table = Some (mkTable (columns df) (to_sql df))
  ∧ (∀ other, other ≠ table → tables db' !! other = tables db !! other)
  ∧ (∀ c, c ∈ ["date"; "region"; "product"] →
          index_name table c ∈ dom (indexes db'))
  ∧ (∀ idx c, indexes db' !! idx = Some (table, c) →
              c ∈ ["date"; "region"; "product"] ∧ idx = index_name table c)
  ∧ (∀ idx other c, other ≠ table →
       indexes db !! idx = Some (other, c) →
       indexes db' !! idx = Some (other, c)).
Proof.
  intros (Hn & -> & ->)%load_to_sqlite_inv.
  split; [done|]. unfold loaded; cbn [tables indexes].
  split; [apply lookup_insert_eq|].
  split; [intros other Ho; by rewrite lookup_insert_ne|].
  split.
  { intros c Hc. repeat (apply elem_of_cons in Hc as [->|Hc]);
      [| | |by apply elem_of_nil in Hc].
    - do 2 apply dom_add_index_mono. apply elem_of_dom_add_index.
    - apply dom_add_index_mono. apply elem_of_dom_add_index.
    - apply elem_of_dom_add_index. }
  split.
  { intros idx c H.
    apply lookup_add_index in H as [H|[-> [= ->]]]; [|split; [in_list|done]].
    apply lookup_add_index in H as [H|[-> [= ->]]]; [|split; [in_list|done]].
    apply lookup_add_index in H as [H|[-> [= ->]]]; [|split; [in_list|done]].
    apply map_lookup_filter_Some in H as [_ H]. by simpl in H. }
  intros idx other c Ho H. do 3 apply lookup_add_index_keep.
  apply map_lookup_filter_Some. split; [done|]. simpl. congruence.
Qed.

(** X16. Loading the same frame twice leaves the store as loading it once:
    nothing accumulates. *)
Theorem load_to_sqlite_idempotent df table db log db' :
  "date" ∈ columns df → "region" ∈ columns df → "product" ∈ columns df →
  load_to_sqlite df table db = (log, db', None) →
  load_to_sqlite df table db' = (log, db', None).
Proof.
  intros Hd Hr Hp H. pose proof H as (Hn & _ & _)%load_to_sqlite_inv.
  revert H. rewrite !load_to_sqlite_ok by done.
  intros [= <- <-]. by rewrite loaded_idempotent.
Qed.

Lemma run_queries_ok qs w t :
  tables (warehouse w) !! TABLE_NAME = Some t →
  run_queries qs w
  = (map SavedQueryResult qs.*1,
     {| raw_csv := raw_csv w; warehouse := warehouse w;
        report_files :=
          foldl (λ fs nq, <[nq.1 := nq.2 (table_rows t)]> fs) (report_files w) qs |},
     None).
Proof.
  revert w. induction qs as [|[name query] qs IH]; intros w Ht; simpl.
  - by destruct w.
  - rewrite Ht. rewrite IH by done. done.
Qed.

Lemma with_reports_idempotent table files :
  with_reports table (with_reports table files) = with_reports table files.
Proof.
  unfold with_reports, queries. cbn [foldl fst snd].
  apply map_eq. intros i. rewrite !lookup_insert.
  repeat case_decide; done.
Qed.

Lemma with_reports_lookup table files name query :
  (name, query) ∈ queries →
  with_reports table files !! name = Some (query table).
Proof.
  unfold with_reports, queries. cbn [foldl fst snd]. intros H.
  repeat (apply elem_of_cons in H as [[= -> ->]|H]);
    [..|by apply elem_of_nil in H];
    rewrite !lookup_insert; repeat case_decide; done.
Qed.

Lemma with_reports_other table files name :
  name ∉ queries.*1 → with_reports table files !! name = files !! name.
Proof.
  unfold with_reports, queries. cbn [foldl fst snd]. csimpl.
  rewrite !not_elem_of_cons. intros (? & ? & ? & ? & _).
  by rewrite !lookup_insert_ne.
Qed.

Section MainFacts.

Variable to_datetime : list value → value → option Timestamp.
Variable to_numeric : value → option Q.

Local Abbreviation transform := (transform to_datetime to_numeric).
Local Abbreviation main := (main to_datetime to_numeric).

Lemma transform_columns raw log out :
  transform raw = (log, inr out) → columns out = cols.
Proof. by intros (_ & -> & _)%transform_returns. Qed.

(** A run on a world whose CSV file [transform] accepts. *)
Lemma main_returns w raw tlog out :
  raw_csv w = Some (Parsed raw) → transform raw = (tlog, inr out) →
  main w
  = ([ReadingRawCsv] ++ map FromTransform tlog
     ++ [LoadingIntoSqlite TABLE_NAME; LoadComplete; EtlFinished; DatabaseAt;
         TableRows TABLE_NAME (len out); RunningExampleQueries]
     ++ map SavedQueryResult queries.*1,
     {| raw_csv := raw_csv w;
        warehouse := loaded out TABLE_NAME (warehouse w);
        report_files := with_reports (to_sql out) (report_files w) |},
     None).
Proof.
  intros Hraw Ht. unfold main, extract_csv. rewrite Hraw, Ht.
  pose proof (transform_columns _ _ _ Ht) as Hc.
  rewrite load_to_sqlite_ok by (done || (rewrite Hc; in_list)).
  rewrite (run_queries_ok _ _ (mkTable (columns out) (to_sql out)));
    [|apply lookup_insert_eq].
  cbn [raw_csv warehouse report_files table_rows].
  unfold with_reports. by rewrite <- !app_assoc.
Qed.

(** A run that ends without an exception has read a frame that [transform]
    accepts. *)
Lemma main_None_inv w log w' :
  main w = (log, w', None) →
  ∃ raw tlog out,
    raw_csv w = Some (Parsed raw) ∧ transform raw = (tlog, inr out).
Proof.
  destruct (raw_csv w) as [[raw|]|] eqn:Hraw.
  - destruct (transform raw) as [tlog [e'|out]] eqn:Ht.
    + unfold main, extract_csv. by rewrite Hraw, Ht.
    + intros _. by exists raw, tlog, out.
  - unfold main, extract_csv. by rewrite Hraw.
  - unfold main, extract_csv. by rewrite Hraw.
Qed.


(** X18. A run of [main] that ends without an exception has read the CSV
    file and got a frame from [transform]; it has logged the steps in their
    order; the table [sales_clean] then holds the ten columns and the rows of
    that frame and no other table is touched; the CSV file is as it was;
    each of the four report files has been written, with the columns of its
    query, and no other report file is touched. *)
Theorem main_success w log w' :
  main w = (log, w', None) →
  ∃ raw tlog out,
    raw_csv w = Some (Parsed raw)
    ∧ transform raw = (tlog, inr out)
    ∧ log = [ReadingRawCsv] ++ map FromTransform tlog
            ++ [LoadingIntoSqlite TABLE_NAME; LoadComplete; EtlFinished;
                DatabaseAt; TableRows TABLE_NAME (len out);
                RunningExampleQueries]
            ++ map SavedQueryResult
                 [ "total_sales_by_region"; "top_5_products_by_profit";
                   "monthly_sales_summary";
                   "average_profit_margin_per_product" ]
    ∧ raw_csv w' = raw_csv w
    ∧ tables (warehouse w') !! TABLE_NAME = Some (mkTable cols (to_sql out))
    ∧ (∀ other, other ≠ TABLE_NAME →
         tables (warehouse w') !! other = tables (warehouse w) !! other)
    ∧ (∃ r1 r2 r3 r4,
         report_files w' !! "total_sales_by_region"
         = Some (mkReport ["region"; "total_sales"] r1)
         ∧ report_files w' !! "top_5_products_by_profit"
           = Some (mkReport ["product"; "total_profit"] r2)
         ∧ report_files w' !! "monthly_sales_summary"
           = Some (mkReport ["year"; "month"; "total_sales"] r3)
         ∧ report_files w' !! "average_profit_margin_per_product"
           = Some (mkReport ["product"; "avg_profit_margin_percent"] r4))
    ∧ (∀ name, name ∉ [ "total_sales_by_region"; "top_5_products_by_profit";
                        "monthly_sales_summary";
                        "average_profit_margin_per_product" ] →
         report_files w' !! name = report_files w !! name).
Proof.
  intros H. pose proof H as (raw & tlog & out & Hraw & Ht)%main_None_inv.
  exists raw, tlog, out. split; [done|]. split; [done|].
  rewrite (main_returns w raw tlog out Hraw Ht) in H.
  injection H as <- <-. cbn [raw_csv warehouse report_files].
  split; [done|]. split; [done|].
  unfold loaded; cbn [tables]. rewrite (transform_columns _ _ _ Ht).
  split; [apply lookup_insert_eq|].
  split; [intros other Ho; by rewrite lookup_insert_ne|].
  split.
  { unfold with_reports, queries. cbn [foldl fst snd]. eexists _, _, _, _.
    repeat split; rewrite !lookup_insert; repeat case_decide; done. }
  apply with_reports_other.
Qed.

(** X19. Running [main] again on the world it has left gives the same log and
    leaves the same world: the table is replaced, not appended to, and the
    report files are rewritten with the same content. *)
Theorem main_idempotent w log w' :
  main w = (log, w', None) → main w' = (log, w', None).
Proof.
  intros H. pose proof H as (raw & tlog & out & Hraw & Ht)%main_None_inv.
  revert H. rewrite (main_returns w raw tlog out) by done. intros [= <- <-].
  rewrite (main_returns _ raw tlog out) by done.
  cbn [raw_csv warehouse report_files].
  by rewrite loaded_idempotent, with_reports_idempotent.
Qed.

End MainFacts.

(** * Column-name normalisation *)

Lemma isspace_lower a : isspace (lower_ascii a) = isspace a.
Proof. by destruct a as [[] [] [] [] [] [] [] []]. Qed.

Lemma lower_ascii_idem a : lower_ascii (lower_ascii a) = lower_ascii a.
Proof. by destruct a as [[] [] [] [] [] [] [] []]. Qed.

Lemma lower_idem s : lower (lower s) = lower s.
Proof. induction s as [|a s IH]; simpl; [done|]. by rewrite lower_ascii_idem, IH. Qed.

Lemma rev_app_rev_app s acc acc' :
  String.rev_app (String.rev_app s acc) acc' = String.rev_app acc (s ++ acc').
Proof.
  revert acc acc'. induction s as [|a s IH]; intros acc acc'; [done|].
  cbn [String.rev_app]. rewrite IH. cbn [String.rev_app]. done.
Qed.

Lemma rev_involutive s : String.rev (String.rev s) = s.
Proof.
  unfold String.rev. rewrite rev_app_rev_app. cbn [String.rev_app].
  induction s as [|a s IH]; [done|].
  change (String a s +:+ "") with (String a (s +:+ "")). by rewrite IH.
Qed.

Lemma without_trailing_space_all s :
  all_space s = true → without_trailing_space s = "".
Proof. destruct s; simpl; [done|]. by intros ->. Qed.

Lemma lstrip_rev_app s acc :
  lstrip (String.rev_app s acc)
  = if all_space s then lstrip acc
    else String.rev_app (without_trailing_space s) acc.
Proof.
  revert acc. induction s as [|a s IH]; intros acc; [done|].
  cbn [String.rev_app]. rewrite IH. cbn [all_space without_trailing_space].
  destruct (all_space s) eqn:Hs.
  - rewrite andb_true_r. cbn [lstrip]. destruct (isspace a); [done|].
    by rewrite (without_trailing_space_all s Hs).
  - rewrite andb_false_r. done.
Qed.

Lemma rstrip_spec s : rstrip s = without_trailing_space s.
Proof.
  unfold rstrip, String.rev at 2. rewrite lstrip_rev_app.
  destruct (all_space s) eqn:Hs.
  - by rewrite without_trailing_space_all.
  - apply rev_involutive.
Qed.

Lemma lstrip_no_leading_space s : no_leading_space (lstrip s).
Proof.
  induction s as [|a s IH]; simpl; [done|].
  destruct (isspace a) eqn:Ha; [done|]. simpl. done.
Qed.

Lemma lstrip_id s : no_leading_space s → lstrip s = s.
Proof. destruct s as [|a s]; simpl; [done|]. by intros ->. Qed.

Lemma without_trailing_space_no_leading s :
  no_leading_space s → no_leading_space (without_trailing_space s).
Proof.
  destruct s as [|a s]; [done|]. cbn [no_leading_space]. intros Ha.
  cbn [without_trailing_space all_space]. rewrite Ha. simpl. done.
Qed.

Lemma without_trailing_space_not_all s :
  all_space s = false → all_space (without_trailing_space s) = false.
Proof.
  induction s as [|a s IH]; [done|]. intros Hs.
  cbn [without_trailing_space]. rewrite Hs. cbn [all_space] in *.
  destruct (isspace a); [|done]. simpl in *. by apply IH.
Qed.

Lemma without_trailing_space_idem s :
  without_trailing_space (without_trailing_space s) = without_trailing_space s.
Proof.
  induction s as [|a s IH]; [done|].
  cbn [without_trailing_space]. destruct (all_space (String a s)) eqn:Hs; [done|].
  pose proof (without_trailing_space_not_all _ Hs) as Hs'.
  cbn [without_trailing_space] in Hs'. rewrite Hs in Hs'.
  cbn [without_trailing_space]. rewrite Hs'. by rewrite IH.
Qed.

Lemma strip_idem s : strip (strip s) = strip s.
Proof.
  unfold strip. rewrite !rstrip_spec.
  rewrite (lstrip_id (without_trailing_space (lstrip s))).
  - apply without_trailing_space_idem.
  - apply without_trailing_space_no_leading, lstrip_no_leading_space.
Qed.

Lemma all_space_lower s : all_space (lower s) = all_space s.
Proof.
  induction s as [|a s IH]; simpl; [done|]. by rewrite isspace_lower, IH.
Qed.

Lemma lower_lstrip s : lower (lstrip s) = lstrip (lower s).
Proof.
  induction s as [|a s IH]; simpl; [done|]. rewrite isspace_lower.
  by destruct (isspace a).
Qed.

Lemma lower_without_trailing_space s :
  lower (without_trailing_space s) = without_trailing_space (lower s).
Proof.
  induction s as [|a s IH]; [done|].
  cbn [without_trailing_space lower].
  change (all_space (String (lower_ascii a) (lower s)))
    with (all_space (lower (String a s))).
  rewrite all_space_lower. destruct (all_space (String a s)); [done|].
  simpl. by rewrite IH.
Qed.

Lemma lower_strip s : lower (strip s) = strip (lower s).
Proof.
  unfold strip. by rewrite !rstrip_spec, lower_without_trailing_space, lower_lstrip.
Qed.

Lemma normalise_idem c : lower (strip (lower (strip c))) = lower (strip c).
Proof. by rewrite <- lower_strip, lower_idem, strip_idem. Qed.

Lemma standardize_idem raw :
  standardize_column_names (standardize_column_names raw)
  = standardize_column_names raw.
Proof.
  unfold standardize_column_names, rename; cbn [raw_columns raw_rows].
  f_equal. rewrite map_map. apply map_ext. intros c. apply normalise_idem.
Qed.

(** ** The labels that name a column *)

Lemma lstrip_decomp s : ∃ pre, s = pre +:+ lstrip s ∧ all_space pre = true.
Proof.
  induction s as [|a s (pre & IH & Hpre)]; [by exists ""|].
  cbn [lstrip]. destruct (isspace a) eqn:Ha.
  - exists (String a pre). split.
    + change (String a pre +:+ lstrip s) with (String a (pre +:+ lstrip s)).
      by rewrite <- IH.
    + cbn [all_space]. by rewrite Ha, Hpre.
  - by exists "".
Qed.

Lemma without_trailing_space_decomp s :
  ∃ post, s = without_trailing_space s +:+ post ∧ all_space post = true.
Proof.
  induction s as [|a s (post & IH & Hpost)]; [by exists ""|].
  cbn [without_trailing_space]. destruct (all_space (String a s)) eqn:Hs.
  - by exists (String a s).
  - exists post. split; [|done].
    change (String a (without_trailing_space s) +:+ post)
      with (String a (without_trailing_space s +:+ post)).
    by rewrite <- IH.
Qed.

Lemma strip_decomp s :
  ∃ pre post,
    s = pre +:+ strip s +:+ post ∧ all_space pre = true ∧ all_space post = true.
Proof.
  destruct (lstrip_decomp s) as (pre & Hs & Hpre).
  destruct (without_trailing_space_decomp (lstrip s)) as (post & Hl & Hpost).
  exists pre, post. unfold strip. rewrite rstrip_spec.
  split; [|done]. by rewrite <- Hl.
Qed.

Lemma all_space_app s t : all_space (s +:+ t) = all_space s && all_space t.
Proof.
  induction s as [|a s IH]; [done|].
  change (String a s +:+ t) with (String a (s +:+ t)).
  cbn [all_space]. by rewrite IH, andb_assoc.
Qed.

Lemma lstrip_all_space s : all_space s = true → lstrip s = "".
Proof.
  induction s as [|a s IH]; [done|]. cbn [all_space lstrip].
  intros [-> Hs]%andb_true_iff. by apply IH.
Qed.

Lemma lstrip_app pre s : all_space pre = true → lstrip (pre +:+ s) = lstrip s.
Proof.
  induction pre as [|a pre IH]; [done|]. cbn [all_space].
  intros [Ha Hs]%andb_true_iff.
  change (String a pre +:+ s) with (String a (pre +:+ s)).
  cbn [lstrip]. rewrite Ha. by apply IH.
Qed.

Lemma without_trailing_space_app body post :
  no_space body = true → all_space post = true →
  without_trailing_space (body +:+ post) = body.
Proof.
  intros Hb Hp. induction body as [|a body IH].
  - by apply without_trailing_space_all.
  - cbn [no_space] in Hb. apply andb_true_iff in Hb as [Ha Hb].
    change (String a body +:+ post) with (String a (body +:+ post)).
    cbn [without_trailing_space all_space].
    apply negb_true_iff in Ha. rewrite Ha. cbn [andb]. by rewrite IH.
Qed.

Lemma strip_app pre body post :
  all_space pre = true → no_space body = true → all_space post = true →
  strip (pre +:+ body +:+ post) = body.
Proof.
  intros Hpre Hb Hpost. unfold strip. rewrite rstrip_spec, lstrip_app by done.
  destruct body as [|a body].
  - change ("" +:+ post) with post. by rewrite lstrip_all_space.
  - rewrite lstrip_id.
    + by apply without_trailing_space_app.
    + cbn [no_space] in Hb. apply andb_true_iff in Hb as [Ha _].
      change (String a body +:+ post) with (String a (body +:+ post)).
      cbn [no_leading_space]. by apply negb_true_iff.
Qed.

Lemma lower_ascii_small a :
  small_letter (lower_ascii a) = true →
  a = lower_ascii a ∨ (N_of_ascii a + 32 = N_of_ascii (lower_ascii a))%N.
Proof. destruct a as [[] [] [] [] [] [] [] []]; vm_compute; (by left) || (by right) || done. Qed.

Lemma lower_ascii_of_small a : small_letter a = true → lower_ascii a = a.
Proof. by destruct a as [[] [] [] [] [] [] [] []]. Qed.

Lemma lower_ascii_capital a b :
  small_letter a = true → (N_of_ascii b + 32 = N_of_ascii a)%N →
  lower_ascii b = a.
Proof.
  unfold small_letter, lower_ascii. intros Ha Hb.
  apply andb_true_iff in Ha as [H1%N.leb_le H2%N.leb_le].
  assert ((65 <=? N_of_ascii b)%N && (N_of_ascii b <=? 90)%N = true) as ->.
  { apply andb_true_iff. split; apply N.leb_le; lia. }
  cbn [orb]. by rewrite Hb, ascii_N_embedding.
Qed.

Lemma isspace_small a : small_letter a = true → isspace a = false.
Proof. by destruct a as [[] [] [] [] [] [] [] []]. Qed.

Lemma isspace_capital a b :
  small_letter a = true → (N_of_ascii b + 32 = N_of_ascii a)%N →
  isspace b = false.
Proof.
  intros Ha Hb. rewrite <- isspace_lower, (lower_ascii_capital a b Ha Hb).
  by apply isspace_small.
Qed.

Lemma spells_lower c s : small_letters c = true → spells c s → lower s = c.
Proof.
  intros Hc H. induction H as [|a c s H IH|a b c s Ha Hb H IH]; [done|..];
    cbn [small_letters] in Hc; apply andb_true_iff in Hc as [Ha' Hc];
    cbn [lower]; rewrite IH by done; f_equal.
  - by apply lower_ascii_of_small.
  - by apply lower_ascii_capital.
Qed.

Lemma spells_no_space c s : small_letters c = true → spells c s → no_space s = true.
Proof.
  intros Hc H. induction H as [|a c s H IH|a b c s Ha Hb H IH]; [done|..];
    cbn [small_letters] in Hc; apply andb_true_iff in Hc as [Ha' Hc];
    cbn [no_space]; rewrite IH by done.
  - by rewrite isspace_small.
  - by rewrite (isspace_capital a b).
Qed.

Lemma lower_spells c s : small_letters c = true → lower s = c → spells c s.
Proof.
  revert c. induction s as [|b s IH]; intros c Hc Hl.
  - rewrite <- Hl. constructor.
  - cbn [lower] in Hl. subst c. cbn [small_letters] in Hc.
    apply andb_true_iff in Hc as [Hb Hc].
    destruct (lower_ascii_small b Hb) as [Heq|Hcap].
    + rewrite <- Heq. apply spells_small. by apply IH.
    + apply spells_capital; [done..|]. by apply IH.
Qed.

(** The characters [isspace] accepts are the white space of Python 3. *)
Lemma isspace_white_space a :
  isspace a = true ↔ In (N_of_ascii a) white_space.
Proof.
  destruct a as [[] [] [] [] [] [] [] []]; vm_compute;
    (split; [intros ?|intros ?]; (done || tauto || (intuition discriminate))).
Qed.

Lemma all_space_blank s : all_space s = true ↔ blank s.
Proof.
  induction s as [|a s IH]; [done|]. cbn [all_space blank].
  by rewrite andb_true_iff, isspace_white_space, IH.
Qed.

(** A label is normalised to a name in small letters exactly when it names
    it. *)
Lemma normalise_names label c :
  small_letters c = true → lower (strip label) = c ↔ names label c.
Proof.
  intros Hc. split.
  - intros Hl. destruct (strip_decomp label) as (pre & post & Hs & Hpre & Hpost).
    exists pre, (strip label), post.
    split; [done|]. split; [by apply all_space_blank|].
    split; [by apply all_space_blank|]. by apply lower_spells.
  - intros (pre & body & post & -> & Hpre%all_space_blank
            & Hpost%all_space_blank & Hsp).
    rewrite strip_app; [by apply spells_lower|done| |done].
    by apply (spells_no_space c).
Qed.

Lemma required_small_letters c : c ∈ required → small_letters c = true.
Proof.
  unfold required. rewrite !elem_of_union, !elem_of_singleton.
  intros [[[[[->| ->]| ->]| ->]| ->]| ->]; reflexivity.
Qed.

Lemma missing_columns_present raw c :
  c ∈ missing_columns (standardize_column_names raw)
  ↔ c ∈ required ∧ ¬ present raw c.
Proof.
  unfold missing_columns, standardize_column_names, rename, present;
    cbn [raw_columns].
  rewrite elem_of_difference, elem_of_list_to_set.
  split; intros [Hc Hn]; (split; [done|]).
  - intros (label & Hl & Hname). apply Hn.
    apply list_elem_of_In, in_map_iff. exists label.
    split; [|by apply list_elem_of_In].
    by apply normalise_names; [apply required_small_letters|].
  - intros (label & <- & Hl%list_elem_of_In)%list_elem_of_In%in_map_iff. apply Hn.
    exists label. split; [done|].
    by apply normalise_names; [apply required_small_letters|].
Qed.

Lemma present_dec raw c : c ∈ required → present raw c ∨ ¬ present raw c.
Proof.
  intros Hc.
  destruct (decide (c ∈ missing_columns (standardize_column_names raw))) as [H|H].
  - right. by apply missing_columns_present in H as [_ H].
  - left. destruct (decide (c ∈ map (λ c, lower (strip c)) (raw_columns raw)))
      as [Hin|Hout].
    + apply list_elem_of_In, in_map_iff in Hin as (label & <- & Hl%list_elem_of_In).
      exists label. split; [done|].
      by apply normalise_names; [apply required_small_letters|].
    + exfalso. apply H. unfold missing_columns, standardize_column_names, rename;
        cbn [raw_columns].
      rewrite elem_of_difference, elem_of_list_to_set. done.
Qed.

Lemma present_of_normalised raw c :
  small_letters c = true →
  c ∈ map (λ c, lower (strip c)) (raw_columns raw) → present raw c.
Proof.
  intros Hc (label & <- & Hl%list_elem_of_In)%list_elem_of_In%in_map_iff.
  exists label. split; [done|]. by apply normalise_names.
Qed.

Section Schema.

Variable to_datetime : list value → value → option Timestamp.
Variable to_numeric : value → option Q.

Local Abbreviation coerced := (coerced to_datetime to_numeric).
Local Abbreviation transform := (transform to_datetime to_numeric).

(** C6. [transform] raises the error for missing columns exactly when, for
    some required column, no label is its name in letters of either case
    with white space around it at most; it raises it before any other step,
    and the error lists exactly the required columns without such a label.
    When every required column has its label and no two labels are the same
    once stripped and lower-cased, [transform] returns a frame, whatever the
    cells hold: in the coerced frame a date or a number that the parser does
    not read is the missing marker. *)
Theorem schema_error_iff raw :
  ((∃ c, c ∈ required ∧ ¬ present raw c)
   ↔ ∃ log m, transform raw = (log, inl (ValueError_MissingColumns m)))
  ∧ (∀ log m, transform raw = (log, inl (ValueError_MissingColumns m)) →
       log = [StartingTransform]
       ∧ ∀ c, c ∈ m ↔ c ∈ required ∧ ¬ present raw c)
  ∧ ((∀ c, c ∈ required → present raw c) →
     NoDup (map (λ c, lower (strip c)) (raw_columns raw)) →
     ∃ log out, transform raw = (log, inr out))
  ∧ (∀ ir, In ir (rows (coerced raw)) →
       ∃ r0, In (ir.1, r0) (rows (frame (standardize_column_names raw)))
         ∧ get ir.2 "date"
           = match to_datetime
                     (column "date" (frame (standardize_column_names raw)))
                     (get r0 "date") with
             | Some t => Datetime t
             | None => NA
             end
         ∧ ∀ c, c ∈ ["sales"; "quantity"; "profit"] →
                get ir.2 c = match to_numeric (get r0 c) with
                             | Some q => Num q
                             | None => NA
                             end).
Proof.
  assert (missing_columns (standardize_column_names raw) = ∅
          ↔ ∀ c, c ∈ required → present raw c) as Hnone.
  { split.
    - intros He c Hc. destruct (present_dec raw c Hc) as [|Hn]; [done|].
      assert (c ∈ missing_columns (standardize_column_names raw)) as Hin
        by by apply missing_columns_present.
      rewrite He in Hin. by apply elem_of_empty in Hin.
    - intros Hall. apply set_eq. intros c. rewrite missing_columns_present.
      split; [|by intros ?%elem_of_empty].
      intros [Hc Hn]. exfalso. by apply Hn, Hall. }
  split; [|split; [|split]].
  - split.
    + intros (c & Hc & Hn). eexists _, _. apply transform_raises.
      intros He. by apply Hn, Hnone.
    + intros (log & m & Ht).
      destruct (decide (missing_columns (standardize_column_names raw) = ∅))
        as [He|Hne].
      * destruct (decide (NoDup (raw_columns (standardize_column_names raw))))
          as [Hu|Hu].
        -- by rewrite (transform_complete _ _ _ He Hu) in Ht.
        -- by rewrite (transform_collides _ _ _ He Hu) in Ht.
      * apply set_choose_L in Hne as (c & Hc). exists c.
        by apply missing_columns_present.
  - intros log m Ht.
    destruct (decide (missing_columns (standardize_column_names raw) = ∅))
      as [He|Hne].
    + destruct (decide (NoDup (raw_columns (standardize_column_names raw))))
        as [Hu|Hu].
      * by rewrite (transform_complete _ _ _ He Hu) in Ht.
      * by rewrite (transform_collides _ _ _ He Hu) in Ht.
    + rewrite (transform_raises _ _ _ Hne) in Ht. injection Ht as <- <-.
      split; [done|]. intros c. apply missing_columns_present.
  - intros Hall%Hnone Hu. eexists _, _. by apply transform_complete.
  - intros ir (r0 & Hin & Hd & Hs & Hq & Hp & _)%coerced_row.
    exists r0. split; [done|]. split; [done|].
    intros c Hc. repeat (apply elem_of_cons in Hc as [->|Hc]);
      [done..|by apply elem_of_nil in Hc].
Qed.

End Schema.

(** X20. Standardising the column names is idempotent: a standardised label
    is left alone by [strip] and by [lower], standardising twice is
    standardising once, and [transform] gives the same log and result on a
    frame whose labels have been standardised already. *)
Theorem standardize_column_names_idempotent to_datetime to_numeric raw :
  (∀ c, In c (raw_columns (standardize_column_names raw)) →
        strip c = c ∧ lower c = c)
  ∧ standardize_column_names (standardize_column_names raw)
    = standardize_column_names raw
  ∧ transform to_datetime to_numeric (standardize_column_names raw)
    = transform to_datetime to_numeric raw.
Proof.
  split; [|split].
  - unfold standardize_column_names, rename; cbn [raw_columns].
    intros c (c0 & <- & _)%in_map_iff. split.
    + by rewrite <- lower_strip, strip_idem.
    + apply lower_idem.
  - apply standardize_idem.
  - unfold transform. by rewrite standardize_idem.
Qed.

(** X21. On a frame without rows that has the required columns, under
    labels that are pairwise distinct once they are stripped and lower-cased,
    [transform] returns the frame with the ten columns and no row, and logs
    that 0 rows were dropped and 0 rows are left. *)
Theorem transform_empty to_datetime to_numeric raw :
  raw_rows raw = [] →
  missing_columns (standardize_column_names raw) = ∅ →
  NoDup (map (λ c, lower (strip c)) (raw_columns raw)) →
  transform to_datetime to_numeric raw
  = ([StartingTransform; DroppedBadRows 0; TransformComplete 0],
     inr {| columns := cols; rows := [] |}).
Proof.
  intros Hrows Hm Hu. rewrite (transform_complete _ _ raw Hm Hu).
  assert (rows (coerced to_datetime to_numeric raw) = []) as Hco.
  { unfold coerced, coerce_numeric_columns, parse_date, assign, frame,
      standardize_column_names, rename; cbn [fold_left rows raw_rows].
    by rewrite Hrows. }
  assert (rows (clean_values (coerced to_datetime to_numeric raw)) = []) as Hcl.
  { unfold clean_values, drop_duplicates, assign; cbn [rows]. by rewrite Hco. }
  assert (rows (sanitized to_datetime to_numeric raw) = []) as Hsa.
  { unfold sanitized, drop_bad_rows, dropna, loc; cbn [rows]. by rewrite Hcl. }
  unfold order_columns, reset_index, sort_values, getitem, add_derived_fields,
    assign, len; cbn [rows columns].
  by rewrite Hcl, Hsa.
Qed.

(** * The further properties at sample inputs *)

(** The label of the date column of [padded_frame] names [date]: a blank,
    then the name with a capital D. *)
Lemma padded_date_names : names " Date" "date".
Proof.
  exists " ", "Date", "". split; [done|].
  split; [simpl; tauto|]. split; [done|].
  apply spells_capital; [done..|]. repeat apply spells_small. constructor.
Qed.

Lemma schema_error_iff_witness :
  (∃ log out, transform_csv padded_frame = (log, inr out))
  ∧ ∃ log m, transform_csv no_profit_frame
             = (log, inl (ValueError_MissingColumns m)).
Proof.
  split.
  - apply (schema_error_iff to_datetime_iso to_numeric_decimal padded_frame).
    + intros c Hc. apply present_of_normalised;
        [by apply required_small_letters|].
      unfold required in Hc. rewrite !elem_of_union, !elem_of_singleton in Hc.
      destruct Hc as [[[[[->| ->]| ->]| ->]| ->]| ->];
        apply list_elem_of_In; vm_compute; tauto.
    + apply bool_decide_unpack with (dec := NoDup_dec _). by vm_compute.
  - apply (schema_error_iff to_datetime_iso to_numeric_decimal no_profit_frame).
    exists "profit". split.
    + unfold required. rewrite !elem_of_union, !elem_of_singleton. tauto.
    + intros (label & Hl & Hn).
      apply normalise_names in Hn; [|done]. revert Hn.
      repeat (apply elem_of_cons in Hl as [->|Hl]);
        [by vm_compute..|by apply elem_of_nil in Hl].
Defined.

(** The records of [padded_frame]: the row whose date and quantity do not
    parse is dropped, the other one is returned. *)
Lemma padded_frame_records :
  transform_csv padded_frame
  = ([StartingTransform; DroppedBadRows 1; TransformComplete 1],
     inr (returned padded_frame))
  ∧ to_records (returned padded_frame)
    = [ [ Datetime (mkTimestamp 2024 1 5 0); Num 2024; Num 1; Str "East";
          Str "Widget"; Num 10; Num 10; Num 100; Num 20; float64 (1 # 5) ] ]
  ∧ column "date" (coerced_csv padded_frame)
    = [Datetime (mkTimestamp 2024 1 5 0); NA]
  ∧ column "quantity" (coerced_csv padded_frame) = [Num 10; NA].
Proof. by vm_compute. Qed.

Lemma transform_mixed_out :
  transform to_datetime_iso to_numeric_decimal mixed_frame
  = (mixed_log, inr mixed_out).
Proof. by vm_compute. Defined.

Lemma mixed_first_In : In mixed_first (rows mixed_out).
Proof. apply (first_row_In mixed_out). vm_compute. lia. Defined.

Lemma lookup_row_at i df :
  (i < len df)%nat → rows df !! i = Some (row_at i df).
Proof.
  unfold len, row_at. revert i. induction (rows df) as [|x l IH]; intros i Hi;
    simpl in *; [lia|].
  destruct i as [|i]; [done|]. apply IH. lia.
Defined.

Lemma transform_row_counts_witness :
  len mixed_out = len (sanitized_csv mixed_frame)
  ∧ (len mixed_out ≤ len (clean_values (coerced_csv mixed_frame)))%nat
  ∧ (len mixed_out ≤ length (raw_rows mixed_frame))%nat
  ∧ last mixed_log = Some (TransformComplete (len (sanitized_csv mixed_frame))).
Proof.
  exact (transform_row_counts to_datetime_iso to_numeric_decimal
           mixed_frame mixed_log mixed_out transform_mixed_out).
Defined.

Lemma year_month_of_date_witness :
  ∃ t, get mixed_first.2 "date" = Datetime t
    ∧ get mixed_first.2 "year" = Num (inject_Z (year t))
    ∧ get mixed_first.2 "month" = Num (inject_Z (month t)).
Proof.
  exact (year_month_of_date to_datetime_iso to_numeric_decimal
           mixed_frame mixed_log mixed_out mixed_first
           transform_mixed_out mixed_first_In).
Defined.

Lemma derived_fields_sign_witness :
  ¬ negative (get mixed_first.2 "unit_price")
  ∧ (¬ negative (get mixed_first.2 "profit") →
     ¬ negative (get mixed_first.2 "profit_margin"))
  ∧ (¬ positive (get mixed_first.2 "profit") →
     ¬ positive (get mixed_first.2 "profit_margin")).
Proof.
  exact (derived_fields_sign to_datetime_iso to_numeric_decimal
           mixed_frame mixed_log mixed_out mixed_first
           transform_mixed_out mixed_first_In).
Defined.

Lemma cleaned_rows_pairwise_distinct_witness :
  ∃ c, c ∈ columns mixed_cleaned
       ∧ value_eqb (get (row_at 0 mixed_cleaned).2 c)
                   (get (row_at 1 mixed_cleaned).2 c) = false.
Proof.
  apply (cleaned_rows_pairwise_distinct (coerced_csv mixed_frame) 0 1).
  - lia.
  - apply (lookup_row_at 0 mixed_cleaned). vm_compute. lia.
  - apply (lookup_row_at 1 mixed_cleaned). vm_compute. lia.
Defined.

Lemma output_provenance_witness :
  ∃ i cells r0,
    In (i, cells) (raw_rows mixed_frame)
    ∧ r0 = list_to_map
             (zip (raw_columns (standardize_column_names mixed_frame))
                  (box <$> cells))
    ∧ get mixed_first.2 "date"
      = of_timestamp
          (to_datetime_iso
             (column "date" (frame (standardize_column_names mixed_frame)))
             (get r0 "date"))
    ∧ get mixed_first.2 "region"
      = replace "" "Unknown" (fillna (Str "Unknown") (get r0 "region"))
    ∧ get mixed_first.2 "product" = get r0 "product"
    ∧ get mixed_first.2 "quantity"
      = of_number (to_numeric_decimal (get r0 "quantity"))
    ∧ get mixed_first.2 "sales" = of_number (to_numeric_decimal (get r0 "sales"))
    ∧ get mixed_first.2 "profit"
      = of_number (to_numeric_decimal (get r0 "profit")).
Proof.
  exact (output_provenance to_datetime_iso to_numeric_decimal
           mixed_frame mixed_log mixed_out mixed_first
           transform_mixed_out mixed_first_In).
Defined.

Lemma region_never_empty_witness :
  ∃ g, get mixed_first.2 "region" = Str g ∧ g ≠ "".
Proof.
  exact (region_never_empty to_datetime_iso to_numeric_decimal
           mixed_frame mixed_log mixed_out mixed_first
           transform_mixed_out mixed_first_In).
Defined.

Lemma coerced_first_In :
  In (first_row (coerced_csv mixed_frame)) (rows (coerced_csv mixed_frame)).
Proof. apply (first_row_In (coerced_csv mixed_frame)). vm_compute. lia. Defined.

Lemma valid_row_represented_witness :
  ∃ ir, In ir (rows mixed_out)
    ∧ (∀ c, c ∈ ["date"; "product"; "quantity"; "sales"; "profit"] →
            value_eqb (get ir.2 c) (get (first_row (coerced_csv mixed_frame)).2 c)
            = true)
    ∧ value_eqb (get ir.2 "region")
        (replace "" "Unknown"
           (fillna (Str "Unknown")
              (get (first_row (coerced_csv mixed_frame)).2 "region")))
      = true.
Proof.
  apply (valid_row_represented to_datetime_iso to_numeric_decimal
           mixed_frame mixed_log mixed_out (first_row (coerced_csv mixed_frame))
           transform_mixed_out coerced_first_In).
  - by vm_compute.
  - by vm_compute.
  - by vm_compute.
Defined.

Lemma transform_ignores_index_witness :
  transform to_datetime_iso to_numeric_decimal mixed_frame
  = transform to_datetime_iso to_numeric_decimal (relabelled mixed_frame).
Proof.
  apply transform_ignores_index.
  - reflexivity.
  - reflexivity.
Defined.

Lemma top_5_are_the_largest_witness :
  ((Str "F", 1%Q).2 <= (Str "A", 9%Q).2)%Q.
Proof.
  apply (top_5_are_the_largest (to_sql (returned six_products))).
  - vm_compute. tauto.
  - vm_compute. intros [H|[H|[H|[H|[H|[]]]]]]; discriminate H.
  - vm_compute. tauto.
Defined.

Lemma region_report_on_output_witness :
  ∃ g, (hd (NA, 0%Q) (total_sales_by_region (to_sql mixed_out))).1 = Str g
       ∧ g ≠ ""
       ∧ (0 <= (hd (NA, 0%Q) (total_sales_by_region (to_sql mixed_out))).2)%Q.
Proof.
  apply (region_report_on_output to_datetime_iso to_numeric_decimal
           mixed_frame mixed_log mixed_out _ transform_mixed_out).
  vm_compute. tauto.
Defined.

Lemma load_to_sqlite_replaces_witness :
  [LoadingIntoSqlite TABLE_NAME; LoadComplete]
  = [LoadingIntoSqlite TABLE_NAME; LoadComplete]
  ∧ tables (loaded mixed_out TABLE_NAME stale_store) !! TABLE_NAME
    = Some (mkTable (columns mixed_out) (to_sql mixed_out))
  ∧ (∀ other, other ≠ TABLE_NAME →
       tables (loaded mixed_out TABLE_NAME stale_store) !! other
       = tables stale_store !! other)
  ∧ (∀ c, c ∈ ["date"; "region"; "product"] →
          index_name TABLE_NAME c
          ∈ dom (indexes (loaded mixed_out TABLE_NAME stale_store)))
  ∧ (∀ idx c,
       indexes (loaded mixed_out TABLE_NAME stale_store) !! idx
       = Some (TABLE_NAME, c) →
       c ∈ ["date"; "region"; "product"] ∧ idx = index_name TABLE_NAME c)
  ∧ (∀ idx other c, other ≠ TABLE_NAME →
       indexes stale_store !! idx = Some (other, c) →
       indexes (loaded mixed_out TABLE_NAME stale_store) !! idx
       = Some (other, c)).
Proof.
  apply (load_to_sqlite_replaces mixed_out TABLE_NAME stale_store).
  by vm_compute.
Defined.

Lemma load_to_sqlite_idempotent_witness :
  load_to_sqlite mixed_out TABLE_NAME (loaded mixed_out TABLE_NAME empty_store)
  = ([LoadingIntoSqlite TABLE_NAME; LoadComplete],
     loaded mixed_out TABLE_NAME empty_store, None).
Proof.
  apply (load_to_sqlite_idempotent mixed_out TABLE_NAME empty_store).
  - apply list_elem_of_In; vm_compute; tauto.
  - apply list_elem_of_In; vm_compute; tauto.
  - apply list_elem_of_In; vm_compute; tauto.
  - by vm_compute.
Defined.


Lemma main_success_witness :
  ∃ raw tlog out,
    raw_csv (fresh_world mixed_frame) = Some (Parsed raw)
    ∧ transform_csv raw = (tlog, inr out)
    ∧ mixed_main_log
      = [ReadingRawCsv] ++ map FromTransform tlog
        ++ [LoadingIntoSqlite TABLE_NAME; LoadComplete; EtlFinished;
            DatabaseAt; TableRows TABLE_NAME (len out); RunningExampleQueries]
        ++ map SavedQueryResult
             [ "total_sales_by_region"; "top_5_products_by_profit";
               "monthly_sales_summary"; "average_profit_margin_per_product" ]
    ∧ raw_csv mixed_world_after = raw_csv (fresh_world mixed_frame)
    ∧ tables (warehouse mixed_world_after) !! TABLE_NAME
      = Some (mkTable cols (to_sql out))
    ∧ (∀ other, other ≠ TABLE_NAME →
         tables (warehouse mixed_world_after) !! other
         = tables (warehouse (fresh_world mixed_frame)) !! other)
    ∧ (∃ r1 r2 r3 r4,
         report_files mixed_world_after !! "total_sales_by_region"
         = Some (mkReport ["region"; "total_sales"] r1)
         ∧ report_files mixed_world_after !! "top_5_products_by_profit"
           = Some (mkReport ["product"; "total_profit"] r2)
         ∧ report_files mixed_world_after !! "monthly_sales_summary"
           = Some (mkReport ["year"; "month"; "total_sales"] r3)
         ∧ report_files mixed_world_after !! "average_profit_margin_per_product"
           = Some (mkReport ["product"; "avg_profit_margin_percent"] r4))
    ∧ (∀ name, name ∉ [ "total_sales_by_region"; "top_5_products_by_profit";
                        "monthly_sales_summary";
                        "average_profit_margin_per_product" ] →
         report_files mixed_world_after !! name
         = report_files (fresh_world mixed_frame) !! name).
Proof.
  apply (main_success to_datetime_iso to_numeric_decimal
           (fresh_world mixed_frame) mixed_main_log mixed_world_after).
  by vm_compute.
Defined.

Lemma main_idempotent_witness :
  main to_datetime_iso to_numeric_decimal mixed_world_after
  = (mixed_main_log, mixed_world_after, None).
Proof.
  apply (main_idempotent to_datetime_iso to_numeric_decimal
           (fresh_world mixed_frame)).
  by vm_compute.
Defined.

Lemma transform_empty_witness :
  transform to_datetime_iso to_numeric_decimal (sales_frame [])
  = ([StartingTransform; DroppedBadRows 0; TransformComplete 0],
     inr {| columns := cols; rows := [] |}).
Proof.
  apply transform_empty.
  - reflexivity.
  - by vm_compute.
  - apply bool_decide_unpack with (dec := NoDup_dec _). by vm_compute.
Defined.
